(** * lv-vertical-tabs: a shallow embedding of the vertical tab widget

    The development follows the TypeScript source of version 2.0.0 (and the
    JavaScript compiled from it): [createVerticalTabs], [createTabElements],
    [createTabItem], [createImage], [createButton], [createDebugOverlay],
    [attachEventListeners], [selectTab], [autoCycleTabs], [cycleTabs] and
    [createElement].

    The host document is a store of elements addressed by references, so that
    the arrays of [TabElements], the children of the list container and the
    array collected by [autoCycleTabs] alias the same objects, as they do in
    the browser. *)

From Stdlib Require Import ZArith String Ascii List DecimalString DecimalNat.
From stdpp Require Import base option list gmap strings fin_maps.

Local Open Scope string_scope.
Local Open Scope list_scope.
Local Open Scope nat_scope.

(** ** Strings *)

(** A string is truthy in JavaScript when it is not empty. *)
Definition truthy (s : string) : bool := negb (String.eqb s "").

(** The double quote character, for the template literals that contain it. *)
Definition dquote : string := String (ascii_of_nat 34) EmptyString.

(** The line feed of the multi-line template literal of [createTabItem]. *)
Definition newline : string := String (ascii_of_nat 10) EmptyString.

(** [index.toString()] for an array index: its decimal digits. *)
Definition toString (n : nat) : string := NilZero.string_of_uint (Nat.to_uint n).

Definition is_blank (c : ascii) : bool :=
  (Ascii.eqb c " " || Ascii.eqb c (ascii_of_nat 9) || Ascii.eqb c (ascii_of_nat 10)
   || Ascii.eqb c (ascii_of_nat 12) || Ascii.eqb c (ascii_of_nat 13))%bool.

Fixpoint split_on (sep : ascii) (s : string) : list string :=
  match s with
  | EmptyString => [EmptyString]
  | String c s' =>
      if Ascii.eqb c sep then EmptyString :: split_on sep s'
      else match split_on sep s' with
           | [] => [String c EmptyString]
           | p :: ps => String c p :: ps
           end
  end.

Fixpoint trim_left (s : string) : string :=
  match s with
  | String c s' => if is_blank c then trim_left s' else s
  | EmptyString => EmptyString
  end.

Fixpoint trim_right (s : string) : string :=
  match s with
  | EmptyString => EmptyString
  | String c s' =>
      match trim_right s' with
      | EmptyString => if is_blank c then EmptyString else String c EmptyString
      | t => String c t
      end
  end.

Definition trim (s : string) : string := trim_right (trim_left s).

(** The tokens of a [className]: its maximal runs of non-blank characters. *)
Fixpoint class_tokens_go (cur : string) (s : string) : list string :=
  match s with
  | EmptyString => if String.eqb cur "" then [] else [cur]
  | String c s' =>
      if is_blank c
      then (if String.eqb cur "" then [] else [cur]) ++ class_tokens_go "" s'
      else class_tokens_go (cur +:+ String c EmptyString) s'
  end.

Definition class_tokens (s : string) : list string := class_tokens_go "" s.

(** The declarations of a [cssText]: [name: value] pairs separated by
    semicolons, blanks around names and values dropped, empty pieces skipped. *)
Definition css_declaration (piece : string) : option (string * string) :=
  match split_on ":" piece with
  | name :: value :: _ =>
      if String.eqb (trim name) "" then None else Some (trim name, trim value)
  | _ => None
  end.

Definition parse_cssText (s : string) : list (string * string) :=
  omap css_declaration (split_on ";" s).

(** ** JavaScript numbers, as far as the widget looks at them

    An index reaches [selectTab] either as the literal [0] or as
    [Number(indexStr)]. The widget only asks whether it is [NaN] and whether
    it is strictly equal to an array position, so a number is [NaN], an
    integer, or some other value (a fraction or an infinity) that equals no
    array position. *)
Inductive JSNumber :=
| NaN
| Int (z : Z)
| NonInt.

Definition isNaN (x : JSNumber) : bool :=
  match x with NaN => true | _ => false end.

(** [i === index] for an array position [i]. *)
Definition strict_eq (i : nat) (index : JSNumber) : bool :=
  match index with
  | Int z => Z.eqb (Z.of_nat i) z
  | _ => false
  end.

(** ** Configuration *)

Module TabButtonConfig.
Record t := mk { text : string; url : string }.
End TabButtonConfig.

Module TabConfig.
Record t := mk {
  title : string;
  text : string;
  image : string;
  button : option TabButtonConfig.t
}.
End TabConfig.

Module VerticalTabsConfig.
Record t := mk {
  container : string;
  position : option string;
  tabs : list TabConfig.t;
  debug : option bool
}.
End VerticalTabsConfig.

(** [Required<VerticalTabsConfig>]: the configuration after the defaults. *)
Module Settings.
Record t := mk {
  container : string;
  position : string;
  tabs : list TabConfig.t;
  debug : bool
}.
End Settings.

(** [{ position: "left", debug: false, ...config }] *)
Definition settings_of (config : VerticalTabsConfig.t) : Settings.t :=
  Settings.mk (VerticalTabsConfig.container config)
              (default "left" (VerticalTabsConfig.position config))
              (VerticalTabsConfig.tabs config)
              (default false (VerticalTabsConfig.debug config)).

(** ** Elements and the document store *)

Abbreviation ref := nat.

(** An element, by what the script writes to it. The store holds the elements
    of the page and those the script creates with [document.createElement],
    and the fields of an element record the script's own writes:
    [attrs] what [setAttribute] and [dataset] wrote, [props] the value last
    assigned as [el[key] = value], [innerHTML] the markup last assigned,
    [childNodes] the elements appended with [appendChild]. What a browser
    derives from a write is not recorded: neither the content attribute
    behind a property such as [href] or [src], nor the nodes parsed from the
    markup. A statement about the elements found below a container therefore
    takes the strings of the tabs to carry no markup. *)
Record Element := mkElement {
  tagName : string;
  classList : list string;
  attrs : gmap string string;   (* content attributes: setAttribute, dataset *)
  props : gmap string string;   (* properties assigned as el[key] = value *)
  style : gmap string string;   (* inline style declarations *)
  innerHTML : string;            (* the markup assigned, kept as text: the
                                   nodes a browser parses from it are not
                                   elements of the store *)
  parentNode : option ref;
  childNodes : list ref
}.

Definition set_classList (f : list string → list string) (el : Element) : Element :=
  mkElement (tagName el) (f (classList el)) (attrs el) (props el) (style el)
            (innerHTML el) (parentNode el) (childNodes el).

Definition set_attrs (f : gmap string string → gmap string string) (el : Element) : Element :=
  mkElement (tagName el) (classList el) (f (attrs el)) (props el) (style el)
            (innerHTML el) (parentNode el) (childNodes el).

Definition set_props (f : gmap string string → gmap string string) (el : Element) : Element :=
  mkElement (tagName el) (classList el) (attrs el) (f (props el)) (style el)
            (innerHTML el) (parentNode el) (childNodes el).

Definition set_style (f : gmap string string → gmap string string) (el : Element) : Element :=
  mkElement (tagName el) (classList el) (attrs el) (props el) (f (style el))
            (innerHTML el) (parentNode el) (childNodes el).

Definition set_innerHTML (s : string) (el : Element) : Element :=
  mkElement (tagName el) (classList el) (attrs el) (props el) (style el)
            s (parentNode el) (childNodes el).

Definition set_parentNode (p : option ref) (el : Element) : Element :=
  mkElement (tagName el) (classList el) (attrs el) (props el) (style el)
            (innerHTML el) p (childNodes el).

Definition set_childNodes (f : list ref → list ref) (el : Element) : Element :=
  mkElement (tagName el) (classList el) (attrs el) (props el) (style el)
            (innerHTML el) (parentNode el) (f (childNodes el)).

(** The store: element [r] is [dom !! r]; a new element takes the next
    position, and nothing is ever removed from the store. *)
Abbreviation Dom := (list Element).

(** [document.createElement(tag)] *)
Definition blank (tag : string) : Element :=
  mkElement tag [] ∅ ∅ ∅ "" None [].

(** [classList.toggle(token, force)] and [classList.contains(token)] *)
Definition classList_toggle (token : string) (force : bool) (cl : list string) : list string :=
  if force
  then (if bool_decide (token ∈ cl) then cl else cl ++ [token])
  else filter (λ c, c ≠ token) cl.

Definition classList_contains (token : string) (el : Element) : bool :=
  bool_decide (token ∈ classList el).

(** [el.style.cssText = value] replaces the inline declarations. *)
Definition cssText (value : string) : gmap string string :=
  list_to_map (reverse (parse_cssText value)).

(** ** A state monad over the store *)

Definition DomM (A : Type) : Type := Dom → A * Dom.

Definition ret {A} (a : A) : DomM A := λ dom, (a, dom).

Definition bind {A B} (m : DomM A) (k : A → DomM B) : DomM B :=
  λ dom, let '(a, dom') := m dom in k a dom'.

Notation "'let*' x := m 'in' k" := (bind m (λ x, k))
  (at level 10, x name, m at level 100, k at level 200).
Notation "m ;;; k" := (bind m (λ _, k))
  (at level 100, k at level 200, right associativity).

Definition alloc (el : Element) : DomM ref := λ dom, (List.length dom, dom ++ [el]).

Definition update (r : ref) (f : Element → Element) : DomM unit :=
  λ dom, (tt, alter f r dom).

Definition parentOf (r : ref) (dom : Dom) : option ref :=
  el ← dom !! r; parentNode el.

(** [parent.appendChild(child)]: the child leaves its former parent, if it
    has one, and becomes the last child of [parent]. *)
Definition appendChild (parent child : ref) : DomM unit :=
  λ dom,
    let dom1 :=
      match parentOf child dom with
      | Some old => alter (set_childNodes (filter (λ c, c ≠ child))) old dom
      | None => dom
      end in
    (tt, alter (set_childNodes (λ cs, cs ++ [child])) parent
           (alter (set_parentNode (Some parent)) child dom1)).

(** [Array.prototype.reduce] with the position passed to the callback. *)
Fixpoint reduce_from {A B} (f : B → A → nat → DomM B) (l : list A) (i : nat) (acc : B) : DomM B :=
  match l with
  | [] => ret acc
  | x :: l' => let* acc' := f acc x i in reduce_from f l' (S i) acc'
  end.

Definition reduce {A B} (f : B → A → nat → DomM B) (l : list A) (init : B) : DomM B :=
  reduce_from f l 0 init.

(** [Array.prototype.forEach] with the position passed to the callback. *)
Fixpoint forEach_from {A} (f : A → nat → DomM unit) (l : list A) (i : nat) : DomM unit :=
  match l with
  | [] => ret tt
  | x :: l' => f x i ;;; forEach_from f l' (S i)
  end.

Definition forEach {A} (f : A → nat → DomM unit) (l : list A) : DomM unit :=
  forEach_from f l 0.

(** ** The builder *)

(** One entry of the [attributes] object of [createElement]: the branch the
    entry takes, [style.cssText], [setAttribute] or the assignment
    [el[key] = value], which is recorded in [props] only. *)
Definition apply_attribute (el : Element) (kv : string * string) : Element :=
  let '(key, value) := kv in
  if String.eqb key "style" then set_style (λ _, cssText value) el
  else if String.prefix "data-" key then set_attrs <[key := value]> el
  else set_props <[key := value]> el.

Definition createElement (tag className : string) (attributes : list (string * string)) : DomM ref :=
  alloc (fold_left apply_attribute attributes
           (set_classList (λ _, class_tokens className) (blank tag))).

(** The header of a tab. The template is recorded as the markup assigned;
    the heading and the paragraph a browser parses from it, and whatever the
    title and the text add to them, are not elements of the store. *)
Definition createTabItem (tab : TabConfig.t) (index : nat) : DomM ref :=
  let* tabEl := createElement "li" "vt__list-item" [] in
  update tabEl (set_attrs <["data-index" := toString index]>) ;;;
  update tabEl (set_innerHTML
    (newline +:+ "    <h3 class=" +:+ dquote +:+ "vt__list-item-title" +:+ dquote +:+ ">"
       +:+ TabConfig.title tab +:+ "</h3>"
       +:+ newline +:+ "    <p class=" +:+ dquote +:+ "vt__list-item-text" +:+ dquote +:+ ">"
       +:+ TabConfig.text tab +:+ "</p>" +:+ newline +:+ "  ")) ;;;
  ret tabEl.

Definition createImage (src : string) (parent : ref) : DomM ref :=
  let* img := createElement "img" "vt__image" [("src", src); ("style", "display: none")] in
  appendChild parent img ;;;
  ret img.

Definition createButton (button : TabButtonConfig.t) : DomM ref :=
  createElement "a" "vt__tab__button"
    [("href", TabButtonConfig.url button);
     ("textContent", TabButtonConfig.text button);
     ("style", "display: none")].

(** The link built when the tab has no usable button. *)
Definition createPlaceholder : DomM ref :=
  createElement "a" "vt__tab__button"
    [("href", "#");
     ("textContent", "Placeholder");
     ("style", "visibility: hidden; display: inline-block;")].

(** The debug panel of a tab, its markup recorded as assigned, like that of
    the header. *)
Definition createDebugOverlay (index : nat) (image : string)
    (button : option TabButtonConfig.t) : DomM ref :=
  let* debugEl := createElement "div" "vt__debug" [] in
  update debugEl (set_style <["display" := "none"]>) ;;;
  update debugEl (set_innerHTML
    ("<strong>Debug Info:</strong><br>Index: " +:+ toString index
       +:+ "<br>Image: " +:+ image
       +:+ "<br>Button: "
       +:+ match button with
          | Some b => TabButtonConfig.text b
          | None => "None"
          end)) ;;;
  ret debugEl.

Record TabElements := mkTabElements {
  wrapper : ref;
  tabUL : ref;
  contentEl : ref;
  tabItems : list ref;
  imageItems : list ref;
  debugItems : list ref;
  buttonItems : list ref
}.

(** The accumulator of the [reduce] in [createTabElements]. *)
Record Acc := mkAcc {
  acc_tabItems : list ref;
  acc_imageItems : list ref;
  acc_buttonItems : list ref;
  acc_debugItems : list ref
}.

(** [tab.button?.text && tab.button?.url ? createButton(tab.button) : placeholder] *)
Definition createTabButton (tab : TabConfig.t) : DomM ref :=
  match TabConfig.button tab with
  | Some b =>
      if (truthy (TabButtonConfig.text b) && truthy (TabButtonConfig.url b))%bool
      then createButton b
      else createPlaceholder
  | None => createPlaceholder
  end.

(** The callback of the [reduce]. *)
Definition tab_step (settings : Settings.t) (tabUL contentEl : ref)
    (acc : Acc) (tab : TabConfig.t) (index : nat) : DomM Acc :=
  let* tabEl := createTabItem tab index in
  let* img := createImage (TabConfig.image tab) contentEl in
  let* button := createTabButton tab in
  appendChild contentEl button ;;;
  let* debugs :=
    (if Settings.debug settings
     then
       update contentEl (set_style <["position" := "relative"]>) ;;;
       let* debugEl := createDebugOverlay index (TabConfig.image tab) (TabConfig.button tab) in
       appendChild contentEl debugEl ;;;
       ret (acc_debugItems acc ++ [debugEl])
     else ret (acc_debugItems acc)) in
  appendChild tabUL tabEl ;;;
  ret (mkAcc (acc_tabItems acc ++ [tabEl])
             (acc_imageItems acc ++ [img])
             (acc_buttonItems acc ++ [button])
             debugs).

Definition createTabElements (settings : Settings.t) : DomM TabElements :=
  let* wrapper := createElement "div" "vt__wrapper"
                    [("data-position", Settings.position settings)] in
  let* tabsEl := createElement "div" "vt__tabs" [] in
  let* tabUL := createElement "ul" "vt__list" [] in
  let* contentEl := createElement "div" "vt__content" [] in
  appendChild tabsEl tabUL ;;;
  let* acc := reduce (tab_step settings tabUL contentEl) (Settings.tabs settings)
                (mkAcc [] [] [] []) in
  (if String.eqb (Settings.position settings) "left"
   then appendChild wrapper tabsEl ;;; appendChild wrapper contentEl
   else appendChild wrapper contentEl ;;; appendChild wrapper tabsEl) ;;;
  ret (mkTabElements wrapper tabUL contentEl
         (acc_tabItems acc) (acc_imageItems acc) (acc_debugItems acc) (acc_buttonItems acc)).

(** ** Selection *)

(** Every entry of the four arrays is an element, so the [if (el)] guards of
    the button and debug loops always pass. *)
Definition selectTab (index : JSNumber) (els : TabElements) : DomM unit :=
  forEach (λ el i, update el (set_classList (classList_toggle "active" (strict_eq i index))))
    (tabItems els) ;;;
  forEach (λ el i, update el
                     (set_style <["display" := if strict_eq i index then "block" else "none"]>))
    (imageItems els) ;;;
  forEach (λ el i, update el
                     (set_style <["display" := if strict_eq i index then "inline-block" else "none"]>))
    (buttonItems els) ;;;
  forEach (λ el i, update el
                     (set_style <["display" := if strict_eq i index then "block" else "none"]>))
    (debugItems els).

(** ** Walking the tree *)

Definition has_class (cls : string) (r : ref) (d : Dom) : bool :=
  match d !! r with
  | Some el => classList_contains cls el
  | None => false
  end.

(** The element and its ancestors, nearest first: the path a bubbling event
    follows. The store has [length d] elements, which bounds the walk. *)
Fixpoint path_from (fuel : nat) (r : ref) (d : Dom) : list ref :=
  match fuel with
  | 0 => []
  | S fuel' =>
      match d !! r with
      | None => []
      | Some el =>
          r :: match parentNode el with
               | Some p => path_from fuel' p d
               | None => []
               end
      end
  end.

Definition path (r : ref) (d : Dom) : list ref := path_from (List.length d) r d.

(** [target.closest("." + cls)]: the nearest ancestor-or-self with the class. *)
Definition closest (cls : string) (target : ref) (d : Dom) : option ref :=
  List.find (λ r, has_class cls r d) (path target d).

(** [tabEl.dataset.index]: the [data-index] attribute, if the element has one. *)
Definition stored_index (tabEl : ref) (d : Dom) : option string :=
  el ← d !! tabEl; attrs el !! "data-index".

(** [container.querySelectorAll("." + cls)]: the descendants with the class,
    in document order. *)
Fixpoint descendants (fuel : nat) (r : ref) (d : Dom) : list ref :=
  match fuel with
  | 0 => []
  | S fuel' =>
      match d !! r with
      | None => []
      | Some el => flat_map (λ c, c :: descendants fuel' c d) (childNodes el)
      end
  end.

Definition querySelectorAll (cls : string) (r : ref) (d : Dom) : list ref :=
  List.filter (λ c, has_class cls c d) (descendants (List.length d) r d).

(** [Array.prototype.findIndex]: the first position that satisfies [p], or -1. *)
Fixpoint findIndex_from {A} (p : A → bool) (l : list A) (i : Z) : Z :=
  match l with
  | [] => (-1)%Z
  | x :: l' => if p x then i else findIndex_from p l' (i + 1)%Z
  end.

Definition findIndex {A} (p : A → bool) (l : list A) : Z := findIndex_from p l 0%Z.

(** ** The window: listeners, closures, timers, console *)

Inductive EventType := click | mouseenter | mouseleave.

Global Instance EventType_eq_dec : EqDecision EventType.
Proof. solve_decision. Defined.

(** The closures the widget registers. [TabListClick els] is the listener of
    [attachEventListeners], which captures [elements]; [HoverEnter s] and
    [HoverLeave s] are the two listeners of the activation [s] of
    [autoCycleTabs], which share its variables. *)
Inductive Handler :=
| TabListClick (els : TabElements)
| HoverEnter (scope : nat)
| HoverLeave (scope : nat).

(** The event type each closure is registered for. *)
Definition event_of (h : Handler) : EventType :=
  match h with
  | TabListClick _ => click
  | HoverEnter _ => mouseenter
  | HoverLeave _ => mouseleave
  end.

(** The variables of one activation of [autoCycleTabs]: the constants [tabs]
    and [interval], and the mutable [intervalId]. Timer ids are positive, so
    [!intervalId] holds exactly when it is [undefined]. *)
Record Scope := mkScope {
  scope_tabs : list ref;
  scope_interval : Z;
  intervalId : option positive
}.

(** A repeating timer: the closure [() => cycleTabs(tabs)] of activation
    [task_scope], every [task_interval] milliseconds. *)
Record TimerTask := mkTimerTask {
  task_scope : nat;
  task_interval : Z
}.

(** The console methods the widget calls. *)
Inductive LogLevel := Warn | Error.

Record World := mkWorld {
  nodes : Dom;
  listeners : list (ref * Handler);
  scopes : list Scope;
  timers : gmap positive TimerTask;
  next_timer : positive;
  console : list (LogLevel * string);
  (* what [document.querySelector] answers for the selectors of the host page *)
  querySelector : string → option ref
}.

Definition set_nodes (d : Dom) (w : World) : World :=
  mkWorld d (listeners w) (scopes w) (timers w) (next_timer w) (console w) (querySelector w).

Definition set_scopes (f : list Scope → list Scope) (w : World) : World :=
  mkWorld (nodes w) (listeners w) (f (scopes w)) (timers w) (next_timer w) (console w)
          (querySelector w).

Definition run_dom {A} (m : DomM A) (w : World) : A * World :=
  let '(a, d) := m (nodes w) in (a, set_nodes d w).

Definition exec_dom {A} (m : DomM A) (w : World) : World := snd (run_dom m w).

(** [console.warn(message)] *)
Definition warn (message : string) (w : World) : World :=
  mkWorld (nodes w) (listeners w) (scopes w) (timers w) (next_timer w)
          (console w ++ [(Warn, message)]) (querySelector w).

(** [target.addEventListener(event_of h, h)] *)
Definition addEventListener (target : ref) (h : Handler) (w : World) : World :=
  mkWorld (nodes w) (listeners w ++ [(target, h)]) (scopes w) (timers w) (next_timer w)
          (console w) (querySelector w).

(** [window.setInterval(callback, interval)]: a new id, never handed out before. *)
Definition setInterval (task : TimerTask) (w : World) : positive * World :=
  (next_timer w,
   mkWorld (nodes w) (listeners w) (scopes w) (<[next_timer w := task]> (timers w))
           (Pos.succ (next_timer w)) (console w) (querySelector w)).

(** [window.clearInterval(id)]; nothing happens for [undefined] or for an id
    that is not running. *)
Definition clearInterval (id : option positive) (w : World) : World :=
  match id with
  | Some i =>
      mkWorld (nodes w) (listeners w) (scopes w) (delete i (timers w)) (next_timer w)
              (console w) (querySelector w)
  | None => w
  end.

Definition set_intervalId (s : nat) (id : option positive) (w : World) : World :=
  set_scopes (alter (λ sc, mkScope (scope_tabs sc) (scope_interval sc) id) s) w.

Definition get_intervalId (s : nat) (w : World) : option positive :=
  sc ← scopes w !! s; intervalId sc.

(** The listeners called for an event of type [ty] that visits [nodes_visited],
    in the order of the visit and, on one node, of registration. *)
Definition handlers_for (ty : EventType) (nodes_visited : list ref)
    (ls : list (ref * Handler)) : list Handler :=
  flat_map (λ r, omap (λ tl : ref * Handler,
                         if bool_decide (tl.1 = r ∧ event_of tl.2 = ty)
                         then Some tl.2 else None) ls)
           nodes_visited.

Section Widget.

(** [Number(indexStr)], the host's conversion of a string to a number. *)
Variable Number : string → JSNumber.

(** The body of a registered closure, for an event whose target is [target]. *)
Definition run_handler (h : Handler) (target : ref) (w : World) : World :=
  match h with
  | TabListClick els =>
      match closest "vt__list-item" target (nodes w) with
      | None => w
      | Some tabEl =>
          match stored_index tabEl (nodes w) with
          | None => w
          | Some indexStr =>
              if negb (truthy indexStr) then w
              else
                let index := Number indexStr in
                if isNaN index then w
                else exec_dom (selectTab index els) w
          end
      end
  | HoverEnter s =>
      set_intervalId s None (clearInterval (get_intervalId s w) w)
  | HoverLeave s =>
      match scopes w !! s with
      | Some sc =>
          match intervalId sc with
          | None =>
              let '(id, w') := setInterval (mkTimerTask s (scope_interval sc)) w in
              set_intervalId s (Some id) w'
          | Some _ => w
          end
      | None => w
      end
  end.

(** The listeners [hs] called in turn. *)
Definition run_all (hs : list Handler) (target : ref) (w : World) : World :=
  fold_left (λ w' h, run_handler h target w') hs w.

(** An event of type [ty] at [target]: the listeners on its path when it
    bubbles, those on the target alone when it does not. *)
Definition dispatch (ty : EventType) (bubbles : bool) (target : ref) (w : World) : World :=
  let visited := if bubbles then path target (nodes w) else [target] in
  run_all (handlers_for ty visited (listeners w)) target w.

(** [el.click()] *)
Definition click_on (el : ref) (w : World) : World := dispatch click true el w.

(** [cycleTabs(tabs)]; [None] is the [TypeError] of [tabs[NaN].click()] on an
    empty array, where [(activeIndex + 1) % 0] is [NaN]. *)
Definition cycleTabs (tabs : list ref) (w : World) : option World :=
  let activeIndex := findIndex (λ tab, has_class "active" tab (nodes w)) tabs in
  match List.length tabs with
  | 0 => None
  | S _ =>
      let nextIndex := Z.rem (activeIndex + 1) (Z.of_nat (List.length tabs)) in
      match tabs !! Z.to_nat nextIndex with
      | Some tab => Some (click_on tab w)
      | None => None
      end
  end.

Definition attachEventListeners (els : TabElements) (w : World) : World :=
  addEventListener (tabUL els) (TabListClick els) w.

Definition createVerticalTabs (config : VerticalTabsConfig.t) (w : World) : World :=
  let settings := settings_of config in
  match querySelector w (Settings.container settings) with
  | None => warn ("Container " +:+ Settings.container settings +:+ " not found") w
  | Some container =>
      let '(els, w1) := run_dom (createTabElements settings) w in
      let w2 := exec_dom (appendChild container (wrapper els)) w1 in
      let w3 := attachEventListeners els w2 in
      exec_dom (selectTab (Int 0) els) w3
  end.

(** [autoCycleTabs(containerSelector, interval = 5000)]. The result is the
    activation whose variables the returned cleanup function closes over, or
    [None] where the source returns nothing. *)
Definition autoCycleTabs (containerSelector : string) (interval : option Z)
    (w : World) : option nat * World :=
  let interval := default 5000%Z interval in
  match querySelector w containerSelector with
  | None => (None, warn ("Container " +:+ containerSelector +:+ " not found") w)
  | Some container =>
      let tabs := querySelectorAll "vt__list-item" container (nodes w) in
      match tabs with
      | [] => (None, warn ("No tabs found in " +:+ containerSelector) w)
      | _ :: _ =>
          let s := List.length (scopes w) in
          let '(id, w1) := setInterval (mkTimerTask s interval) w in
          let w2 := set_scopes (λ scs, scs ++ [mkScope tabs interval (Some id)]) w1 in
          let w3 := addEventListener container (HoverEnter s) w2 in
          let w4 := addEventListener container (HoverLeave s) w3 in
          (Some s, w4)
      end
  end.

(** The cleanup function returned by activation [s]. *)
Definition cleanup (s : nat) (w : World) : World :=
  match get_intervalId s w with
  | Some id => clearInterval (Some id) w
  | None => w
  end.

(** A repeating timer comes due: its callback runs if it is still running. An
    exception in the callback leaves the state as it was. *)
Definition timer_fires (id : positive) (w : World) : World :=
  match timers w !! id with
  | Some task =>
      match scopes w !! task_scope task with
      | Some sc => default w (cycleTabs (scope_tabs sc) w)
      | None => w
      end
  | None => w
  end.

(** What can happen to a page that uses the widget. *)
Inductive Action :=
| CallCreateVerticalTabs (config : VerticalTabsConfig.t)
| CallAutoCycleTabs (containerSelector : string) (interval : option Z)
| CallCleanup (s : nat)
| Click (target : ref)
| PointerEnter (target : ref)
| PointerLeave (target : ref)
| TimerFires (id : positive).

Definition step (a : Action) (w : World) : World :=
  match a with
  | CallCreateVerticalTabs config => createVerticalTabs config w
  | CallAutoCycleTabs sel interval => (autoCycleTabs sel interval w).2
  | CallCleanup s => cleanup s w
  | Click target => click_on target w
  | PointerEnter target => dispatch mouseenter false target w
  | PointerLeave target => dispatch mouseleave false target w
  | TimerFires id => timer_fires id w
  end.

Definition run (actions : list Action) (w : World) : World :=
  fold_left (λ w' a, step a w') actions w.

End Widget.

(** ** The 1.0.0 script

    The sources also hold the first version of the widget as a plain script.
    Its builder, its selection, its click listener and its hover listeners
    differ from the ones above; they are kept here, on the same document and
    window, to state the difference. *)
Module Legacy.

(** What [createTabElements] of 1.0.0 returns: no debug panels, and [null] in
    [buttonItems] for a tab without a usable button. *)
Record TabElements := mkTabElements {
  wrapper : ref;
  tabUL : ref;
  contentEl : ref;
  tabItems : list ref;
  imageItems : list ref;
  buttonItems : list (option ref)
}.

Definition selectTab (index : JSNumber) (els : TabElements) : DomM unit :=
  forEach (λ el i, update el (set_classList (classList_toggle "active" (strict_eq i index))))
    (tabItems els) ;;;
  forEach (λ el i, update el
                     (set_style <["display" := if strict_eq i index then "block" else "none"]>))
    (imageItems els) ;;;
  forEach (λ el i,
             match el with
             | Some b =>
                 update b (set_style <["display" := if strict_eq i index
                                                    then "inline-block" else "none"]>)
             | None => ret tt
             end)
    (buttonItems els).

(** [console.error(message, ...)] *)
Definition error (message : string) (w : World) : World :=
  mkWorld (nodes w) (listeners w) (scopes w) (timers w) (next_timer w)
          (console w ++ [(Error, message)]) (querySelector w).

Section Listeners.

Variable Number : string → JSNumber.

(** The click listener of 1.0.0; [Number(undefined)] is [NaN]. *)
Definition click_listener (els : TabElements) (target : ref) (w : World) : World :=
  match closest "vt__list-item" target (nodes w) with
  | None => warn "Clicked outside a tab" w
  | Some tabEl =>
      let index := match stored_index tabEl (nodes w) with
                   | Some indexStr => Number indexStr
                   | None => NaN
                   end in
      if isNaN index then error "Invalid tab index:" w
      else exec_dom (selectTab index els) w
  end.

End Listeners.

(** The hover listeners of 1.0.0: entering clears the timer on record and
    keeps the record; leaving starts a timer without looking at the record. *)
Definition hover_enter (s : nat) (w : World) : World :=
  clearInterval (get_intervalId s w) w.

Definition hover_leave (s : nat) (w : World) : World :=
  match scopes w !! s with
  | Some sc =>
      let '(id, w') := setInterval (mkTimerTask s (scope_interval sc)) w in
      set_intervalId s (Some id) w'
  | None => w
  end.

(** The builder of 1.0.0, on the same document. *)

(** [el[key] = value]; a string assigned to [style] is forwarded to
    [style.cssText]. *)
Definition assign (el : Element) (key value : string) : Element :=
  if String.eqb key "style" then set_style (λ _, cssText value) el
  else set_props <[key := value]> el.

Definition apply_attribute (el : Element) (kv : string * string) : Element :=
  let '(key, value) := kv in
  if String.prefix "data-" key then set_attrs <[key := value]> el
  else assign el key value.

Definition createElement (tag className : string) (attributes : list (string * string)) : DomM ref :=
  alloc (fold_left apply_attribute attributes
           (set_classList (λ _, class_tokens className) (blank tag))).

Definition createTabItem (tab : TabConfig.t) (index : nat) : DomM ref :=
  let* tabEl := createElement "li" "vt__list-item" [] in
  update tabEl (set_attrs <["data-index" := toString index]>) ;;;
  update tabEl (set_innerHTML
    (newline +:+ "        <h3 class=" +:+ dquote +:+ "vt__list-item-title" +:+ dquote +:+ ">"
       +:+ TabConfig.title tab +:+ "</h3>"
       +:+ newline +:+ "        <p class=" +:+ dquote +:+ "vt__list-item-text" +:+ dquote +:+ ">"
       +:+ TabConfig.text tab +:+ "</p>" +:+ newline +:+ "        ")) ;;;
  ret tabEl.

(** [new Image()], then [src], [className] and [style.display]. *)
Definition createImage (src : string) (parent : ref) : DomM ref :=
  let* img := alloc (blank "img") in
  update img (set_props <["src" := src]>) ;;;
  update img (set_classList (λ _, class_tokens "vt__image")) ;;;
  update img (set_style <["display" := "none"]>) ;;;
  appendChild parent img ;;;
  ret img.

Definition createButton (button : TabButtonConfig.t) : DomM ref :=
  createElement "a" "vt__tab__button"
    [("href", TabButtonConfig.url button);
     ("textContent", TabButtonConfig.text button);
     ("style", "display: none")].

Record Acc := mkAcc {
  acc_tabItems : list ref;
  acc_imageItems : list ref;
  acc_buttonItems : list (option ref)
}.

(** [let button = null; if (tab.button && tab.button.text && tab.button.url)
    { button = createButton(tab.button); contentEl.appendChild(button); }] *)
Definition createTabButton (tab : TabConfig.t) (contentEl : ref) : DomM (option ref) :=
  match TabConfig.button tab with
  | Some b =>
      if (truthy (TabButtonConfig.text b) && truthy (TabButtonConfig.url b))%bool
      then
        let* button := createButton b in
        appendChild contentEl button ;;;
        ret (Some button)
      else ret None
  | None => ret None
  end.

(** The callback of the [reduce]. *)
Definition tab_step (tabUL contentEl : ref) (acc : Acc) (tab : TabConfig.t) (index : nat) :
    DomM Acc :=
  let* tabEl := createTabItem tab index in
  let* img := createImage (TabConfig.image tab) contentEl in
  let* button := createTabButton tab contentEl in
  appendChild tabUL tabEl ;;;
  ret (mkAcc (acc_tabItems acc ++ [tabEl])
             (acc_imageItems acc ++ [img])
             (acc_buttonItems acc ++ [button])).

(** The configuration of 1.0.0, every field of which may be left out, and
    the settings after the defaults [{ container: "#vertical-tabs",
    position: "left", tabs: [], ...config }]. *)
Record Config := mkConfig {
  config_container : option string;
  config_position : option string;
  config_tabs : option (list TabConfig.t)
}.

Record Settings := mkSettings {
  container : string;
  position : string;
  tabs : list TabConfig.t
}.

Definition settings_of (config : Config) : Settings :=
  mkSettings (default "#vertical-tabs" (config_container config))
             (default "left" (config_position config))
             (default [] (config_tabs config)).

Definition createTabElements (settings : Settings) : DomM TabElements :=
  let* wrapper := createElement "div" "vt__wrapper"
                    [("data-position", position settings)] in
  let* tabsEl := createElement "div" "vt__tabs" [] in
  let* tabUL := createElement "ul" "vt__list" [] in
  let* contentEl := createElement "div" "vt__content" [] in
  appendChild tabsEl tabUL ;;;
  let* acc := reduce (tab_step tabUL contentEl) (tabs settings) (mkAcc [] [] []) in
  (if String.eqb (position settings) "left"
   then appendChild wrapper tabsEl ;;; appendChild wrapper contentEl
   else appendChild wrapper contentEl ;;; appendChild wrapper tabsEl) ;;;
  ret (mkTabElements wrapper tabUL contentEl
         (acc_tabItems acc) (acc_imageItems acc) (acc_buttonItems acc)).

End Legacy.

(** A conversion that reads plain decimal digits and answers [NaN] for every
    other string. It agrees with the host's [Number] on the strings
    [createTabItem] stores, which is all the development assumes of [Number];
    it serves to exhibit that assumption. *)
Definition decimal_Number (s : string) : JSNumber :=
  match NilZero.uint_of_string s with
  | Some d => Int (Z.of_nat (Nat.of_uint d))
  | None => NaN
  end.

(** ** The elements the builder leaves in the store *)

Definition new_element (tag className : string) (attributes : list (string * string)) : Element :=
  fold_left apply_attribute attributes
    (set_classList (λ _, class_tokens className) (blank tag)).

Definition add_child (c : ref) : Element → Element :=
  set_childNodes (λ cs, cs ++ [c]).

(** The markup [createTabItem] assigns to [innerHTML]. *)
Definition header_html (tab : TabConfig.t) : string :=
  newline +:+ "    <h3 class=" +:+ dquote +:+ "vt__list-item-title" +:+ dquote +:+ ">"
    +:+ TabConfig.title tab +:+ "</h3>"
    +:+ newline +:+ "    <p class=" +:+ dquote +:+ "vt__list-item-text" +:+ dquote +:+ ">"
    +:+ TabConfig.text tab +:+ "</p>" +:+ newline +:+ "  ".

Definition header_el (tab : TabConfig.t) (index : nat) (ul : ref) : Element :=
  set_parentNode (Some ul)
    (set_innerHTML (header_html tab)
       (set_attrs <["data-index" := toString index]> (new_element "li" "vt__list-item" []))).

Definition image_el (tab : TabConfig.t) (content : ref) : Element :=
  set_parentNode (Some content)
    (new_element "img" "vt__image" [("src", TabConfig.image tab); ("style", "display: none")]).

Definition real_button_el (b : TabButtonConfig.t) : Element :=
  new_element "a" "vt__tab__button"
    [("href", TabButtonConfig.url b);
     ("textContent", TabButtonConfig.text b);
     ("style", "display: none")].

Definition placeholder_el : Element :=
  new_element "a" "vt__tab__button"
    [("href", "#");
     ("textContent", "Placeholder");
     ("style", "visibility: hidden; display: inline-block;")].

(** The button configuration the builder uses, if the tab has a usable one. *)
Definition usable_button (tab : TabConfig.t) : option TabButtonConfig.t :=
  match TabConfig.button tab with
  | Some b =>
      if (truthy (TabButtonConfig.text b) && truthy (TabButtonConfig.url b))%bool
      then Some b else None
  | None => None
  end.

Definition button_el (tab : TabConfig.t) (content : ref) : Element :=
  set_parentNode (Some content)
    match usable_button tab with
    | Some b => real_button_el b
    | None => placeholder_el
    end.

Definition debug_text (index : nat) (image : string) (button : option TabButtonConfig.t) : string :=
  "<strong>Debug Info:</strong><br>Index: " +:+ toString index
    +:+ "<br>Image: " +:+ image
    +:+ "<br>Button: "
    +:+ match button with
        | Some b => TabButtonConfig.text b
        | None => "None"
        end.

Definition debug_el (tab : TabConfig.t) (index : nat) (content : ref) : Element :=
  set_parentNode (Some content)
    (set_innerHTML (debug_text index (TabConfig.image tab) (TabConfig.button tab))
       (set_style <["display" := "none"]> (new_element "div" "vt__debug" []))).

(** One round of the [reduce], on a store of [L] elements: what it does to
    the content block, what it pushes, and the elements it adds. *)
Definition content_update (dbg : bool) (L : nat) (el : Element) : Element :=
  if dbg
  then add_child (L + 3)
         (set_style <["position" := "relative"]> (add_child (L + 2) (add_child (L + 1) el)))
  else add_child (L + 2) (add_child (L + 1) el).

Definition step_acc (dbg : bool) (L : nat) (acc : Acc) : Acc :=
  mkAcc (acc_tabItems acc ++ [L]) (acc_imageItems acc ++ [L + 1])
        (acc_buttonItems acc ++ [L + 2])
        (if dbg then acc_debugItems acc ++ [L + 3] else acc_debugItems acc).

Definition step_new (dbg : bool) (tab : TabConfig.t) (i : nat) (ul ct : ref) : list Element :=
  [header_el tab i ul; image_el tab ct; button_el tab ct]
    ++ (if dbg then [debug_el tab i ct] else []).

(** All the per-tab elements of a widget. *)
Definition items (els : TabElements) : list ref :=
  tabItems els ++ imageItems els ++ buttonItems els ++ debugItems els.

Definition acc_items (acc : Acc) : list ref :=
  acc_tabItems acc ++ acc_imageItems acc ++ acc_buttonItems acc ++ acc_debugItems acc.

(** What the widget shows: the [display] declaration of an element and the
    [active] class of a header. *)
Definition display (r : ref) (d : Dom) : option string :=
  el ← d !! r; style el !! "display".

Definition visibility (r : ref) (d : Dom) : option string :=
  el ← d !! r; style el !! "visibility".

Definition is_active (r : ref) (d : Dom) : bool := has_class "active" r d.

(** The state of the store after a series of selections. *)
Definition select_all (indices : list JSNumber) (els : TabElements) (d : Dom) : Dom :=
  fold_left (λ d' index, (selectTab index els d').2) indices d.


(** ** Invariants of the builder *)

(** Position [i] of [refs] holds the element [expected tab i] for the [i]-th
    tab. *)
Definition slots (tabs : list TabConfig.t) (refs : list ref)
    (expected : TabConfig.t → nat → Element) (d : Dom) : Prop :=
  ∀ i tab r, tabs !! i = Some tab → refs !! i = Some r → d !! r = Some (expected tab i).

(** The state of the [reduce] of [createTabElements] after the tabs [seen],
    started on the store [d0] whose elements below [base] include the list
    [ul] and the content block [ct]. *)
Record loop_inv (s : Settings.t) (ul ct base : nat) (d0 : Dom)
    (seen : list TabConfig.t) (acc : Acc) (d : Dom) : Prop := mkLoopInv {
  li_base : base ≤ List.length d;
  li_len_tab : List.length (acc_tabItems acc) = List.length seen;
  li_len_img : List.length (acc_imageItems acc) = List.length seen;
  li_len_btn : List.length (acc_buttonItems acc) = List.length seen;
  li_len_dbg : List.length (acc_debugItems acc)
               = if Settings.debug s then List.length seen else 0;
  li_range : Forall (λ r, base ≤ r < List.length d) (acc_items acc);
  li_nodup : NoDup (acc_items acc);
  li_frame : ∀ r, r < base → r ≠ ul → r ≠ ct → d !! r = d0 !! r;
  li_header : slots seen (acc_tabItems acc) (λ tab i, header_el tab i ul) d;
  li_image : slots seen (acc_imageItems acc) (λ tab _, image_el tab ct) d;
  li_button : slots seen (acc_buttonItems acc) (λ tab _, button_el tab ct) d;
  li_debug : slots seen (acc_debugItems acc) (λ tab i, debug_el tab i ct) d;
  li_ul : d !! ul = set_childNodes (λ cs, cs ++ acc_tabItems acc) <$> d0 !! ul;
  li_ct : ∃ el0 el, d0 !! ct = Some el0 ∧ d !! ct = Some el
            ∧ classList el = classList el0 ∧ parentNode el = parentNode el0
            ∧ ∃ cs, childNodes el = childNodes el0 ++ cs
                    ∧ Forall (λ c, c ∈ acc_imageItems acc ++ acc_buttonItems acc
                                     ++ acc_debugItems acc) cs
}.

(** The four fixed elements of a widget built on a store of [L0] elements. *)
Definition wrapper_el (s : Settings.t) (L0 : nat) : Element :=
  set_childNodes
    (λ _, if String.eqb (Settings.position s) "left"
          then [L0 + 1; L0 + 3] else [L0 + 3; L0 + 1])
    (new_element "div" "vt__wrapper" [("data-position", Settings.position s)]).

Definition tabs_el (L0 : nat) : Element :=
  set_parentNode (Some L0) (add_child (L0 + 2) (new_element "div" "vt__tabs" [])).

Definition list_el (L0 : nat) (headers : list ref) : Element :=
  set_childNodes (λ _, headers)
    (set_parentNode (Some (L0 + 1)) (new_element "ul" "vt__list" [])).

(** What [createTabElements settings] leaves: the handles [els] and the
    store [d1], from the store [d0]. *)
Record built (s : Settings.t) (d0 : Dom) (els : TabElements) (d1 : Dom) : Prop := mkBuilt {
  b_wrapper : wrapper els = List.length d0;
  b_tabUL : tabUL els = List.length d0 + 2;
  b_contentEl : contentEl els = List.length d0 + 3;
  b_base : List.length d0 + 4 ≤ List.length d1;
  b_len_tab : List.length (tabItems els) = List.length (Settings.tabs s);
  b_len_img : List.length (imageItems els) = List.length (Settings.tabs s);
  b_len_btn : List.length (buttonItems els) = List.length (Settings.tabs s);
  b_len_dbg : List.length (debugItems els)
              = if Settings.debug s then List.length (Settings.tabs s) else 0;
  b_range : Forall (λ r, List.length d0 + 4 ≤ r < List.length d1) (items els);
  b_nodup : NoDup (items els);
  b_frame : ∀ r, r < List.length d0 → d1 !! r = d0 !! r;
  b_header : slots (Settings.tabs s) (tabItems els)
               (λ tab i, header_el tab i (List.length d0 + 2)) d1;
  b_image : slots (Settings.tabs s) (imageItems els)
              (λ tab _, image_el tab (List.length d0 + 3)) d1;
  b_button : slots (Settings.tabs s) (buttonItems els)
               (λ tab _, button_el tab (List.length d0 + 3)) d1;
  b_debug : slots (Settings.tabs s) (debugItems els)
              (λ tab i, debug_el tab i (List.length d0 + 3)) d1;
  b_wrapper_el : d1 !! List.length d0 = Some (wrapper_el s (List.length d0));
  b_tabs_el : d1 !! (List.length d0 + 1) = Some (tabs_el (List.length d0));
  b_list_el : d1 !! (List.length d0 + 2) = Some (list_el (List.length d0) (tabItems els));
  b_content_el : ∃ el, d1 !! (List.length d0 + 3) = Some el
                   ∧ classList el = ["vt__content"]
                   ∧ parentNode el = Some (List.length d0)
                   ∧ Forall (λ c, c ∈ imageItems els ++ buttonItems els ++ debugItems els)
                            (childNodes el)
}.

(** ** Selection, as a change of the store *)

(** [l.forEach((el, i) => update(el, F(i)))] *)
Definition each_update (F : nat → Element → Element) (l : list ref) (d : Dom) : Dom :=
  (forEach (λ el i, update el (F i)) l d).2.

(** What a selection may change in one element: the [active] class and the
    [display] declaration, nothing else. *)
Record same_but_selection (el el' : Element) : Prop := mkSame {
  sb_tagName : tagName el' = tagName el;
  sb_attrs : attrs el' = attrs el;
  sb_props : props el' = props el;
  sb_innerHTML : innerHTML el' = innerHTML el;
  sb_parentNode : parentNode el' = parentNode el;
  sb_childNodes : childNodes el' = childNodes el;
  sb_classes : ∀ c, c ≠ "active" → c ∈ classList el' ↔ c ∈ classList el;
  sb_style : ∀ k, k ≠ "display" → style el' !! k = style el !! k
}.

(** The same, for the whole store. *)
Definition selection_only (d d' : Dom) : Prop :=
  List.length d' = List.length d
  ∧ ∀ r el, d !! r = Some el → ∃ el', d' !! r = Some el' ∧ same_but_selection el el'.

(** ** The states the specification speaks of *)

(** Position [z] is the selected one: the header at [z] alone carries
    [active], and the image, button and debug panel at [z] alone are in their
    shown form, every other one having [display: none]. *)
Definition shown_at (z : Z) (els : TabElements) (d : Dom) : Prop :=
  (∀ i r, tabItems els !! i = Some r → is_active r d = bool_decide (Z.of_nat i = z))
  ∧ (∀ i r, imageItems els !! i = Some r →
            display r d = Some (if bool_decide (Z.of_nat i = z) then "block" else "none"))
  ∧ (∀ i r, buttonItems els !! i = Some r →
            display r d = Some (if bool_decide (Z.of_nat i = z) then "inline-block" else "none"))
  ∧ (∀ i r, debugItems els !! i = Some r →
            display r d = Some (if bool_decide (Z.of_nat i = z) then "block" else "none")).

(** No header is active and nothing is displayed. *)
Definition all_hidden (els : TabElements) (d : Dom) : Prop :=
  Forall (λ r, is_active r d = false) (tabItems els)
  ∧ Forall (λ r, display r d = Some "none")
           (imageItems els ++ buttonItems els ++ debugItems els).

(** The label the specification gives the debug panel: the button's label
    when the tab has a usable button, the sentinel otherwise. *)
Definition spec_debug_label (tab : TabConfig.t) : string :=
  match usable_button tab with
  | Some b => TabButtonConfig.text b
  | None => "None"
  end.

(** The world [createVerticalTabs] selects the first tab in: the widget is
    built, appended to the container and listening. *)
Definition mounted (config : VerticalTabsConfig.t) (container : ref) (w : World) : World :=
  let '(els, w1) := run_dom (createTabElements (settings_of config)) w in
  attachEventListeners els (exec_dom (appendChild container (wrapper els)) w1).

(** ** Timers of an activation of [autoCycleTabs] *)

(** The running timers whose callback belongs to activation [s]. *)
Definition timers_of (s : nat) (w : World) : gmap positive TimerTask :=
  filter (λ kv : positive * TimerTask, task_scope kv.2 = s) (timers w).

(** The window hands out fresh ids, and every running timer of the widget is
    the one its activation has on record, at the activation's interval. *)
Definition timers_ok (w : World) : Prop :=
  ∀ id t, timers w !! id = Some t →
    (id < next_timer w)%positive
    ∧ ∃ sc, scopes w !! task_scope t = Some sc
            ∧ intervalId sc = Some id
            ∧ task_interval t = scope_interval sc.

(** A page on which the widget has not run yet: its elements, no listener, no
    activation, no timer. *)
Definition fresh_page (d : Dom) (resolve : string → option ref) : World :=
  mkWorld d [] [] ∅ 1%positive [] resolve.

(** Activation [s] has the constants [tabs] and [interval] and has [id] on
    record. *)
Definition scope_is (s : nat) (tabs : list ref) (interval : Z) (id : option positive)
    (w : World) : Prop :=
  scopes w !! s = Some (mkScope tabs interval id).

(** Activation [s] has a running timer on record, started at or after [lb]. *)
Definition restarted (s : nat) (tabs : list ref) (interval : Z) (lb : positive)
    (w : World) : Prop :=
  ∃ id, scope_is s tabs interval (Some id) w
        ∧ timers w !! id = Some (mkTimerTask s interval)
        ∧ (lb ≤ id < next_timer w)%positive.

(** ** Clicks and ticks *)

(** [tabEl] is the nearest ancestor-or-self of [target] that is a header. *)
Definition nearest_header (target tabEl : ref) (d : Dom) : Prop :=
  ∃ before after,
    path target d = before ++ tabEl :: after
    ∧ has_class "vt__list-item" tabEl d = true
    ∧ Forall (λ r, has_class "vt__list-item" r d = false) before.


(** The widget [els] is wired: its headers are list items under its list
    container, each storing its position; the list container carries the
    click listener of [els]; and every other click listener of the page serves
    other headers. *)
Record wired (els : TabElements) (w : World) : Prop := mkWired {
  wd_nodup : NoDup (items els);
  wd_header : ∀ i r, tabItems els !! i = Some r →
                ∃ el, nodes w !! r = Some el
                      ∧ "vt__list-item" ∈ classList el
                      ∧ attrs el !! "data-index" = Some (toString i)
                      ∧ parentNode el = Some (tabUL els);
  wd_list : is_Some (nodes w !! tabUL els);
  wd_listener : (tabUL els, TabListClick els) ∈ listeners w;
  wd_others : ∀ t els', (t, TabListClick els') ∈ listeners w →
                els' = els ∨ ∀ r, r ∈ tabItems els → r ∉ tabItems els'
}.


(** Header [j] of the widget is active and no other header is. *)
Definition heads_at (j : nat) (els : TabElements) (w : World) : Prop :=
  ∀ i r, tabItems els !! i = Some r → is_active r (nodes w) = bool_decide (i = j).

(** ** Further notions for the properties of the builder and the window *)

(** A string without the character [<]. Assigned through [innerHTML], such a
    string is parsed into text only: no element comes out of it. *)
Fixpoint plain (s : string) : bool :=
  match s with
  | EmptyString => true
  | String ch rest => negb (Ascii.eqb ch "<") && plain rest
  end.

(** A tab none of whose strings carries markup: its title and text, which
    [createTabItem] puts into the markup of the header, and its image and the
    label of its button, which [createDebugOverlay] puts into the markup of
    the debug panel. For such a tab the elements below the container that
    carry the class [vt__list-item] are the headers the builder created. *)
Definition markup_free (tab : TabConfig.t) : bool :=
  plain (TabConfig.title tab) && plain (TabConfig.text tab)
  && plain (TabConfig.image tab)
  && match TabConfig.button tab with
     | Some b => plain (TabButtonConfig.text b)
     | None => true
     end.

(** The number of elements [createTabElements] creates for one tab: header,
    image, button and, under debug mode, debug panel. *)
Definition per_tab (dbg : bool) : nat := if dbg then 4 else 3.

(** The children the content block receives for the tab at position [i]: its
    image, its button and, under debug mode, its debug panel. *)
Definition content_group (els : TabElements) (i : nat) : list ref :=
  option_list (imageItems els !! i) ++ option_list (buttonItems els !! i)
    ++ option_list (debugItems els !! i).

(** The same by position in the store, for a loop that starts on a store of
    [L] elements. *)
Definition group_at (dbg : bool) (L : nat) (j : nat) : list ref :=
  [L + per_tab dbg * j + 1; L + per_tab dbg * j + 2]
    ++ (if dbg then [L + per_tab dbg * j + 3] else []).

Definition children_of (r : ref) (d : Dom) : option (list ref) :=
  childNodes <$> d !! r.

(** The world [w'] differs from [w] at most in the selection state of the
    document: listeners, activations, timers and console are the same. *)
Definition only_selection (w w' : World) : Prop :=
  selection_only (nodes w) (nodes w')
  ∧ listeners w' = listeners w ∧ scopes w' = scopes w ∧ timers w' = timers w
  ∧ next_timer w' = next_timer w ∧ console w' = console w
  ∧ querySelector w' = querySelector w.

(** The widget [els] as a document holds it: its per-tab elements are
    distinct elements of the document, its list is one too, and each header
    is a list item that stores its position and has the list for parent. *)
Record widget_ok (els : TabElements) (d : Dom) : Prop := mkWidgetOk {
  wk_nodup : NoDup (items els);
  wk_range : Forall (λ r, r < List.length d) (items els);
  wk_header : ∀ i r, tabItems els !! i = Some r →
                ∃ el, d !! r = Some el
                      ∧ "vt__list-item" ∈ classList el
                      ∧ attrs el !! "data-index" = Some (toString i)
                      ∧ parentNode el = Some (tabUL els);
  wk_list : tabUL els < List.length d
}.

(** Every click listener of the page is the listener of a widget the page
    holds, registered on the list of that widget, and two widgets share no
    per-tab element. *)
Definition page_ok (w : World) : Prop :=
  (∀ t els, (t, TabListClick els) ∈ listeners w →
            t = tabUL els ∧ widget_ok els (nodes w))
  ∧ (∀ t t' els els',
       (t, TabListClick els) ∈ listeners w → (t', TabListClick els') ∈ listeners w →
       els = els' ∨ ∀ r, r ∈ items els → r ∉ items els').

(** The timer records of the activations: every id on record was handed out
    by the window, no two activations have the same id on record, and every
    activation holds at least one header. *)
Definition records_ok (w : World) : Prop :=
  (∀ s id, get_intervalId s w = Some id → (id < next_timer w)%positive)
  ∧ (∀ s s' id, get_intervalId s w = Some id → get_intervalId s' w = Some id → s = s')
  ∧ Forall (λ sc, scope_tabs sc ≠ []) (scopes w).

(** A pointer event on the container of an activation of the 1.0.0 script:
    [true] for entering, [false] for leaving. *)
Definition legacy_hover (s : nat) (enter : bool) (w : World) : World :=
  if enter then Legacy.hover_enter s w else Legacy.hover_leave s w.

(** ** The elements the builder of 1.0.0 leaves in the store *)

Definition legacy_header_html (tab : TabConfig.t) : string :=
  newline +:+ "        <h3 class=" +:+ dquote +:+ "vt__list-item-title" +:+ dquote +:+ ">"
    +:+ TabConfig.title tab +:+ "</h3>"
    +:+ newline +:+ "        <p class=" +:+ dquote +:+ "vt__list-item-text" +:+ dquote +:+ ">"
    +:+ TabConfig.text tab +:+ "</p>" +:+ newline +:+ "        ".

Definition legacy_header_el (tab : TabConfig.t) (index : nat) (ul : ref) : Element :=
  set_parentNode (Some ul)
    (set_innerHTML (legacy_header_html tab)
       (set_attrs <["data-index" := toString index]> (new_element "li" "vt__list-item" []))).

(** The per-tab elements of a widget of 1.0.0: headers, images and the
    buttons that exist. *)
Definition legacy_items (tabItems imageItems : list ref) (buttonItems : list (option ref)) :
    list ref :=
  tabItems ++ imageItems ++ omap id buttonItems.

(** What the [reduce] of 1.0.0 pushes for a tab, on a store of [L]
    elements, and the elements it adds. *)
Definition legacy_step_acc (tab : TabConfig.t) (L : nat) (acc : Legacy.Acc) : Legacy.Acc :=
  Legacy.mkAcc (Legacy.acc_tabItems acc ++ [L]) (Legacy.acc_imageItems acc ++ [L + 1])
    (Legacy.acc_buttonItems acc
       ++ [match usable_button tab with Some _ => Some (L + 2) | None => None end]).

Definition legacy_step_new (tab : TabConfig.t) (i : nat) (ul ct : ref) : list Element :=
  [legacy_header_el tab i ul; image_el tab ct]
    ++ match usable_button tab with
       | Some b => [set_parentNode (Some ct) (real_button_el b)]
       | None => []
       end.

Definition legacy_content_update (tab : TabConfig.t) (L : nat) (el : Element) : Element :=
  match usable_button tab with
  | Some _ => add_child (L + 2) (add_child (L + 1) el)
  | None => add_child (L + 1) el
  end.

(** The state of the [reduce] of 1.0.0 after the tabs [seen]. *)
Record legacy_inv (ul ct base : nat) (d0 : Dom) (seen : list TabConfig.t)
    (acc : Legacy.Acc) (d : Dom) : Prop := mkLegacyInv {
  lg_base : base ≤ List.length d;
  lg_len_tab : List.length (Legacy.acc_tabItems acc) = List.length seen;
  lg_len_img : List.length (Legacy.acc_imageItems acc) = List.length seen;
  lg_len_btn : List.length (Legacy.acc_buttonItems acc) = List.length seen;
  lg_range : Forall (λ r, base ≤ r < List.length d)
               (legacy_items (Legacy.acc_tabItems acc) (Legacy.acc_imageItems acc)
                  (Legacy.acc_buttonItems acc));
  lg_nodup : NoDup (legacy_items (Legacy.acc_tabItems acc) (Legacy.acc_imageItems acc)
                      (Legacy.acc_buttonItems acc));
  lg_frame : ∀ r, r < base → r ≠ ul → r ≠ ct → d !! r = d0 !! r;
  lg_parent : parentOf ct d = parentOf ct d0;
  lg_header : slots seen (Legacy.acc_tabItems acc) (λ tab i, legacy_header_el tab i ul) d;
  lg_image : slots seen (Legacy.acc_imageItems acc) (λ tab _, image_el tab ct) d;
  lg_button : ∀ i tab, seen !! i = Some tab →
                match usable_button tab with
                | Some b =>
                    ∃ r, Legacy.acc_buttonItems acc !! i = Some (Some r)
                         ∧ d !! r = Some (set_parentNode (Some ct) (real_button_el b))
                | None => Legacy.acc_buttonItems acc !! i = Some None
                end
}.

(** [l.forEach((el, i) => { if (el) update(el, F(i)) })], for an array that
    may hold [null]. *)
Definition each_update_opt (F : nat → Element → Element) (l : list (option ref)) (d : Dom) :
    Dom :=
  (forEach (λ el i, match el with
                    | Some b => update b (F i)
                    | None => ret tt
                    end) l d).2.

(** Every widget of the page shows one position at most: for each widget
    there is a number [z] such that the header at [z] alone is active and the
    image, button and debug panel at [z] alone are displayed. *)
Definition consistent (w : World) : Prop :=
  ∀ t els, (t, TabListClick els) ∈ listeners w → ∃ z, shown_at z els (nodes w).

(** The position a selection shows: the number itself when it is an integer,
    and none, written [-1], when it is not. *)
Definition shown_position (index : JSNumber) : Z :=
  match index with
  | Int z => z
  | _ => (-1)%Z
  end.
(** ** Store lemmas *)

Lemma lookup_snoc_eq {A} (l : list A) (x : A) (r : nat) :
  r = List.length l → (l ++ [x]) !! r = Some x.
Proof. intros ->. rewrite lookup_app_r by lia. by rewrite Nat.sub_diag. Qed.

Lemma lookup_snoc_lt {A} (l : list A) (x : A) (r : nat) :
  r < List.length l → (l ++ [x]) !! r = l !! r.
Proof. intros. by rewrite lookup_app_l. Qed.

Lemma lookup_alter_same {A} (f : A → A) (l : list A) (i j : nat) :
  i = j → alter f i l !! j = f <$> l !! j.
Proof. intros ->. apply list_lookup_alter_eq. Qed.

Ltac len :=
  repeat first [rewrite length_app | rewrite length_alter]; simpl; lia.

Ltac dom_lookup :=
  repeat first
    [ rewrite lookup_snoc_eq by len
    | rewrite lookup_snoc_lt by len
    | rewrite lookup_alter_same by len
    | rewrite list_lookup_alter_ne by len ].

Lemma appendChild_parentless (p c : ref) (d : Dom) :
  parentOf c d = None →
  appendChild p c d = (tt, alter (add_child c) p (alter (set_parentNode (Some p)) c d)).
Proof. intros H. unfold appendChild. by rewrite H. Qed.

Lemma createElement_eq tag cls attributes (d : Dom) :
  createElement tag cls attributes d = (List.length d, d ++ [new_element tag cls attributes]).
Proof. reflexivity. Qed.

Lemma apply_attribute_tree (el : Element) (kv : string * string) :
  parentNode (apply_attribute el kv) = parentNode el
  ∧ childNodes (apply_attribute el kv) = childNodes el
  ∧ classList (apply_attribute el kv) = classList el.
Proof. destruct kv as [k v]. unfold apply_attribute. repeat case_match; done. Qed.

Lemma fold_attributes_tree (attributes : list (string * string)) (el : Element) :
  parentNode (fold_left apply_attribute attributes el) = parentNode el
  ∧ childNodes (fold_left apply_attribute attributes el) = childNodes el
  ∧ classList (fold_left apply_attribute attributes el) = classList el.
Proof.
  revert el. induction attributes as [|kv l IH]; intros el; simpl; [done|].
  destruct (IH (apply_attribute el kv)) as (-> & -> & ->).
  apply apply_attribute_tree.
Qed.

Lemma parentNode_new_element tag cls attributes :
  parentNode (new_element tag cls attributes) = None.
Proof. unfold new_element. by rewrite (proj1 (fold_attributes_tree _ _)). Qed.

Lemma childNodes_new_element tag cls attributes :
  childNodes (new_element tag cls attributes) = [].
Proof. unfold new_element. by rewrite (proj1 (proj2 (fold_attributes_tree _ _))). Qed.

Lemma classList_new_element tag cls attributes :
  classList (new_element tag cls attributes) = class_tokens cls.
Proof. unfold new_element. by rewrite (proj2 (proj2 (fold_attributes_tree _ _))). Qed.

Lemma bind_run {A B} (m : DomM A) (k : A → DomM B) (d d' : Dom) (a : A) :
  m d = (a, d') → bind m k d = k a d'.
Proof. intros H. unfold bind. by rewrite H. Qed.

Lemma lookup_app_at {A} (l1 l2 : list A) (r k : nat) :
  r = List.length l1 + k → (l1 ++ l2) !! r = l2 !! k.
Proof. intros ->. rewrite lookup_app_r by lia. f_equal. lia. Qed.

Lemma alter_snoc {A} (f : A → A) (l : list A) (x : A) :
  alter f (List.length l) (l ++ [x]) = l ++ [f x].
Proof.
  replace (List.length l) with (List.length l + 0) at 1 by lia.
  by rewrite alter_app_r.
Qed.

Lemma appendChild_last (p : ref) (x : Element) (d : Dom) :
  p < List.length d → parentNode x = None →
  appendChild p (List.length d) (d ++ [x])
  = (tt, alter (add_child (List.length d)) p d ++ [set_parentNode (Some p) x]).
Proof.
  intros Hp Hx. rewrite appendChild_parentless.
  - f_equal. rewrite alter_snoc. by rewrite alter_app_l.
  - unfold parentOf. rewrite lookup_snoc_eq by done. done.
Qed.

Lemma createTabItem_eq tab i (d : Dom) :
  createTabItem tab i d
  = (List.length d,
     d ++ [set_innerHTML (header_html tab)
             (set_attrs <["data-index" := toString i]> (new_element "li" "vt__list-item" []))]).
Proof.
  unfold createTabItem, bind, update, ret. rewrite createElement_eq. f_equal.
  by rewrite !alter_snoc.
Qed.

Lemma createImage_eq src p (d : Dom) :
  p < List.length d →
  createImage src p d
  = (List.length d,
     alter (add_child (List.length d)) p d
     ++ [set_parentNode (Some p) (new_element "img" "vt__image" [("src", src); ("style", "display: none")])]).
Proof.
  intros Hp. unfold createImage, bind, ret. rewrite createElement_eq.
  rewrite appendChild_last; [done..|apply parentNode_new_element].
Qed.

Lemma createTabButton_eq tab (d : Dom) :
  createTabButton tab d
  = (List.length d, d ++ [match usable_button tab with Some b => real_button_el b | None => placeholder_el end]).
Proof.
  unfold createTabButton, usable_button.
  destruct (TabConfig.button tab) as [b|]; [|reflexivity].
  destruct (truthy _ && truthy _)%bool; reflexivity.
Qed.

Lemma createDebugOverlay_eq i image button (d : Dom) :
  createDebugOverlay i image button d
  = (List.length d,
     d ++ [set_innerHTML (debug_text i image button)
             (set_style <["display" := "none"]> (new_element "div" "vt__debug" []))]).
Proof.
  unfold createDebugOverlay, bind, update, ret. rewrite createElement_eq. f_equal.
  by rewrite !alter_snoc.
Qed.

Lemma usable_button_parentless tab :
  parentNode (match usable_button tab with Some b => real_button_el b | None => placeholder_el end) = None.
Proof. destruct (usable_button tab); apply parentNode_new_element. Qed.

Ltac step_at k :=
  rewrite (lookup_app_at _ _ _ k) by len; dom_lookup;
  first [done | rewrite !lookup_ge_None_2; [done|len..]].

Ltac step_store d ul ct :=
  let r := fresh "r" in
  apply list_eq; intros r;
  repeat first [rewrite length_app | rewrite length_alter]; simpl List.length;
  rewrite <- ?Nat.add_assoc; cbn [Nat.add];
  destruct (decide (r < List.length d));
  [ rewrite (lookup_app_l _ _ r) by len;
    destruct (decide (r = ul)) as [->|];
    [|destruct (decide (r = ct)) as [->|]];
    dom_lookup; by destruct (d !! _)
  | destruct (decide (r = List.length d)) as [->|];
    [ step_at 0
    | destruct (decide (r = List.length d + 1)) as [->|];
      [ step_at 1
      | destruct (decide (r = List.length d + 2)) as [->|];
        [ step_at 2
        | destruct (decide (r = List.length d + 3)) as [->|];
          [ step_at 3
          | rewrite !lookup_ge_None_2; [done|len..] ] ] ] ] ].

Lemma tab_step_eq s ul ct acc tab i (d : Dom) :
  ul < List.length d → ct < List.length d → ul ≠ ct →
  tab_step s ul ct acc tab i d
  = (step_acc (Settings.debug s) (List.length d) acc,
     alter (add_child (List.length d)) ul
       (alter (content_update (Settings.debug s) (List.length d)) ct d)
     ++ step_new (Settings.debug s) tab i ul ct).
Proof.
  intros Hul Hct Hne.
  unfold tab_step.
  erewrite bind_run by apply createTabItem_eq.
  erewrite bind_run by (apply createImage_eq; len).
  erewrite bind_run by apply createTabButton_eq.
  erewrite bind_run by (apply appendChild_last; [len|apply usable_button_parentless]).
  unfold step_acc, step_new, content_update.
  destruct (Settings.debug s).
  - erewrite bind_run.
    2:{ erewrite bind_run by reflexivity.
        erewrite bind_run by apply createDebugOverlay_eq.
        erewrite bind_run by (apply appendChild_last; [len|done]).
        reflexivity. }
    erewrite bind_run.
    2:{ apply appendChild_parentless. unfold parentOf. dom_lookup. done. }
    unfold ret. f_equal; [f_equal; f_equal; f_equal; len | step_store d ul ct].
  - erewrite bind_run by reflexivity.
    erewrite bind_run.
    2:{ apply appendChild_parentless. unfold parentOf. dom_lookup. done. }
    unfold ret. f_equal; [f_equal; f_equal; f_equal; len | step_store d ul ct].
Qed.

(** ** The loop of the builder *)

Lemma slots_frame tabs refs expected (d d' : Dom) :
  slots tabs refs expected d →
  (∀ r, r ∈ refs → d' !! r = d !! r) →
  slots tabs refs expected d'.
Proof.
  intros H Hf i tab r Ht Hr. rewrite Hf; [by eapply H|].
  by eapply list_elem_of_lookup_2.
Qed.

Lemma slots_snoc tabs refs expected (d : Dom) tab r :
  slots tabs refs expected d →
  List.length refs = List.length tabs →
  d !! r = Some (expected tab (List.length tabs)) →
  slots (tabs ++ [tab]) (refs ++ [r]) expected d.
Proof.
  intros H Hlen Hr i tab' r' Ht Hr'.
  apply lookup_snoc_Some in Ht as [[Hi Ht]|[-> <-]].
  - rewrite lookup_app_l in Hr' by lia. by eapply H.
  - rewrite <- Hlen in Hr'. rewrite lookup_snoc_eq in Hr' by done.
    by injection Hr' as <-.
Qed.

Lemma slots_nil tabs expected (d : Dom) : slots tabs [] expected d.
Proof. intros i tab r _ Hr. done. Qed.

Lemma acc_items_step_true L acc :
  acc_items (step_acc true L acc) ≡ₚ acc_items acc ++ [L; L + 1; L + 2; L + 3].
Proof. unfold acc_items, step_acc; simpl. solve_Permutation. Qed.

Lemma acc_items_step_false L acc :
  acc_items (step_acc false L acc) ≡ₚ acc_items acc ++ [L; L + 1; L + 2].
Proof. unfold acc_items, step_acc; simpl. solve_Permutation. Qed.
Lemma loop_inv_step s ul ct base (d0 : Dom) seen acc (d : Dom) tab :
  ul < base → ct < base → ul ≠ ct →
  loop_inv s ul ct base d0 seen acc d →
  loop_inv s ul ct base d0 (seen ++ [tab])
    (step_acc (Settings.debug s) (List.length d) acc)
    (alter (add_child (List.length d)) ul
       (alter (content_update (Settings.debug s) (List.length d)) ct d)
     ++ step_new (Settings.debug s) tab (List.length seen) ul ct).
Proof.
  intros Hul Hct Hne [Hbase Hlt Hli Hlb Hld Hrange Hnd Hframe Hh Hi Hb Hdg Hul_el Hct_el].
  assert (Hold : ∀ r, r ∈ acc_items acc → base ≤ r < List.length d).
  { by apply Forall_forall. }
  set (d' := alter _ ul _ ++ _).
  assert (Hkeep : ∀ r, r < List.length d → r ≠ ul → r ≠ ct → d' !! r = d !! r).
  { intros r Hr ? ?. unfold d'. rewrite lookup_app_l by len. by dom_lookup. }
  assert (Hkeep' : ∀ r, r ∈ acc_items acc → d' !! r = d !! r).
  { intros r Hr%Hold. apply Hkeep; lia. }
  assert (Hlen : List.length d' = List.length d + if Settings.debug s then 4 else 3).
  { unfold d', step_new. rewrite length_app, !length_alter. destruct (Settings.debug s); simpl; lia. }
  assert (Hnew : ∀ k x, step_new (Settings.debug s) tab (List.length seen) ul ct !! k = Some x →
                        d' !! (List.length d + k) = Some x).
  { intros k x Hk. unfold d'. rewrite (lookup_app_at _ _ _ k) by len. done. }
  split.
  - lia.
  - unfold step_acc; simpl. rewrite !length_app; simpl. lia.
  - unfold step_acc; simpl. rewrite !length_app; simpl. lia.
  - unfold step_acc; simpl. rewrite !length_app; simpl. lia.
  - unfold step_acc; simpl. destruct (Settings.debug s); rewrite ?length_app; simpl; lia.
  - apply Forall_forall. intros r Hr. rewrite Hlen.
    destruct (Settings.debug s).
    + rewrite acc_items_step_true in Hr. apply elem_of_app in Hr as [Hr%Hold|Hr]; [lia|].
      repeat (apply elem_of_cons in Hr as [->|Hr]; [lia|]). by apply elem_of_nil in Hr.
    + rewrite acc_items_step_false in Hr. apply elem_of_app in Hr as [Hr%Hold|Hr]; [lia|].
      repeat (apply elem_of_cons in Hr as [->|Hr]; [lia|]). by apply elem_of_nil in Hr.
  - destruct (Settings.debug s).
    + rewrite acc_items_step_true. apply NoDup_app. split; [done|]. split.
      * intros r Hr%Hold Hr'.
        repeat (apply elem_of_cons in Hr' as [->|Hr']; [lia|]). by apply elem_of_nil in Hr'.
      * repeat (apply NoDup_cons; split; [rewrite ?elem_of_cons, elem_of_nil; lia|]).
        apply NoDup_nil_2.
    + rewrite acc_items_step_false. apply NoDup_app. split; [done|]. split.
      * intros r Hr%Hold Hr'.
        repeat (apply elem_of_cons in Hr' as [->|Hr']; [lia|]). by apply elem_of_nil in Hr'.
      * repeat (apply NoDup_cons; split; [rewrite ?elem_of_cons, elem_of_nil; lia|]).
        apply NoDup_nil_2.
  - intros r Hr ? ?. rewrite Hkeep by lia. by apply Hframe.
  - apply slots_snoc; [|done|].
    + eapply slots_frame; [done|]. intros r Hr. apply Hkeep'. unfold acc_items; rewrite !elem_of_app; auto.
    + rewrite <- (Nat.add_0_r (List.length d)). by apply Hnew.
  - apply slots_snoc; [|done|].
    + eapply slots_frame; [done|]. intros r Hr. apply Hkeep'. unfold acc_items; rewrite !elem_of_app; auto.
    + by apply Hnew.
  - apply slots_snoc; [|done|].
    + eapply slots_frame; [done|]. intros r Hr. apply Hkeep'. unfold acc_items; rewrite !elem_of_app; auto.
    + by apply Hnew.
  - unfold step_acc; simpl. destruct (Settings.debug s) eqn:Hdbg.
    + apply slots_snoc; [|done|].
      * eapply slots_frame; [done|]. intros r Hr. apply Hkeep'. unfold acc_items; rewrite !elem_of_app; auto.
      * by apply Hnew.
    + eapply slots_frame; [|intros r Hr; apply Hkeep'; unfold acc_items; rewrite !elem_of_app; auto].
      destruct (acc_debugItems acc); [apply slots_nil|done].
  - unfold d'. rewrite lookup_app_l by len. dom_lookup. rewrite Hul_el.
    destruct (d0 !! ul) as [e|]; [|done]. simpl. f_equal.
    unfold add_child, set_childNodes, step_acc; simpl. f_equal. by rewrite app_assoc.
  - destruct Hct_el as (el0 & el & H0 & H1 & Hcl & Hpar & cs & Hcs & Hin).
    exists el0, (content_update (Settings.debug s) (List.length d) el).
    split; [done|]. split.
    { unfold d'. rewrite lookup_app_l by len. dom_lookup. by rewrite H1. }
    unfold content_update, step_acc. destruct (Settings.debug s); simpl.
    + split; [done|]. split; [done|].
      exists (cs ++ [List.length d + 1; List.length d + 2; List.length d + 3]).
      rewrite Hcs. split; [by rewrite <- !app_assoc|].
      apply Forall_app. split.
      * eapply Forall_impl; [done|]. intros c. simpl. rewrite !elem_of_app. tauto.
      * repeat constructor; rewrite !elem_of_app, !list_elem_of_singleton; tauto.
    + split; [done|]. split; [done|].
      exists (cs ++ [List.length d + 1; List.length d + 2]).
      rewrite Hcs. split; [by rewrite <- !app_assoc|].
      apply Forall_app. split.
      * eapply Forall_impl; [done|]. intros c. simpl. rewrite !elem_of_app. tauto.
      * repeat constructor; rewrite !elem_of_app, !list_elem_of_singleton; tauto.
Qed.
Lemma reduce_from_inv s ul ct base (d0 : Dom) rest :
  ul < base → ct < base → ul ≠ ct →
  ∀ seen acc (d : Dom),
    loop_inv s ul ct base d0 seen acc d →
    loop_inv s ul ct base d0 (seen ++ rest)
      (reduce_from (tab_step s ul ct) rest (List.length seen) acc d).1
      (reduce_from (tab_step s ul ct) rest (List.length seen) acc d).2.
Proof.
  intros Hul Hct Hne. induction rest as [|tab rest IH]; intros seen acc d Hinv.
  - simpl. by rewrite app_nil_r.
  - simpl. pose proof (li_base _ _ _ _ _ _ _ _ Hinv) as Hb.
    erewrite bind_run by (apply tab_step_eq; lia).
    replace (S (List.length seen)) with (List.length (seen ++ [tab])) by len.
    replace (seen ++ tab :: rest) with ((seen ++ [tab]) ++ rest) by by rewrite <- app_assoc.
    apply IH. by apply loop_inv_step.
Qed.

Lemma createTabElements_built s (d0 : Dom) :
  built s d0 (createTabElements s d0).1 (createTabElements s d0).2.
Proof.
  unfold createTabElements.
  do 4 (erewrite bind_run by apply createElement_eq).
  erewrite bind_run.
  2:{ apply appendChild_parentless. unfold parentOf. dom_lookup. done. }
  repeat first [rewrite length_app | rewrite length_alter]. simpl List.length.
  rewrite <- ?Nat.add_assoc. cbn [Nat.add].
  set (L0 := List.length d0).
  set (dA := alter _ (L0 + 1) _).
  assert (HlenA : List.length dA = L0 + 4) by (unfold dA, L0; len).
  assert (HA0 : dA !! L0 = Some (new_element "div" "vt__wrapper"
                                   [("data-position", Settings.position s)])).
  { unfold dA, L0. by dom_lookup. }
  assert (HA1 : dA !! (L0 + 1) = Some (add_child (L0 + 2) (new_element "div" "vt__tabs" []))).
  { unfold dA, L0. by dom_lookup. }
  assert (HA2 : dA !! (L0 + 2)
                = Some (set_parentNode (Some (L0 + 1)) (new_element "ul" "vt__list" []))).
  { unfold dA, L0. by dom_lookup. }
  assert (HA3 : dA !! (L0 + 3) = Some (new_element "div" "vt__content" [])).
  { unfold dA, L0. by dom_lookup. }
  assert (HAf : ∀ r, r < L0 → dA !! r = d0 !! r).
  { intros r Hr. unfold dA, L0 in *. by dom_lookup. }
  assert (Hinv0 : loop_inv s (L0 + 2) (L0 + 3) (L0 + 4) dA [] (mkAcc [] [] [] []) dA).
  { split; simpl; try done.
    - lia.
    - by destruct (Settings.debug s).
    - constructor.
    - by rewrite HA2.
    - eexists _, _. split; [done|]. split; [done|]. split; [done|]. split; [done|].
      exists []. split; [by rewrite app_nil_r|constructor]. }
  apply (reduce_from_inv s (L0 + 2) (L0 + 3) (L0 + 4) dA (Settings.tabs s)
           ltac:(lia) ltac:(lia) ltac:(lia) [] _ _) in Hinv0.
  simpl in Hinv0. unfold reduce.
  destruct (reduce_from _ _ 0 _ dA) as [acc dB] eqn:Hred. simpl in Hinv0.
  rewrite (bind_run _ _ _ _ _ Hred).
  destruct Hinv0 as [Hbase Hlt Hli Hlb Hld Hrange Hnd Hframe Hh Hi Hb Hdg Hul_el Hct_el].
  destruct Hct_el as (el0 & el & H0 & H1 & Hcl & Hpar & cs & Hcs & Hin).
  rewrite HA3 in H0. injection H0 as <-.
  assert (HB1 : dB !! (L0 + 1) = Some (add_child (L0 + 2) (new_element "div" "vt__tabs" []))).
  { rewrite Hframe by lia. done. }
  assert (HB0 : dB !! L0 = Some (new_element "div" "vt__wrapper"
                                   [("data-position", Settings.position s)])).
  { rewrite Hframe by lia. done. }
  assert (Hitems : ∀ r, r ∈ acc_items acc → L0 + 4 ≤ r < List.length dB).
  { by apply Forall_forall. }
  set (children := if String.eqb (Settings.position s) "left"
                   then [L0 + 1; L0 + 3] else [L0 + 3; L0 + 1]).
  set (dC := alter (set_childNodes (λ cs, cs ++ children)) L0
               (alter (set_parentNode (Some L0)) (L0 + 1)
                  (alter (set_parentNode (Some L0)) (L0 + 3) dB))).
  assert (Hfinal : ((if String.eqb (Settings.position s) "left"
                     then appendChild L0 (L0 + 1) ;;; appendChild L0 (L0 + 3)
                     else appendChild L0 (L0 + 3) ;;; appendChild L0 (L0 + 1)) dB)
                   = (tt, dC)).
  { unfold dC, children. destruct (String.eqb _ _).
    - erewrite bind_run.
      2:{ apply appendChild_parentless. unfold parentOf. rewrite HB1. done. }
      rewrite appendChild_parentless.
      2:{ unfold parentOf. dom_lookup. rewrite H1. simpl. by rewrite Hpar. }
      f_equal. apply list_eq. intros r.
      destruct (decide (r = L0)) as [->|]; [|destruct (decide (r = L0 + 1)) as [->|];
        [|destruct (decide (r = L0 + 3)) as [->|]]]; dom_lookup;
        rewrite ?HB0, ?HB1, ?H1; simpl; try done.
    - erewrite bind_run.
      2:{ apply appendChild_parentless. unfold parentOf. rewrite H1. simpl. by rewrite Hpar. }
      rewrite appendChild_parentless.
      2:{ unfold parentOf. dom_lookup. rewrite HB1. done. }
      f_equal. apply list_eq. intros r.
      destruct (decide (r = L0)) as [->|]; [|destruct (decide (r = L0 + 1)) as [->|];
        [|destruct (decide (r = L0 + 3)) as [->|]]]; dom_lookup;
        rewrite ?HB0, ?HB1, ?H1; simpl; try done. }
  rewrite (bind_run _ _ _ _ _ Hfinal). unfold ret. simpl.
  assert (HlenC : List.length dC = List.length dB) by (unfold dC; len).
  assert (HC : ∀ r, r ≠ L0 → r ≠ L0 + 1 → r ≠ L0 + 3 → dC !! r = dB !! r).
  { intros r ? ? ?. unfold dC. by dom_lookup. }
  assert (HCi : ∀ r, r ∈ acc_items acc → dC !! r = dB !! r).
  { intros r Hr%Hitems. apply HC; lia. }
  split; simpl; fold L0.
  - done.
  - done.
  - done.
  - lia.
  - done.
  - done.
  - done.
  - done.
  - rewrite HlenC. exact Hrange.
  - exact Hnd.
  - intros r Hr. rewrite HC, Hframe, HAf by lia. done.
  - eapply slots_frame; [done|]. intros r Hr. apply HCi. unfold acc_items; rewrite !elem_of_app; auto.
  - eapply slots_frame; [done|]. intros r Hr. apply HCi. unfold acc_items; rewrite !elem_of_app; auto.
  - eapply slots_frame; [done|]. intros r Hr. apply HCi. unfold acc_items; rewrite !elem_of_app; auto.
  - eapply slots_frame; [done|]. intros r Hr. apply HCi. unfold acc_items; rewrite !elem_of_app; auto.
  - unfold dC. dom_lookup. rewrite HB0. done.
  - unfold dC. dom_lookup. rewrite HB1. done.
  - rewrite HC, Hul_el, HA2 by lia. done.
  - exists (set_parentNode (Some L0) el). split.
    { unfold dC. dom_lookup. by rewrite H1. }
    split; [simpl; by rewrite Hcl|]. split; [done|].
    simpl. rewrite Hcs. done.
Qed.
(** ** Selection *)

Lemma each_update_cons F r l (d : Dom) :
  each_update F (r :: l) d = each_update (λ i, F (S i)) l (alter (F 0) r d).
Proof.
  unfold each_update, forEach. simpl. unfold bind, update. simpl.
  generalize (alter (F 0) r d). generalize 0.
  induction l as [|x l IH]; intros n d'; simpl; [done|].
  unfold bind. simpl. apply IH.
Qed.

Lemma each_update_nil F (d : Dom) : each_update F [] d = d.
Proof. reflexivity. Qed.

Lemma each_update_length F l (d : Dom) : List.length (each_update F l d) = List.length d.
Proof.
  revert F d. induction l as [|r l IH]; intros F d; [done|].
  rewrite each_update_cons, IH. apply length_alter.
Qed.

Lemma each_update_notin F l (d : Dom) r :
  r ∉ l → each_update F l d !! r = d !! r.
Proof.
  revert F d. induction l as [|x l IH]; intros F d Hr; [done|].
  apply not_elem_of_cons in Hr as [Hx Hl].
  rewrite each_update_cons, IH by done. by rewrite list_lookup_alter_ne.
Qed.

Lemma each_update_in F l (d : Dom) i r :
  NoDup l → l !! i = Some r → each_update F l d !! r = F i <$> d !! r.
Proof.
  revert F d i. induction l as [|x l IH]; intros F d i Hnd Hi; [done|].
  apply NoDup_cons in Hnd as [Hx Hnd]. rewrite each_update_cons.
  destruct i as [|i]; simpl in Hi.
  - injection Hi as ->. rewrite each_update_notin by done. apply list_lookup_alter_eq.
  - rewrite (IH _ _ i) by done. rewrite list_lookup_alter_ne; [done|].
    intros ->. apply Hx. by eapply list_elem_of_lookup_2.
Qed.

Lemma seq_run {B} (m : DomM unit) (k : DomM B) (d : Dom) :
  bind m (λ _, k) d = k (m d).2.
Proof. unfold bind. by destruct (m d) as [[] d']. Qed.

Lemma selectTab_eq index els (d : Dom) :
  (selectTab index els d).2
  = each_update (λ i, set_style <["display" := if strict_eq i index then "block" else "none"]>)
      (debugItems els)
      (each_update
         (λ i, set_style <["display" := if strict_eq i index then "inline-block" else "none"]>)
         (buttonItems els)
         (each_update (λ i, set_style <["display" := if strict_eq i index then "block" else "none"]>)
            (imageItems els)
            (each_update (λ i, set_classList (classList_toggle "active" (strict_eq i index)))
               (tabItems els) d))).
Proof.
  unfold selectTab. by rewrite !seq_run.
Qed.

Lemma selectTab_length index els (d : Dom) :
  List.length (selectTab index els d).2 = List.length d.
Proof. rewrite selectTab_eq. by rewrite !each_update_length. Qed.

Lemma NoDup_items els :
  NoDup (items els) →
  NoDup (tabItems els) ∧ NoDup (imageItems els) ∧ NoDup (buttonItems els)
  ∧ NoDup (debugItems els)
  ∧ (∀ r, r ∈ tabItems els →
          (r ∉ imageItems els) ∧ (r ∉ buttonItems els) ∧ (r ∉ debugItems els))
  ∧ (∀ r, r ∈ imageItems els → (r ∉ buttonItems els) ∧ (r ∉ debugItems els))
  ∧ (∀ r, r ∈ buttonItems els → r ∉ debugItems els).
Proof.
  unfold items. rewrite !NoDup_app.
  intros (H1 & H12 & H2 & H23 & H3 & H34 & H4).
  repeat split; try done.
  - intros Hr. apply (H12 r); [done|]. rewrite !elem_of_app. auto.
  - intros Hr. apply (H12 r); [done|]. rewrite !elem_of_app. auto.
  - intros Hr. apply (H12 r); [done|]. rewrite !elem_of_app. auto.
  - intros Hr. apply (H23 r); [done|]. rewrite !elem_of_app. auto.
  - intros Hr. apply (H23 r); [done|]. rewrite !elem_of_app. auto.
Qed.

Lemma selectTab_header index els (d : Dom) i r :
  NoDup (items els) → tabItems els !! i = Some r →
  (selectTab index els d).2 !! r
  = set_classList (classList_toggle "active" (strict_eq i index)) <$> d !! r.
Proof.
  intros (H1 & H2 & H3 & H4 & D1 & D2 & D3)%NoDup_items Hi.
  destruct (D1 r) as (? & ? & ?); [by eapply list_elem_of_lookup_2|].
  rewrite selectTab_eq, !each_update_notin by done.
  by rewrite (each_update_in _ _ _ i).
Qed.

Lemma selectTab_image index els (d : Dom) i r :
  NoDup (items els) → imageItems els !! i = Some r →
  (selectTab index els d).2 !! r
  = set_style <["display" := if strict_eq i index then "block" else "none"]> <$> d !! r.
Proof.
  intros (H1 & H2 & H3 & H4 & D1 & D2 & D3)%NoDup_items Hi.
  assert (Hr : r ∈ imageItems els) by by eapply list_elem_of_lookup_2.
  destruct (D2 r) as (? & ?); [done|].
  rewrite selectTab_eq, !each_update_notin by done.
  rewrite (each_update_in _ _ _ i) by done.
  rewrite each_update_notin; [done|]. intros Ht. by destruct (D1 r Ht).
Qed.

Lemma selectTab_button index els (d : Dom) i r :
  NoDup (items els) → buttonItems els !! i = Some r →
  (selectTab index els d).2 !! r
  = set_style <["display" := if strict_eq i index then "inline-block" else "none"]> <$> d !! r.
Proof.
  intros (H1 & H2 & H3 & H4 & D1 & D2 & D3)%NoDup_items Hi.
  assert (Hr : r ∈ buttonItems els) by by eapply list_elem_of_lookup_2.
  rewrite selectTab_eq, each_update_notin by by apply D3.
  rewrite (each_update_in _ _ _ i) by done.
  rewrite !each_update_notin; [done| |].
  - intros Ht. by destruct (D1 r Ht) as (? & ? & ?).
  - intros Ht. by destruct (D2 r Ht).
Qed.

Lemma selectTab_debug index els (d : Dom) i r :
  NoDup (items els) → debugItems els !! i = Some r →
  (selectTab index els d).2 !! r
  = set_style <["display" := if strict_eq i index then "block" else "none"]> <$> d !! r.
Proof.
  intros (H1 & H2 & H3 & H4 & D1 & D2 & D3)%NoDup_items Hi.
  assert (Hr : r ∈ debugItems els) by by eapply list_elem_of_lookup_2.
  rewrite selectTab_eq. rewrite (each_update_in _ _ _ i) by done.
  rewrite !each_update_notin; [done| | |].
  - intros Ht. by destruct (D1 r Ht) as (? & ? & ?).
  - intros Ht. by destruct (D2 r Ht).
  - intros Ht. by apply (D3 r Ht).
Qed.

Lemma selectTab_other index els (d : Dom) r :
  r ∉ items els → (selectTab index els d).2 !! r = d !! r.
Proof.
  unfold items. rewrite !elem_of_app. intros Hr.
  rewrite selectTab_eq, !each_update_notin; tauto.
Qed.
Lemma toggle_self token b cl : token ∈ classList_toggle token b cl ↔ b = true.
Proof.
  unfold classList_toggle. destruct b.
  - case_bool_decide; [done|]. rewrite elem_of_app, list_elem_of_singleton. tauto.
  - rewrite list_elem_of_filter. split; [by intros []|done].
Qed.

Lemma toggle_other token b cl c : c ≠ token → c ∈ classList_toggle token b cl ↔ c ∈ cl.
Proof.
  intros Hc. unfold classList_toggle. destruct b.
  - case_bool_decide; [done|]. rewrite elem_of_app, list_elem_of_singleton. tauto.
  - rewrite list_elem_of_filter. tauto.
Qed.

Lemma classList_contains_toggle token b el :
  classList_contains token (set_classList (classList_toggle token b) el) = b.
Proof.
  unfold classList_contains. simpl. destruct b.
  - apply bool_decide_eq_true. by apply toggle_self.
  - apply bool_decide_eq_false. by rewrite toggle_self.
Qed.

Lemma same_refl el : same_but_selection el el.
Proof. by split. Qed.

Lemma same_trans el1 el2 el3 :
  same_but_selection el1 el2 → same_but_selection el2 el3 → same_but_selection el1 el3.
Proof.
  intros [A1 A2 A3 A4 A5 A6 A7 A8] [B1 B2 B3 B4 B5 B6 B7 B8]. split; try congruence.
  - intros c Hc. rewrite B7, A7; done.
  - intros k Hk. rewrite B8, A8; done.
Qed.

Lemma same_toggle b el :
  same_but_selection el (set_classList (classList_toggle "active" b) el).
Proof. split; try done. intros c Hc. simpl. by apply toggle_other. Qed.

Lemma same_display v el :
  same_but_selection el (set_style <["display" := v]> el).
Proof. split; try done. intros k Hk. simpl. by rewrite lookup_insert_ne. Qed.

Lemma selection_only_refl (d : Dom) : selection_only d d.
Proof. split; [done|]. intros r el Hr. exists el. split; [done|apply same_refl]. Qed.

Lemma selection_only_trans (d1 d2 d3 : Dom) :
  selection_only d1 d2 → selection_only d2 d3 → selection_only d1 d3.
Proof.
  intros [L1 H1] [L2 H2]. split; [congruence|].
  intros r el Hr. destruct (H1 r el Hr) as (el2 & Hr2 & S12).
  destruct (H2 r el2 Hr2) as (el3 & Hr3 & S23).
  exists el3. split; [done|]. by eapply same_trans.
Qed.

Lemma selection_only_alter f r (d : Dom) :
  (∀ el, same_but_selection el (f el)) → selection_only d (alter f r d).
Proof.
  intros Hf. split; [apply length_alter|]. intros r' el Hr'.
  destruct (decide (r = r')) as [->|Hne].
  - exists (f el). rewrite list_lookup_alter_eq, Hr'. done.
  - exists el. rewrite list_lookup_alter_ne by done. split; [done|apply same_refl].
Qed.

Lemma selection_only_each F l (d : Dom) :
  (∀ i el, same_but_selection el (F i el)) → selection_only d (each_update F l d).
Proof.
  revert F d. induction l as [|r l IH]; intros F d HF; [apply selection_only_refl|].
  rewrite each_update_cons. eapply selection_only_trans.
  - by apply selection_only_alter.
  - apply IH. intros i el. apply HF.
Qed.

Lemma selectTab_selection_only index els (d : Dom) :
  selection_only d (selectTab index els d).2.
Proof.
  rewrite selectTab_eq.
  repeat (eapply selection_only_trans; [|apply selection_only_each]);
    [apply selection_only_refl|..]; intros i el; first [apply same_toggle | apply same_display].
Qed.

Lemma select_all_selection_only indices els (d : Dom) :
  selection_only d (select_all indices els d).
Proof.
  revert d. induction indices as [|index l IH]; intros d; [apply selection_only_refl|].
  simpl. eapply selection_only_trans; [apply selectTab_selection_only|apply IH].
Qed.

Lemma select_all_length indices els (d : Dom) :
  List.length (select_all indices els d) = List.length d.
Proof. apply select_all_selection_only. Qed.

Lemma strict_eq_Int i z : strict_eq i (Int z) = bool_decide (Z.of_nat i = z).
Proof.
  simpl. destruct (Z.eqb_spec (Z.of_nat i) z).
  - by rewrite bool_decide_eq_true_2.
  - by rewrite bool_decide_eq_false_2.
Qed.

(** The state of an entry after a selection. *)
Lemma selected_header index els (d : Dom) i r :
  NoDup (items els) → tabItems els !! i = Some r → r < List.length d →
  is_active r (selectTab index els d).2 = strict_eq i index.
Proof.
  intros Hnd Hi Hr. unfold is_active, has_class.
  rewrite (selectTab_header _ _ _ i) by done.
  destruct (lookup_lt_is_Some_2 d r Hr) as [el ->]. simpl.
  apply classList_contains_toggle.
Qed.

Lemma selected_image index els (d : Dom) i r :
  NoDup (items els) → imageItems els !! i = Some r → r < List.length d →
  display r (selectTab index els d).2 = Some (if strict_eq i index then "block" else "none").
Proof.
  intros Hnd Hi Hr. unfold display.
  rewrite (selectTab_image _ _ _ i) by done.
  destruct (lookup_lt_is_Some_2 d r Hr) as [el ->]. simpl.
  apply lookup_insert_eq.
Qed.

Lemma selected_button index els (d : Dom) i r :
  NoDup (items els) → buttonItems els !! i = Some r → r < List.length d →
  display r (selectTab index els d).2
  = Some (if strict_eq i index then "inline-block" else "none").
Proof.
  intros Hnd Hi Hr. unfold display.
  rewrite (selectTab_button _ _ _ i) by done.
  destruct (lookup_lt_is_Some_2 d r Hr) as [el ->]. simpl.
  apply lookup_insert_eq.
Qed.

Lemma selected_debug index els (d : Dom) i r :
  NoDup (items els) → debugItems els !! i = Some r → r < List.length d →
  display r (selectTab index els d).2 = Some (if strict_eq i index then "block" else "none").
Proof.
  intros Hnd Hi Hr. unfold display.
  rewrite (selectTab_debug _ _ _ i) by done.
  destruct (lookup_lt_is_Some_2 d r Hr) as [el ->]. simpl.
  apply lookup_insert_eq.
Qed.
(** ** The widget after construction and selections *)

Lemma shown_at_selectTab z els (d : Dom) :
  NoDup (items els) → Forall (λ r, r < List.length d) (items els) →
  shown_at z els (selectTab (Int z) els d).2.
Proof.
  intros Hnd Hr. rewrite Forall_forall in Hr. unfold items in Hr.
  setoid_rewrite elem_of_app in Hr. setoid_rewrite elem_of_app in Hr.
  setoid_rewrite elem_of_app in Hr.
  repeat split; intros i r Hi; rewrite <- strict_eq_Int;
    pose proof (list_elem_of_lookup_2 _ _ _ Hi).
  - apply selected_header; auto.
  - apply selected_image; auto.
  - apply selected_button; auto.
  - apply selected_debug; auto.
Qed.

Lemma built_select_all s (d0 : Dom) els (d1 : Dom) selections :
  built s d0 els d1 →
  NoDup (items els)
  ∧ Forall (λ r, r < List.length (select_all selections els d1)) (items els).
Proof.
  intros B. split; [apply B|]. rewrite select_all_length.
  eapply Forall_impl; [apply (b_range _ _ _ _ B)|]. simpl. lia.
Qed.

Lemma shown_at_out_of_range z els (d : Dom) :
  (z < 0 ∨ Z.of_nat (List.length (tabItems els)) ≤ z)%Z →
  List.length (imageItems els) = List.length (tabItems els) →
  List.length (buttonItems els) = List.length (tabItems els) →
  List.length (debugItems els) ≤ List.length (tabItems els) →
  shown_at z els d → all_hidden els d.
Proof.
  intros Hz Hi Hb Hd (S1 & S2 & S3 & S4). split.
  - apply Forall_lookup. intros i r Hr. rewrite (S1 i r Hr).
    apply bool_decide_eq_false. apply lookup_lt_Some in Hr. lia.
  - rewrite !Forall_app. repeat split; apply Forall_lookup; intros i r Hr.
    + rewrite (S2 i r Hr). rewrite bool_decide_eq_false_2; [done|].
      apply lookup_lt_Some in Hr. lia.
    + rewrite (S3 i r Hr). rewrite bool_decide_eq_false_2; [done|].
      apply lookup_lt_Some in Hr. lia.
    + rewrite (S4 i r Hr). rewrite bool_decide_eq_false_2; [done|].
      apply lookup_lt_Some in Hr. lia.
Qed.

(** C1. For every widget built from the tabs of [s], in whatever state earlier
    selections left it, and every integer [z], in range or not:
    after [selectTab(z, elements)] header [i] carries [active] iff [i = z],
    image [i] has display [block] iff [i = z] and [none] otherwise, button [i]
    has display [inline-block] iff [i = z] and [none] otherwise, and debug
    panel [i], when there is one, has display [block] iff [i = z] and [none]
    otherwise; the four arrays cover every position below the number of tabs
    (the debug array when debugging is on); and for [z] out of range every
    header is inactive and every image, button and panel has display [none]. *)
Theorem selectTab_sets_every_position (s : Settings.t) (d0 : Dom)
    (selections : list JSNumber) (z : Z) :
  let els := (createTabElements s d0).1 in
  let d1 := (createTabElements s d0).2 in
  let d := (selectTab (Int z) els (select_all selections els d1)).2 in
  let N := List.length (Settings.tabs s) in
  shown_at z els d
  ∧ List.length (tabItems els) = N
  ∧ List.length (imageItems els) = N
  ∧ List.length (buttonItems els) = N
  ∧ List.length (debugItems els) = (if Settings.debug s then N else 0)
  ∧ ((z < 0 ∨ Z.of_nat N ≤ z)%Z → all_hidden els d).
Proof.
  intros els d1 d N.
  pose proof (createTabElements_built s d0) as B. fold els d1 in B.
  destruct (built_select_all _ _ _ _ selections B) as [Hnd Hr].
  assert (Hs : shown_at z els d) by by apply shown_at_selectTab.
  destruct B as [_ _ _ _ Ht Hi Hb Hd _ _ _ _ _ _ _ _ _ _ _].
  split; [done|]. do 4 (split; [done|]).
  intros Hz. apply (shown_at_out_of_range z); try done; try lia.
  rewrite Hd. fold N. destruct (Settings.debug s); lia.
Qed.
(** ** What the builder builds *)

Lemma truthy_spec (s : string) : truthy s = true ↔ s ≠ "".
Proof.
  unfold truthy. destruct (String.eqb_spec s ""); simpl; split; intros; congruence.
Qed.

Lemma usable_button_Some tab b :
  usable_button tab = Some b
  ↔ TabConfig.button tab = Some b ∧ TabButtonConfig.text b ≠ "" ∧ TabButtonConfig.url b ≠ "".
Proof.
  unfold usable_button. destruct (TabConfig.button tab) as [b'|]; [|split; [done|by intros []]].
  destruct (truthy (TabButtonConfig.text b')) eqn:Ht, (truthy (TabButtonConfig.url b')) eqn:Hu;
    simpl; rewrite <- !truthy_spec; split; intros H; try discriminate.
  - by injection H as ->.
  - destruct H as (H & _ & _). by injection H as ->.
  - destruct H as (H & ? & ?). injection H as ->. congruence.
  - destruct H as (H & ? & ?). injection H as ->. congruence.
  - destruct H as (H & ? & ?). injection H as ->. congruence.
Qed.

Lemma link_element_eq href text css :
  new_element "a" "vt__tab__button" [("href", href); ("textContent", text); ("style", css)]
  = mkElement "a" ["vt__tab__button"] ∅ (<["textContent" := text]> (<["href" := href]> ∅))
      (cssText css) "" None [].
Proof. reflexivity. Qed.

Lemma cssText_hidden_link :
  cssText "visibility: hidden; display: inline-block;"
  = <["display" := "inline-block"]> (<["visibility" := "hidden"]> ∅).
Proof. reflexivity. Qed.

Lemma cssText_display_none : cssText "display: none" = <["display" := "none"]> ∅.
Proof. reflexivity. Qed.

Lemma real_button_facts b :
  tagName (real_button_el b) = "a"
  ∧ classList (real_button_el b) = ["vt__tab__button"]
  ∧ props (real_button_el b) !! "textContent" = Some (TabButtonConfig.text b)
  ∧ props (real_button_el b) !! "href" = Some (TabButtonConfig.url b)
  ∧ style (real_button_el b) !! "display" = Some "none"
  ∧ style (real_button_el b) !! "visibility" = None.
Proof.
  unfold real_button_el. rewrite link_element_eq, cssText_display_none. simpl.
  repeat split; by simplify_map_eq.
Qed.

Lemma placeholder_facts :
  tagName placeholder_el = "a"
  ∧ classList placeholder_el = ["vt__tab__button"]
  ∧ props placeholder_el !! "textContent" = Some "Placeholder"
  ∧ props placeholder_el !! "href" = Some "#"
  ∧ style placeholder_el !! "display" = Some "inline-block"
  ∧ style placeholder_el !! "visibility" = Some "hidden".
Proof.
  unfold placeholder_el. rewrite link_element_eq, cssText_hidden_link. simpl.
  repeat split; by simplify_map_eq.
Qed.

Lemma wrapper_el_facts s L0 :
  classList (wrapper_el s L0) = ["vt__wrapper"]
  ∧ attrs (wrapper_el s L0) !! "data-position" = Some (Settings.position s)
  ∧ childNodes (wrapper_el s L0)
    = (if bool_decide (Settings.position s = "left")
       then [L0 + 1; L0 + 3] else [L0 + 3; L0 + 1]).
Proof.
  unfold wrapper_el. split; [reflexivity|]. split.
  - simpl. by simplify_map_eq.
  - simpl. destruct (String.eqb_spec (Settings.position s) "left").
    + by rewrite bool_decide_eq_true_2.
    + by rewrite bool_decide_eq_false_2.
Qed.

Lemma debug_el_facts tab i ct :
  classList (debug_el tab i ct) = ["vt__debug"]
  ∧ innerHTML (debug_el tab i ct)
    = debug_text i (TabConfig.image tab) (TabConfig.button tab)
  ∧ style (debug_el tab i ct) !! "display" = Some "none".
Proof.
  unfold debug_el. split; [reflexivity|]. split; [reflexivity|].
  simpl. by simplify_map_eq.
Qed.

Lemma slots_lookup tabs refs expected (d : Dom) i tab :
  slots tabs refs expected d → List.length refs = List.length tabs →
  tabs !! i = Some tab →
  ∃ r, refs !! i = Some r ∧ d !! r = Some (expected tab i).
Proof.
  intros H Hlen Ht.
  destruct (lookup_lt_is_Some_2 refs i) as [r Hr].
  { rewrite Hlen. by eapply lookup_lt_Some. }
  exists r. split; [done|]. by eapply H.
Qed.

(** C2. For every configuration with [N] tabs, [N >= 0], the structure
    returned by [createTabElements] has [tabItems], [imageItems] and
    [buttonItems] of length [N], every entry of [buttonItems] being a link
    element of the store also for the tabs without a usable button, and
    [debugItems] of length [0] when debugging is off and [N] when it is on. *)
Theorem createTabElements_lengths (s : Settings.t) (d0 : Dom) :
  let els := (createTabElements s d0).1 in
  let d1 := (createTabElements s d0).2 in
  let N := List.length (Settings.tabs s) in
  List.length (tabItems els) = N
  ∧ List.length (imageItems els) = N
  ∧ List.length (buttonItems els) = N
  ∧ Forall (λ r, ∃ el, d1 !! r = Some el ∧ tagName el = "a") (buttonItems els)
  ∧ List.length (debugItems els) = (if Settings.debug s then N else 0).
Proof.
  intros els d1 N. pose proof (createTabElements_built s d0) as B. fold els d1 in B.
  destruct B as [_ _ _ _ Ht Hi Hb Hd _ _ _ _ _ Sb _ _ _ _ _].
  repeat split; try done.
  apply Forall_lookup. intros i r Hr.
  destruct (lookup_lt_is_Some_2 (Settings.tabs s) i) as [tab Htab].
  { rewrite <- Hb. by eapply lookup_lt_Some. }
  rewrite (Sb i tab r Htab Hr). eexists. split; [done|].
  unfold button_el. simpl. destruct (usable_button tab).
  - apply real_button_facts.
  - apply placeholder_facts.
Qed.
Lemma built_after_selections s (d0 : Dom) els (d1 : Dom) selections r el1 :
  built s d0 els d1 → d1 !! r = Some el1 →
  ∃ el, select_all selections els d1 !! r = Some el ∧ same_but_selection el1 el.
Proof. intros _ Hr. by apply (select_all_selection_only selections els d1). Qed.

(** C4. For every tab: the builder puts a link at its position of
    [buttonItems]. If the tab's button has a non-empty label and a non-empty
    target, the link carries that label and that target, starts with display
    [none], never has a [visibility] declaration, and is displayed
    ([inline-block]) once its tab is selected. Otherwise the link is the
    placeholder: its text is ["Placeholder"], its target is the empty fragment
    ["#"], it starts with display [inline-block], thus present in the layout,
    and keeps [visibility: hidden] through every selection. *)
Theorem createTabElements_button (s : Settings.t) (d0 : Dom)
    (selections : list JSNumber) (i : nat) (tab : TabConfig.t) :
  Settings.tabs s !! i = Some tab →
  let els := (createTabElements s d0).1 in
  let d1 := (createTabElements s d0).2 in
  let d := select_all selections els d1 in
  ∃ r el1 el,
    buttonItems els !! i = Some r ∧ d1 !! r = Some el1 ∧ d !! r = Some el
    ∧ tagName el = "a"
    ∧ (∀ b, TabConfig.button tab = Some b →
            TabButtonConfig.text b ≠ "" → TabButtonConfig.url b ≠ "" →
            props el !! "textContent" = Some (TabButtonConfig.text b)
            ∧ props el !! "href" = Some (TabButtonConfig.url b)
            ∧ style el1 !! "display" = Some "none"
            ∧ style el !! "visibility" = None
            ∧ display r (selectTab (Int (Z.of_nat i)) els d).2 = Some "inline-block"
            ∧ visibility r (selectTab (Int (Z.of_nat i)) els d).2 = None)
    ∧ (¬ (∃ b, TabConfig.button tab = Some b
               ∧ TabButtonConfig.text b ≠ "" ∧ TabButtonConfig.url b ≠ "") →
       props el !! "textContent" = Some "Placeholder"
       ∧ props el !! "href" = Some "#"
       ∧ style el1 !! "display" = Some "inline-block"
       ∧ style el !! "visibility" = Some "hidden").
Proof.
  intros Htab els d1 d. subst d.
  pose proof (createTabElements_built s d0) as B. fold els d1 in B.
  destruct (slots_lookup _ _ _ _ i tab (b_button _ _ _ _ B) (b_len_btn _ _ _ _ B) Htab)
    as (r & Hr & Hel).
  destruct (built_after_selections _ _ _ _ selections _ _ B Hel) as (el & Hd & Hsame).
  destruct (built_select_all _ _ _ _ selections B) as [Hnd Hlt].
  assert (Hrlt : r < List.length (select_all selections els d1)).
  { rewrite Forall_forall in Hlt. apply Hlt. unfold items. rewrite !elem_of_app.
    right. right. left. by eapply list_elem_of_lookup_2. }
  destruct Hsame as [Htag _ Hprops _ _ _ _ Hstyle].
  exists r, (button_el tab (List.length d0 + 3)), el.
  split; [done|]. split; [done|]. split; [done|].
  rewrite Hprops, Htag, Hstyle by done. unfold button_el. simpl.
  split; [|split].
  - destruct (usable_button tab); [apply real_button_facts|apply placeholder_facts].
  - intros b Hb Ht Hu.
    assert (Hus : usable_button tab = Some b) by by apply usable_button_Some.
    rewrite Hus. destruct (real_button_facts b) as (_ & _ & Ftext & Fhref & Fdisp & Fvis).
    repeat split; try done.
    + rewrite (selected_button _ _ _ i) by done. simpl. by rewrite Z.eqb_refl.
    + unfold visibility. rewrite (selectTab_button _ _ _ i) by done. rewrite Hd.
      simpl. rewrite lookup_insert_ne by done. rewrite Hstyle by done.
      unfold button_el. simpl. by rewrite Hus.
  - intros Hno. destruct (usable_button tab) as [b|] eqn:Hus.
    + apply usable_button_Some in Hus. exfalso. apply Hno. by exists b.
    + destruct placeholder_facts as (_ & _ & Ftext & Fhref & Fdisp & Fvis). done.
Qed.

(** Witness of C4: a tab with a usable button, after two selections. *)
Lemma createTabElements_button_witness :
  let s := Settings.mk "#tabs" "left"
             [TabConfig.mk "One" "first" "/one.png" (Some (TabButtonConfig.mk "Go" "/go"));
              TabConfig.mk "Two" "second" "/two.png" None] false in
  let els := (createTabElements s []).1 in
  let d1 := (createTabElements s []).2 in
  let d := select_all [Int 1; Int 0] els d1 in
  ∃ r el1 el,
    buttonItems els !! 1 = Some r ∧ d1 !! r = Some el1 ∧ d !! r = Some el
    ∧ tagName el = "a"
    ∧ (∀ b, None = Some b →
            TabButtonConfig.text b ≠ "" → TabButtonConfig.url b ≠ "" →
            props el !! "textContent" = Some (TabButtonConfig.text b)
            ∧ props el !! "href" = Some (TabButtonConfig.url b)
            ∧ style el1 !! "display" = Some "none"
            ∧ style el !! "visibility" = None
            ∧ display r (selectTab (Int (Z.of_nat 1)) els d).2 = Some "inline-block"
            ∧ visibility r (selectTab (Int (Z.of_nat 1)) els d).2 = None)
    ∧ (¬ (∃ b, None = Some b
               ∧ TabButtonConfig.text b ≠ "" ∧ TabButtonConfig.url b ≠ "") →
       props el !! "textContent" = Some "Placeholder"
       ∧ props el !! "href" = Some "#"
       ∧ style el1 !! "display" = Some "inline-block"
       ∧ style el !! "visibility" = Some "hidden").
Proof.
  intros s els d1 d.
  exact (createTabElements_button s [] [Int 1; Int 0] 1
           (TabConfig.mk "Two" "second" "/two.png" None) eq_refl).
Defined.
(** C5, as the code has it. For every tab under debug mode, the debug panel
    at the tab's position holds the position, the image source and a label:
    the label of the tab's button record whenever the tab has one, also when
    that record's label or target is empty, and the sentinel ["None"] when the
    tab has no button record. The panel starts with display [none]. *)
Theorem createTabElements_debug_panel (s : Settings.t) (d0 : Dom) (i : nat)
    (tab : TabConfig.t) :
  Settings.debug s = true →
  Settings.tabs s !! i = Some tab →
  let els := (createTabElements s d0).1 in
  let d1 := (createTabElements s d0).2 in
  ∃ r el,
    debugItems els !! i = Some r ∧ d1 !! r = Some el
    ∧ classList el = ["vt__debug"]
    ∧ innerHTML el
      = "<strong>Debug Info:</strong><br>Index: " +:+ toString i
          +:+ "<br>Image: " +:+ TabConfig.image tab
          +:+ "<br>Button: "
          +:+ match TabConfig.button tab with
              | Some b => TabButtonConfig.text b
              | None => "None"
              end
    ∧ style el !! "display" = Some "none".
Proof.
  intros Hdbg Htab els d1.
  pose proof (createTabElements_built s d0) as B. fold els d1 in B.
  pose proof (b_len_dbg _ _ _ _ B) as Hlen. rewrite Hdbg in Hlen.
  destruct (slots_lookup _ _ _ _ i tab (b_debug _ _ _ _ B) Hlen Htab) as (r & Hr & Hel).
  exists r, (debug_el tab i (List.length d0 + 3)).
  split; [done|]. split; [done|]. apply debug_el_facts.
Qed.

(** Witness of C5: a debugged tab whose button record has an empty target. *)
Lemma createTabElements_debug_panel_witness :
  let tab := TabConfig.mk "One" "first" "/one.png" (Some (TabButtonConfig.mk "Go" "")) in
  let s := Settings.mk "#tabs" "left" [tab] true in
  let els := (createTabElements s []).1 in
  let d1 := (createTabElements s []).2 in
  ∃ r el,
    debugItems els !! 0 = Some r ∧ d1 !! r = Some el
    ∧ classList el = ["vt__debug"]
    ∧ innerHTML el
      = "<strong>Debug Info:</strong><br>Index: " +:+ toString 0
          +:+ "<br>Image: " +:+ "/one.png"
          +:+ "<br>Button: " +:+ "Go"
    ∧ style el !! "display" = Some "none".
Proof.
  intros tab s els d1.
  exact (createTabElements_debug_panel s [] 0 tab eq_refl eq_refl).
Defined.

(** C5, as stated, fails. The tab below has a button record with a label and
    an empty target: the builder gives it the placeholder link, so it has no
    usable button, yet its debug panel shows the label ["Go"], not the
    sentinel the specification's label would be. *)
Lemma debug_label_counterexample :
  let tab := TabConfig.mk "One" "first" "/one.png" (Some (TabButtonConfig.mk "Go" "")) in
  let s := Settings.mk "#tabs" "left" [tab] true in
  let els := (createTabElements s []).1 in
  let d1 := (createTabElements s []).2 in
  spec_debug_label tab = "None"
  ∧ (∃ r el, buttonItems els !! 0 = Some r ∧ d1 !! r = Some el
             ∧ props el !! "textContent" = Some "Placeholder")
  ∧ ¬ (∃ r el, debugItems els !! 0 = Some r ∧ d1 !! r = Some el
               ∧ innerHTML el
                 = "<strong>Debug Info:</strong><br>Index: " +:+ toString 0
                     +:+ "<br>Image: " +:+ TabConfig.image tab
                     +:+ "<br>Button: " +:+ spec_debug_label tab).
Proof.
  intros tab s els d1. split; [reflexivity|]. split.
  - exists 6, (button_el tab 3). split; [reflexivity|]. split; [reflexivity|].
    apply placeholder_facts.
  - intros (r & el & Hr & Hel & Hhtml).
    assert (r = 7) as -> by (vm_compute in Hr; congruence).
    assert (el = debug_el tab 0 3) as -> by (vm_compute in Hel |- *; congruence).
    vm_compute in Hhtml. discriminate.
Qed.

(** C10. The root wrapper records the position string as it was supplied, in
    its [data-position] attribute; its children are the tabs block and then
    the content block when that string is exactly ["left"], and the content
    block and then the tabs block for every other string. *)
Theorem createTabElements_position (config : VerticalTabsConfig.t) (d0 : Dom) :
  let s := settings_of config in
  let els := (createTabElements s d0).1 in
  let d1 := (createTabElements s d0).2 in
  ∃ el tabsEl tabs content,
    d1 !! wrapper els = Some el
    ∧ parentOf (tabUL els) d1 = Some tabsEl
    ∧ d1 !! tabsEl = Some tabs ∧ classList tabs = ["vt__tabs"]
    ∧ d1 !! contentEl els = Some content ∧ classList content = ["vt__content"]
    ∧ classList el = ["vt__wrapper"]
    ∧ attrs el !! "data-position"
      = Some (default "left" (VerticalTabsConfig.position config))
    ∧ childNodes el
      = (if bool_decide (default "left" (VerticalTabsConfig.position config) = "left")
         then [tabsEl; contentEl els] else [contentEl els; tabsEl]).
Proof.
  intros s els d1.
  pose proof (createTabElements_built s d0) as B. fold els d1 in B.
  destruct (b_content_el _ _ _ _ B) as (content & Hc & Hcl & _ & _).
  exists (wrapper_el s (List.length d0)), (List.length d0 + 1),
    (tabs_el (List.length d0)), content.
  rewrite (b_wrapper _ _ _ _ B), (b_tabUL _ _ _ _ B), (b_contentEl _ _ _ _ B).
  split; [apply B|]. split.
  { unfold parentOf. by rewrite (b_list_el _ _ _ _ B). }
  split; [apply B|]. split; [reflexivity|]. split; [done|]. split; [done|].
  apply (wrapper_el_facts s).
Qed.
(** ** Construction *)

Lemma appendChild_length p c (d : Dom) :
  List.length (appendChild p c d).2 = List.length d.
Proof. unfold appendChild. simpl. destruct (parentOf c d); len. Qed.

Lemma set_nodes_id w : set_nodes (nodes w) w = w.
Proof. by destruct w. Qed.

Lemma nodes_exec_dom {A} (m : DomM A) w : nodes (exec_dom m w) = (m (nodes w)).2.
Proof. unfold exec_dom, run_dom. by destruct (m (nodes w)). Qed.

Lemma nodes_mounted config c w :
  nodes (mounted config c w)
  = (appendChild c (wrapper (createTabElements (settings_of config) (nodes w)).1)
       (createTabElements (settings_of config) (nodes w)).2).2.
Proof.
  unfold mounted, run_dom, attachEventListeners.
  destruct (createTabElements _ _) as [els d1]. unfold exec_dom, run_dom. done.
Qed.

Lemma createVerticalTabs_eq config w c :
  querySelector w (VerticalTabsConfig.container config) = Some c →
  createVerticalTabs config w
  = exec_dom (selectTab (Int 0) (createTabElements (settings_of config) (nodes w)).1)
      (mounted config c w).
Proof.
  intros Hc. unfold createVerticalTabs, mounted. simpl. rewrite Hc.
  unfold run_dom. by destruct (createTabElements _ _).
Qed.

Lemma selectTab_no_items index els (d : Dom) :
  tabItems els = [] → imageItems els = [] → buttonItems els = [] → debugItems els = [] →
  (selectTab index els d).2 = d.
Proof. intros H1 H2 H3 H4. rewrite selectTab_eq, H1, H2, H3, H4. done. Qed.

(** C8. When the container locator resolves, [createVerticalTabs] ends with
    [selectTab(0, elements)] on the mounted widget, whatever the number [N] of
    tabs. Afterwards position [0] is the selected one: with [N > 0] the first
    header is active, the first image, button and (under debug mode) debug
    panel are displayed, and every other entry of the four arrays is inactive
    or has display [none]; with [N = 0] the selection changes nothing. *)
Theorem createVerticalTabs_selects_first (config : VerticalTabsConfig.t) (w : World)
    (c : ref) :
  querySelector w (VerticalTabsConfig.container config) = Some c →
  let els := (createTabElements (settings_of config) (nodes w)).1 in
  let N := List.length (VerticalTabsConfig.tabs config) in
  let w' := createVerticalTabs config w in
  w' = exec_dom (selectTab (Int 0) els) (mounted config c w)
  ∧ shown_at 0 els (nodes w')
  ∧ (0 < N →
     ∃ h img btn,
       tabItems els !! 0 = Some h ∧ is_active h (nodes w') = true
       ∧ imageItems els !! 0 = Some img ∧ display img (nodes w') = Some "block"
       ∧ buttonItems els !! 0 = Some btn ∧ display btn (nodes w') = Some "inline-block"
       ∧ (default false (VerticalTabsConfig.debug config) = true →
          ∃ dbg, debugItems els !! 0 = Some dbg ∧ display dbg (nodes w') = Some "block"))
  ∧ (N = 0 → w' = mounted config c w).
Proof.
  intros Hc els N w'.
  pose proof (createTabElements_built (settings_of config) (nodes w)) as B. fold els in B.
  assert (Heq : w' = exec_dom (selectTab (Int 0) els) (mounted config c w)).
  { by apply createVerticalTabs_eq. }
  assert (Hshown : shown_at 0 els (nodes w')).
  { rewrite Heq, nodes_exec_dom. apply shown_at_selectTab; [apply B|].
    rewrite nodes_mounted, appendChild_length.
    eapply Forall_impl; [apply (b_range _ _ _ _ B)|]. simpl. lia. }
  destruct B as [_ _ _ _ Ht Hi Hb Hd _ _ _ _ _ _ _ _ _ _ _]. simpl in Ht, Hi, Hb, Hd.
  split; [done|]. split; [done|]. split.
  - intros HN. destruct Hshown as (S1 & S2 & S3 & S4).
    destruct (lookup_lt_is_Some_2 (tabItems els) 0) as [h Hh]; [fold N in Ht; lia|].
    destruct (lookup_lt_is_Some_2 (imageItems els) 0) as [img Himg]; [fold N in Hi; lia|].
    destruct (lookup_lt_is_Some_2 (buttonItems els) 0) as [btn Hbtn]; [fold N in Hb; lia|].
    exists h, img, btn.
    rewrite (S1 0 h Hh), (S2 0 img Himg), (S3 0 btn Hbtn). repeat split; try done.
    intros Hdbg. rewrite Hdbg in Hd.
    destruct (lookup_lt_is_Some_2 (debugItems els) 0) as [dbg Hdb]; [fold N in Hd; lia|].
    exists dbg. by rewrite (S4 0 dbg Hdb).
  - intros HN. rewrite Heq. unfold exec_dom, run_dom.
    destruct (selectTab _ _ _) as [u d] eqn:Hsel.
    assert (d = nodes (mounted config c w)) as ->.
    { change d with (u, d).2. rewrite <- Hsel. fold N in Ht, Hi, Hb, Hd.
      apply selectTab_no_items; apply length_zero_iff_nil; try lia.
      destruct (default false _); lia. }
    apply set_nodes_id.
Qed.

(** Witness of C8: a page whose container [#tabs] is its only element. *)
Lemma createVerticalTabs_selects_first_witness :
  let config := VerticalTabsConfig.mk "#tabs" None
                  [TabConfig.mk "One" "first" "/one.png" None;
                   TabConfig.mk "Two" "second" "/two.png" None] None in
  let w := mkWorld [blank "div"] [] [] ∅ 1%positive []
             (λ sel, if String.eqb sel "#tabs" then Some 0 else None) in
  let els := (createTabElements (settings_of config) (nodes w)).1 in
  let w' := createVerticalTabs config w in
  w' = exec_dom (selectTab (Int 0) els) (mounted config 0 w)
  ∧ shown_at 0 els (nodes w')
  ∧ (0 < 2 →
     ∃ h img btn,
       tabItems els !! 0 = Some h ∧ is_active h (nodes w') = true
       ∧ imageItems els !! 0 = Some img ∧ display img (nodes w') = Some "block"
       ∧ buttonItems els !! 0 = Some btn ∧ display btn (nodes w') = Some "inline-block"
       ∧ (false = true →
          ∃ dbg, debugItems els !! 0 = Some dbg ∧ display dbg (nodes w') = Some "block"))
  ∧ (2 = 0 → w' = mounted config 0 w).
Proof.
  intros config w els w'.
  exact (createVerticalTabs_selects_first config w 0 eq_refl).
Defined.
(** ** Timers *)

Section Timers.

Variable Number : string → JSNumber.

Lemma timers_exec_dom {A} (m : DomM A) w :
  timers (exec_dom m w) = timers w ∧ scopes (exec_dom m w) = scopes w
  ∧ next_timer (exec_dom m w) = next_timer w ∧ listeners (exec_dom m w) = listeners w
  ∧ console (exec_dom m w) = console w ∧ querySelector (exec_dom m w) = querySelector w.
Proof. unfold exec_dom, run_dom. by destruct (m (nodes w)). Qed.

Lemma timers_ok_same w w' :
  timers w' = timers w → scopes w' = scopes w → next_timer w' = next_timer w →
  timers_ok w → timers_ok w'.
Proof. unfold timers_ok. intros -> -> ->. done. Qed.

Lemma timers_ok_exec_dom {A} (m : DomM A) w : timers_ok w → timers_ok (exec_dom m w).
Proof. apply timers_ok_same; apply timers_exec_dom. Qed.

Lemma get_intervalId_Some s w id :
  get_intervalId s w = Some id ↔ ∃ sc, scopes w !! s = Some sc ∧ intervalId sc = Some id.
Proof.
  unfold get_intervalId. destruct (scopes w !! s) as [sc|]; simpl.
  - split; [by exists sc|]. by intros (? & [= <-] & ?).
  - split; [done|]. by intros (? & ? & ?).
Qed.

Lemma timers_ok_enter s target w :
  timers_ok w → timers_ok (run_handler Number (HoverEnter s) target w).
Proof.
  intros Hok id t Hid. simpl in *.
  assert (Hold : timers w !! id = Some t ∧ get_intervalId s w ≠ Some id).
  { destruct (get_intervalId s w) as [i|]; simpl in Hid.
    - apply lookup_delete_Some in Hid as [? ?]. split; [done|congruence].
    - done. }
  destruct Hold as [Ht Hne]. destruct (Hok id t Ht) as (Hlt & sc & Hsc & Hint & Hi).
  split.
  { by destruct (get_intervalId s w). }
  exists sc. split; [|done].
  assert (task_scope t ≠ s).
  { intros <-. apply Hne. apply get_intervalId_Some. by exists sc. }
  destruct (get_intervalId s w); simpl; by rewrite list_lookup_alter_ne.
Qed.

Lemma timers_ok_leave s target w :
  timers_ok w → timers_ok (run_handler Number (HoverLeave s) target w).
Proof.
  intros Hok. simpl. destruct (scopes w !! s) as [sc|] eqn:Hs; [|done].
  destruct (intervalId sc) eqn:Hint; [done|].
  intros id t Hid. simpl in *.
  destruct (decide (id = next_timer w)) as [->|Hne].
  - rewrite lookup_insert_eq in Hid. injection Hid as <-. split; [lia|]. simpl.
    rewrite list_lookup_alter_eq, Hs. simpl. by eexists.
  - rewrite lookup_insert_ne in Hid by done.
    destruct (Hok id t Hid) as (Hlt & sc' & Hsc & Hi & Him). split; [lia|].
    exists sc'. split; [|done]. rewrite list_lookup_alter_ne; [done|].
    intros ->. congruence.
Qed.

Lemma timers_ok_handler h target w :
  timers_ok w → timers_ok (run_handler Number h target w).
Proof.
  destruct h as [els|s|s].
  - intros Hok. simpl. repeat case_match; try done. by apply timers_ok_exec_dom.
  - apply timers_ok_enter.
  - apply timers_ok_leave.
Qed.

Lemma timers_ok_handlers hs target w :
  timers_ok w → timers_ok (run_all Number hs target w).
Proof.
  revert w. induction hs as [|h hs IH]; intros w Hok; [done|].
  simpl. apply IH. by apply timers_ok_handler.
Qed.

Lemma timers_ok_dispatch ty bubbles target w :
  timers_ok w → timers_ok (dispatch Number ty bubbles target w).
Proof. apply timers_ok_handlers. Qed.

Lemma timers_ok_createVerticalTabs config w :
  timers_ok w → timers_ok (createVerticalTabs config w).
Proof.
  intros Hok. unfold createVerticalTabs.
  destruct (querySelector w _) as [c|]; [|done].
  unfold run_dom. destruct (createTabElements _ _) as [els d1].
  apply timers_ok_exec_dom. unfold attachEventListeners, addEventListener.
  eapply timers_ok_same; [..|exact Hok]; done.
Qed.

Lemma timers_ok_autoCycleTabs sel interval w :
  timers_ok w → timers_ok (autoCycleTabs sel interval w).2.
Proof.
  intros Hok. unfold autoCycleTabs.
  destruct (querySelector w sel) as [c|]; [|done].
  destruct (querySelectorAll _ _ _) as [|x tabs]; [done|].
  intros id t Hid. simpl in *.
  destruct (decide (id = next_timer w)) as [->|Hne].
  - rewrite lookup_insert_eq in Hid. injection Hid as <-. split; [lia|]. simpl.
    rewrite lookup_snoc_eq by done. by eexists.
  - rewrite lookup_insert_ne in Hid by done.
    destruct (Hok id t Hid) as (Hlt & sc' & Hsc & Hi & Him). split; [lia|].
    exists sc'. split; [|done]. by apply lookup_app_l_Some.
Qed.

Lemma timers_ok_cleanup s w : timers_ok w → timers_ok (cleanup s w).
Proof.
  intros Hok. unfold cleanup. destruct (get_intervalId s w) as [i|]; [|done].
  intros id t Hid. simpl in *. apply lookup_delete_Some in Hid as [? Hid].
  by apply Hok.
Qed.

Lemma timers_ok_timer_fires id w : timers_ok w → timers_ok (timer_fires Number id w).
Proof.
  intros Hok. unfold timer_fires. destruct (timers w !! id) as [task|]; [|done].
  destruct (scopes w !! _) as [sc|]; [|done].
  unfold cycleTabs. destruct (List.length _); [done|].
  destruct (_ !! _); [|done]. simpl. by apply timers_ok_dispatch.
Qed.

Lemma timers_ok_step a w : timers_ok w → timers_ok (step Number a w).
Proof.
  destruct a; simpl.
  - apply timers_ok_createVerticalTabs.
  - apply timers_ok_autoCycleTabs.
  - apply timers_ok_cleanup.
  - apply timers_ok_dispatch.
  - apply timers_ok_dispatch.
  - apply timers_ok_dispatch.
  - apply timers_ok_timer_fires.
Qed.

Lemma timers_ok_run actions w : timers_ok w → timers_ok (run Number actions w).
Proof.
  revert w. induction actions as [|a l IH]; intros w Hok; [done|].
  simpl. apply IH. by apply timers_ok_step.
Qed.

End Timers.
Lemma timers_of_lookup s w id t :
  timers_of s w !! id = Some t ↔ timers w !! id = Some t ∧ task_scope t = s.
Proof. unfold timers_of. by rewrite map_lookup_filter_Some. Qed.

Lemma size_at_most_one (m : gmap positive TimerTask) :
  (∀ i j x y, m !! i = Some x → m !! j = Some y → i = j) → size m ≤ 1.
Proof.
  intros Huniq. destruct (decide (m = ∅)) as [->|Hne].
  - rewrite map_size_empty. lia.
  - destruct (map_choose m Hne) as (i & x & Hix).
    assert (Hdel : delete i m = ∅).
    { apply map_empty. intros j. destruct (decide (i = j)) as [->|Hij].
      - apply lookup_delete_eq.
      - rewrite lookup_delete_ne by done.
        destruct (m !! j) as [y|] eqn:Hj; [|done].
        exfalso. apply Hij. by eapply Huniq. }
    rewrite <- (insert_delete_id m i x Hix), Hdel.
    rewrite insert_empty, map_size_singleton. lia.
Qed.

Lemma timers_ok_fresh_page (d : Dom) resolve : timers_ok (fresh_page d resolve).
Proof. intros id t H. simpl in H. by rewrite lookup_empty in H. Qed.

(** C7. On a page where the window's timers are in order, whatever happens
    next (calls of the two entry points and of cleanup functions, clicks,
    pointer events, timers coming due) and for every activation [s] of
    [autoCycleTabs]:
    at most one repeating timer of [s] is running, and it is the one [s] has
    on record, at the interval [s] was started with;
    the pointer-enter listener of [s] cancels the timer on record and records
    that none is running, so that no timer of [s] is left;
    the pointer-leave listener of [s] starts a timer at the interval of [s],
    under a fresh id that it records, when no timer is recorded as running,
    and changes nothing when one is. *)
Theorem hover_keeps_one_timer (Number : string → JSNumber) (w0 : World)
    (actions : list Action) (s : nat) (target : ref) :
  timers_ok w0 →
  let w := run Number actions w0 in
  let entered := run_handler Number (HoverEnter s) target w in
  let left := run_handler Number (HoverLeave s) target w in
  size (timers_of s w) ≤ 1
  ∧ (∀ id t, timers_of s w !! id = Some t →
             ∃ sc, scopes w !! s = Some sc ∧ intervalId sc = Some id
                   ∧ task_interval t = scope_interval sc)
  ∧ get_intervalId s entered = None
  ∧ timers_of s entered = ∅
  ∧ timers entered = match get_intervalId s w with
                     | Some id => delete id (timers w)
                     | None => timers w
                     end
  ∧ (∀ sc, scopes w !! s = Some sc →
           match intervalId sc with
           | None =>
               timers w !! next_timer w = None
               ∧ timers left = <[next_timer w := mkTimerTask s (scope_interval sc)]> (timers w)
               ∧ get_intervalId s left = Some (next_timer w)
           | Some _ => left = w
           end).
Proof.
  intros Hok0 w entered left.
  assert (Hok : timers_ok w) by by apply timers_ok_run.
  assert (Hrec : ∀ id t, timers_of s w !! id = Some t →
                         ∃ sc, scopes w !! s = Some sc ∧ intervalId sc = Some id
                               ∧ task_interval t = scope_interval sc).
  { intros id t [Ht <-]%timers_of_lookup. by destruct (Hok id t Ht) as [_ ?]. }
  split.
  { apply size_at_most_one. intros i j x y Hi Hj.
    destruct (Hrec i x Hi) as (sc & Hsc & Hid & _).
    destruct (Hrec j y Hj) as (sc' & Hsc' & Hid' & _). congruence. }
  split; [done|].
  assert (Hentered : timers_ok entered) by by apply timers_ok_handler.
  assert (Hnone : get_intervalId s entered = None).
  { unfold entered, get_intervalId. simpl.
    destruct (get_intervalId s w); simpl; rewrite list_lookup_alter_eq;
      by destruct (scopes w !! s). }
  split; [done|]. split.
  { apply map_empty. intros id. destruct (timers_of s entered !! id) as [t|] eqn:Ht; [|done].
    apply timers_of_lookup in Ht as [Ht <-].
    destruct (Hentered id t Ht) as (_ & sc & Hsc & Hid & _).
    assert (get_intervalId (task_scope t) entered = Some id).
    { apply get_intervalId_Some. by exists sc. }
    congruence. }
  split.
  { unfold entered. simpl. by destruct (get_intervalId s w). }
  intros sc Hsc. unfold left. simpl. rewrite Hsc.
  destruct (intervalId sc) eqn:Hint; [done|]. simpl.
  split; [|split; [done|]].
  - destruct (timers w !! next_timer w) as [t|] eqn:Ht; [|done].
    destruct (Hok _ t Ht) as [Hlt _]. lia.
  - unfold get_intervalId. simpl. by rewrite list_lookup_alter_eq, Hsc.
Qed.

(** Witness of C7: a fresh page, a widget, two activations and a burst of
    pointer events. *)
Lemma hover_keeps_one_timer_witness :
  let w0 := fresh_page [blank "div"] (λ sel, if String.eqb sel "#tabs" then Some 0 else None) in
  let actions :=
    [CallCreateVerticalTabs
       (VerticalTabsConfig.mk "#tabs" None
          [TabConfig.mk "One" "first" "/one.png" None;
           TabConfig.mk "Two" "second" "/two.png" None] None);
     CallAutoCycleTabs "#tabs" (Some 3000%Z);
     PointerLeave 0; PointerEnter 0; PointerEnter 0; PointerLeave 0; PointerLeave 0;
     CallCleanup 0; PointerLeave 0] in
  let w := run decimal_Number actions w0 in
  let entered := run_handler decimal_Number (HoverEnter 0) 0 w in
  let left := run_handler decimal_Number (HoverLeave 0) 0 w in
  size (timers_of 0 w) ≤ 1
  ∧ (∀ id t, timers_of 0 w !! id = Some t →
             ∃ sc, scopes w !! 0 = Some sc ∧ intervalId sc = Some id
                   ∧ task_interval t = scope_interval sc)
  ∧ get_intervalId 0 entered = None
  ∧ timers_of 0 entered = ∅
  ∧ timers entered = match get_intervalId 0 w with
                     | Some id => delete id (timers w)
                     | None => timers w
                     end
  ∧ (∀ sc, scopes w !! 0 = Some sc →
           match intervalId sc with
           | None =>
               timers w !! next_timer w = None
               ∧ timers left = <[next_timer w := mkTimerTask 0 (scope_interval sc)]> (timers w)
               ∧ get_intervalId 0 left = Some (next_timer w)
           | Some _ => left = w
           end).
Proof.
  intros w0 actions w entered left.
  exact (hover_keeps_one_timer decimal_Number w0 actions 0 0
           (timers_ok_fresh_page _ _)).
Defined.
(** ** Cancellation *)

Lemma handlers_for_elem ty visited ls h :
  h ∈ handlers_for ty visited ls
  ↔ ∃ t, t ∈ visited ∧ (t, h) ∈ ls ∧ event_of h = ty.
Proof.
  unfold handlers_for. rewrite list_elem_of_In, in_flat_map. split.
  - intros (t & Ht%list_elem_of_In & Hh%list_elem_of_In).
    apply list_elem_of_omap in Hh as ([t' h'] & Hin & Hsome). simpl in Hsome.
    case_bool_decide as Hd; [|done]. destruct Hd as [-> <-]. injection Hsome as <-.
    by exists t.
  - intros (t & Ht & Hin & Hev). exists t. rewrite <- !list_elem_of_In. split; [done|].
    apply list_elem_of_omap. exists (t, h). split; [done|]. simpl.
    by rewrite bool_decide_eq_true_2.
Qed.

Section Cancellation.

Variable Number : string → JSNumber.

Lemma enter_other s s' tabs interval id target w :
  s ≠ s' → scope_is s tabs interval id w →
  scope_is s tabs interval id (run_handler Number (HoverEnter s') target w).
Proof.
  intros Hne Hs. unfold scope_is in *. simpl.
  destruct (get_intervalId s' w); simpl; by rewrite list_lookup_alter_ne.
Qed.

Lemma enter_self s tabs interval id target w :
  scope_is s tabs interval id w →
  scope_is s tabs interval None (run_handler Number (HoverEnter s) target w).
Proof.
  intros Hs. unfold scope_is in *. simpl.
  destruct (get_intervalId s w); simpl; by rewrite list_lookup_alter_eq, Hs.
Qed.

Lemma enter_next_timer s target w :
  next_timer (run_handler Number (HoverEnter s) target w) = next_timer w.
Proof. simpl. by destruct (get_intervalId s w). Qed.

Lemma enter_all_keeps s tabs interval target hs w :
  Forall (λ h, event_of h = mouseenter) hs →
  scope_is s tabs interval None w →
  scope_is s tabs interval None (run_all Number hs target w)
  ∧ next_timer (run_all Number hs target w) = next_timer w.
Proof.
  revert w. induction hs as [|h hs IH]; intros w Hall Hs; [done|].
  apply Forall_cons in Hall as [Hh Hall]. simpl.
  destruct h as [|s'|]; try discriminate.
  destruct (IH (run_handler Number (HoverEnter s') target w) Hall) as [H1 H2].
  - destruct (decide (s = s')) as [<-|Hne]; [by eapply enter_self|by apply enter_other].
  - split; [done|]. by rewrite H2, enter_next_timer.
Qed.

Lemma enter_all_resets s tabs interval id target hs w :
  Forall (λ h, event_of h = mouseenter) hs →
  HoverEnter s ∈ hs →
  scope_is s tabs interval id w →
  scope_is s tabs interval None (run_all Number hs target w)
  ∧ next_timer (run_all Number hs target w) = next_timer w.
Proof.
  revert id w. induction hs as [|h hs IH]; intros id w Hall Hin Hs.
  { by apply elem_of_nil in Hin. }
  apply Forall_cons in Hall as [Hh Hall]. simpl.
  destruct h as [|s'|]; try discriminate.
  destruct (decide (s = s')) as [<-|Hne].
  - destruct (enter_all_keeps s tabs interval target hs
                (run_handler Number (HoverEnter s) target w) Hall) as [H1 H2].
    { by eapply enter_self. }
    split; [done|]. by rewrite H2, enter_next_timer.
  - apply elem_of_cons in Hin as [Heq|Hin]; [congruence|].
    destruct (IH id (run_handler Number (HoverEnter s') target w) Hall Hin) as [H1 H2].
    { by apply enter_other. }
    split; [done|]. by rewrite H2, enter_next_timer.
Qed.

Lemma leave_keeps_restarted s tabs interval lb s' target w :
  restarted s tabs interval lb w →
  restarted s tabs interval lb (run_handler Number (HoverLeave s') target w).
Proof.
  intros (id & Hs & Ht & Hlt). simpl.
  destruct (scopes w !! s') as [sc|] eqn:Hs'; [|by exists id].
  destruct (intervalId sc) eqn:Hint; [by exists id|].
  assert (s ≠ s').
  { intros <-. unfold scope_is in Hs. rewrite Hs in Hs'. injection Hs' as <-. done. }
  exists id. unfold scope_is in *. simpl. rewrite list_lookup_alter_ne by done.
  split; [done|]. rewrite lookup_insert_ne by lia. split; [done|lia].
Qed.

Lemma leave_all_keeps_restarted s tabs interval lb target hs w :
  Forall (λ h, event_of h = mouseleave) hs →
  restarted s tabs interval lb w →
  restarted s tabs interval lb (run_all Number hs target w).
Proof.
  revert w. induction hs as [|h hs IH]; intros w Hall Hr; [done|].
  apply Forall_cons in Hall as [Hh Hall]. simpl.
  destruct h as [| |s']; try discriminate.
  apply IH; [done|]. by apply leave_keeps_restarted.
Qed.

Lemma leave_all_restarts s tabs interval lb target hs w :
  Forall (λ h, event_of h = mouseleave) hs →
  HoverLeave s ∈ hs →
  scope_is s tabs interval None w → (lb ≤ next_timer w)%positive →
  restarted s tabs interval lb (run_all Number hs target w).
Proof.
  revert w. induction hs as [|h hs IH]; intros w Hall Hin Hs Hlb.
  { by apply elem_of_nil in Hin. }
  apply Forall_cons in Hall as [Hh Hall]. simpl.
  destruct h as [| |s']; try discriminate.
  destruct (decide (s = s')) as [<-|Hne].
  - apply leave_all_keeps_restarted; [done|]. unfold scope_is in Hs. simpl. rewrite Hs. simpl.
    exists (next_timer w). unfold scope_is. simpl.
    rewrite list_lookup_alter_eq, Hs, lookup_insert_eq. split; [done|]. split; [done|lia].
  - apply elem_of_cons in Hin as [Heq|Hin]; [congruence|].
    apply IH; [done..| |].
    + unfold scope_is in *. simpl. destruct (scopes w !! s') as [sc|]; [|done].
      destruct (intervalId sc); [done|]. simpl. by rewrite list_lookup_alter_ne.
    + simpl. destruct (scopes w !! s') as [sc|]; [|done].
      destruct (intervalId sc); [done|]. simpl. lia.
Qed.

End Cancellation.
(** ** One tick *)

Lemma findIndex_from_bounds {A} (p : A → bool) (l : list A) (i : Z) :
  (findIndex_from p l i = -1
   ∨ i ≤ findIndex_from p l i < i + Z.of_nat (List.length l))%Z.
Proof.
  revert i. induction l as [|x l IH]; intros i; simpl; [by left|].
  destruct (p x); [right; lia|]. destruct (IH (i + 1)%Z) as [->|?]; [by left|right; lia].
Qed.

Lemma findIndex_bounds {A} (p : A → bool) (l : list A) :
  (-1 ≤ findIndex p l < Z.of_nat (List.length l))%Z.
Proof. unfold findIndex. destruct (findIndex_from_bounds p l 0) as [->|?]; lia. Qed.

Section Tick.

Variable Number : string → JSNumber.

(** The header [cycleTabs] clicks: the one after the first active header,
    cyclically, and the first header when none is active. *)
Lemma cycleTabs_clicks_next (tabs : list ref) (w : World) :
  tabs ≠ [] →
  let activeIndex := findIndex (λ tab, has_class "active" tab (nodes w)) tabs in
  let N := Z.of_nat (List.length tabs) in
  ∃ tab,
    tabs !! Z.to_nat ((activeIndex + 1) `mod` N) = Some tab
    ∧ cycleTabs Number tabs w = Some (click_on Number tab w).
Proof.
  intros Hne. cbv zeta. unfold cycleTabs.
  pose proof (findIndex_bounds (λ tab, has_class "active" tab (nodes w)) tabs) as Hb.
  set (activeIndex := findIndex _ tabs) in *.
  assert (Hpos : (0 < Z.of_nat (List.length tabs))%Z).
  { destruct tabs; [done|simpl; lia]. }
  set (N := Z.of_nat (List.length tabs)) in *.
  pose proof (Z.mod_pos_bound (activeIndex + 1) N Hpos) as Hm.
  destruct (lookup_lt_is_Some_2 tabs (Z.to_nat ((activeIndex + 1) `mod` N))) as [tab Htab].
  { unfold N in *. lia. }
  exists tab. split; [done|].
  destruct (List.length tabs) eqn:Hlen; [unfold N in Hpos; lia|].
  rewrite Z.rem_mod_nonneg by lia. by rewrite Htab.
Qed.

End Tick.
Section CleanupClaim.

Variable Number : string → JSNumber.

Lemma listeners_run_handler h target w :
  listeners (run_handler Number h target w) = listeners w.
Proof.
  destruct h as [els|s|s]; simpl.
  - repeat case_match; try done. apply timers_exec_dom.
  - by destruct (get_intervalId s w).
  - destruct (scopes w !! s) as [sc|]; [|done]. by destruct (intervalId sc).
Qed.

Lemma listeners_run_all hs target w :
  listeners (run_all Number hs target w) = listeners w.
Proof.
  revert w. induction hs as [|h hs IH]; intros w; [done|].
  simpl. by rewrite IH, listeners_run_handler.
Qed.

Lemma handlers_for_all ty visited ls :
  Forall (λ h, event_of h = ty) (handlers_for ty visited ls).
Proof. apply Forall_forall. intros h (t & _ & _ & Hev)%handlers_for_elem. done. Qed.

Lemma autoCycleTabs_Some sel interval w0 s w1 :
  autoCycleTabs sel interval w0 = (Some s, w1) →
  ∃ c, querySelector w0 sel = Some c
       ∧ querySelectorAll "vt__list-item" c (nodes w0) ≠ []
       ∧ s = List.length (scopes w0)
       ∧ w1 = mkWorld (nodes w0)
                (listeners w0 ++ [(c, HoverEnter s)] ++ [(c, HoverLeave s)])
                (scopes w0 ++ [mkScope (querySelectorAll "vt__list-item" c (nodes w0))
                                 (default 5000%Z interval) (Some (next_timer w0))])
                (<[next_timer w0 := mkTimerTask s (default 5000%Z interval)]> (timers w0))
                (Pos.succ (next_timer w0)) (console w0) (querySelector w0).
Proof.
  unfold autoCycleTabs. destruct (querySelector w0 sel) as [c|]; [|done].
  destruct (querySelectorAll _ _ _) as [|x tabs] eqn:Htabs; [done|].
  intros [= <- <-]. exists c. split; [done|]. split; [by rewrite Htabs|]. split; [done|].
  unfold addEventListener, set_scopes. simpl. by rewrite <- app_assoc, Htabs.
Qed.

(** C9. After [autoCycleTabs] has started an activation, calling the cleanup
    function it returned clears the running timer but leaves its id on
    record. The cancellation does not last: a later pointer-enter on the
    container resets the record, the pointer-leave that follows starts a new
    repeating timer of the same activation under a new id and at the same
    interval, and when that timer comes due it clicks a header as before. *)
Theorem cleanup_is_not_permanent (sel : string) (interval : option Z)
    (w0 : World) (s : nat) (w1 : World) :
  autoCycleTabs sel interval w0 = (Some s, w1) →
  ∃ c id,
    querySelector w0 sel = Some c
    ∧ timers w1 !! id = Some (mkTimerTask s (default 5000%Z interval))
    ∧ get_intervalId s w1 = Some id
    ∧ let w2 := step Number (CallCleanup s) w1 in
      timers w2 !! id = None
      ∧ get_intervalId s w2 = Some id
      ∧ let w3 := step Number (PointerEnter c) w2 in
        get_intervalId s w3 = None
        ∧ let w4 := step Number (PointerLeave c) w3 in
          ∃ id' tab,
            id' ≠ id
            ∧ get_intervalId s w4 = Some id'
            ∧ timers w4 !! id' = Some (mkTimerTask s (default 5000%Z interval))
            ∧ tab ∈ querySelectorAll "vt__list-item" c (nodes w0)
            ∧ step Number (TimerFires id') w4 = click_on Number tab w4.
Proof.
  intros (c & Hc & Htabs & Hs & Hw1)%autoCycleTabs_Some.
  set (tabs := querySelectorAll "vt__list-item" c (nodes w0)) in *.
  set (I := default 5000%Z interval) in *.
  set (id := next_timer w0) in *.
  exists c, id.
  assert (Hsc1 : scope_is s tabs I (Some id) w1).
  { unfold scope_is. rewrite Hw1. simpl. by rewrite lookup_snoc_eq. }
  assert (Hget1 : get_intervalId s w1 = Some id).
  { unfold get_intervalId. by rewrite Hsc1. }
  split; [done|]. split; [rewrite Hw1; simpl; apply lookup_insert_eq|]. split; [done|].
  simpl. unfold cleanup. rewrite Hget1.
  set (w2 := clearInterval (Some id) w1).
  assert (Hsc2 : scope_is s tabs I (Some id) w2) by done.
  split; [apply lookup_delete_eq|]. split; [done|].
  set (w3 := dispatch Number mouseenter false c w2).
  assert (Hin2 : HoverEnter s ∈ handlers_for mouseenter [c] (listeners w2)).
  { apply handlers_for_elem. exists c. split; [by apply list_elem_of_singleton|].
    split; [|done]. unfold w2. rewrite Hw1. simpl. rewrite !elem_of_app, !elem_of_cons. auto. }
  assert (H3 : scope_is s tabs I None w3 ∧ next_timer w3 = Pos.succ id).
  { destruct (enter_all_resets Number s tabs I (Some id) c _ w2
                (handlers_for_all _ _ _) Hin2 Hsc2) as [H1 H2].
    split; [done|]. unfold w3, dispatch. rewrite H2. unfold w2. by rewrite Hw1. }
  destruct H3 as [Hsc3 Hnext3].
  split; [unfold get_intervalId; by rewrite Hsc3|].
  change (dispatch Number mouseleave false c w3)
    with (run_all Number (handlers_for mouseleave [c] (listeners w3)) c w3).
  set (w4 := run_all Number (handlers_for mouseleave [c] (listeners w3)) c w3).
  assert (Hin3 : HoverLeave s ∈ handlers_for mouseleave [c] (listeners w3)).
  { apply handlers_for_elem. exists c. split; [by apply list_elem_of_singleton|].
    split; [|done]. unfold w3, dispatch. rewrite listeners_run_all.
    unfold w2. rewrite Hw1. simpl. rewrite !elem_of_app, !elem_of_cons. auto. }
  assert (Hlb : (Pos.succ id ≤ next_timer w3)%positive) by lia.
  destruct (leave_all_restarts Number s tabs I (Pos.succ id) c _ w3
              (handlers_for_all _ _ _) Hin3 Hsc3 Hlb) as (id' & Hsc4 & Ht4 & Hlt).
  fold w4 in Hsc4, Ht4, Hlt.
  destruct (cycleTabs_clicks_next Number tabs w4 Htabs) as (tab & Htab & Hcycle).
  exists id', tab. split; [lia|]. split; [unfold get_intervalId; by rewrite Hsc4|].
  split; [done|]. split; [by eapply list_elem_of_lookup_2|].
  unfold timer_fires. rewrite Ht4. simpl. rewrite Hsc4. simpl. by rewrite Hcycle.
Qed.

End CleanupClaim.

(** Witness of C9: a two-tab widget on a fresh page, cycling every second. *)
Lemma cleanup_is_not_permanent_witness :
  let page := fresh_page [blank "div"]
                (λ sel, if String.eqb sel "#tabs" then Some 0 else None) in
  let config := VerticalTabsConfig.mk "#tabs" None
                  [TabConfig.mk "One" "first" "/one.png" None;
                   TabConfig.mk "Two" "second" "/two.png" None] None in
  let w0 := createVerticalTabs config page in
  let w1 := (autoCycleTabs "#tabs" (Some 1000%Z) w0).2 in
  ∃ c id,
    querySelector w0 "#tabs" = Some c
    ∧ timers w1 !! id = Some (mkTimerTask 0 1000%Z)
    ∧ get_intervalId 0 w1 = Some id
    ∧ let w2 := step decimal_Number (CallCleanup 0) w1 in
      timers w2 !! id = None
      ∧ get_intervalId 0 w2 = Some id
      ∧ let w3 := step decimal_Number (PointerEnter c) w2 in
        get_intervalId 0 w3 = None
        ∧ let w4 := step decimal_Number (PointerLeave c) w3 in
          ∃ id' tab,
            id' ≠ id
            ∧ get_intervalId 0 w4 = Some id'
            ∧ timers w4 !! id' = Some (mkTimerTask 0 1000%Z)
            ∧ tab ∈ querySelectorAll "vt__list-item" c (nodes w0)
            ∧ step decimal_Number (TimerFires id') w4 = click_on decimal_Number tab w4.
Proof.
  intros page config w0 w1.
  exact (cleanup_is_not_permanent decimal_Number "#tabs" (Some 1000%Z) w0 0 w1
           ltac:(vm_compute; reflexivity)).
Defined.
(** ** The delegated click listener *)

Lemma closest_None cls target (d : Dom) :
  closest cls target d = None
  ↔ Forall (λ r, has_class cls r d = false) (path target d).
Proof.
  unfold closest. rewrite Forall_forall. split.
  - intros H r Hr%list_elem_of_In. by eapply find_none in H.
  - intros H. destruct (List.find _ _) as [r|] eqn:Hf; [|done].
    apply find_some in Hf as [Hin%list_elem_of_In Hc]. rewrite (H r Hin) in Hc. done.
Qed.

Lemma find_first {A} (p : A → bool) (l : list A) (x : A) :
  List.find p l = Some x
  ↔ ∃ before after, l = before ++ x :: after ∧ p x = true
                    ∧ Forall (λ y, p y = false) before.
Proof.
  induction l as [|y l IH]; simpl.
  - split; [done|]. intros (before & after & H & _). by destruct before.
  - destruct (p y) eqn:Hy.
    + split.
      * intros [= <-]. exists [], l. done.
      * intros ([|z before] & after & H & Hx & Hb).
        -- by injection H as <- _.
        -- injection H as <- _. apply Forall_cons in Hb as [Hz _]. congruence.
    + rewrite IH. split.
      * intros (before & after & -> & Hx & Hb). exists (y :: before), after.
        split; [done|]. split; [done|]. by constructor.
      * intros ([|z before] & after & H & Hx & Hb).
        -- injection H as <- _. congruence.
        -- injection H as <- ->. apply Forall_cons in Hb as [_ Hb].
           by exists before, after.
Qed.

Lemma closest_Some cls target (d : Dom) tabEl :
  closest cls target d = Some tabEl
  ↔ ∃ before after,
      path target d = before ++ tabEl :: after
      ∧ has_class cls tabEl d = true
      ∧ Forall (λ r, has_class cls r d = false) before.
Proof. unfold closest. apply (find_first (λ r, has_class cls r d)). Qed.

(** C6. The listener of the tab list, for a click at [target]: if no element
    on the path from the target upwards is a header, the world stays as it
    is, console included; the same when the nearest header stores no index or
    an empty one, or an index that [Number] turns into [NaN]; in every other
    case the listener runs [selectTab] with the number and logs nothing. *)
Theorem click_listener_ignores_or_selects (Number : string → JSNumber)
    (els : TabElements) (target : ref) (w : World) :
  let d := nodes w in
  let w' := run_handler Number (TabListClick els) target w in
  (Forall (λ r, has_class "vt__list-item" r d = false) (path target d) → w' = w)
  ∧ (∀ tabEl, nearest_header target tabEl d →
       match stored_index tabEl d with
       | None => w' = w
       | Some indexStr =>
           if bool_decide (indexStr = "") then w' = w
           else if isNaN (Number indexStr) then w' = w
           else w' = exec_dom (selectTab (Number indexStr) els) w
                ∧ console w' = console w
       end).
Proof.
  intros d w'. split.
  - intros Hnone%closest_None. unfold w'. simpl. fold d. by rewrite Hnone.
  - intros tabEl Hnear%closest_Some. unfold w'. simpl. fold d. rewrite Hnear.
    destruct (stored_index tabEl d) as [indexStr|]; [|done].
    unfold truthy. destruct (String.eqb_spec indexStr "") as [->|Hne]; simpl.
    + done.
    + rewrite bool_decide_eq_false_2 by done.
      destruct (isNaN (Number indexStr)); [done|]. split; [done|].
      apply timers_exec_dom.
Qed.
(** ** Clicking a header *)

Lemma toString_nonempty n : toString n ≠ "".
Proof.
  unfold toString. intros H.
  destruct (NilZero.usu_gen (Nat.to_uint n)) as [Hu|Hu]; rewrite H in Hu; done.
Qed.

Lemma decimal_Number_toString n : decimal_Number (toString n) = Int (Z.of_nat n).
Proof.
  unfold decimal_Number, toString. pose proof (DecimalNat.Unsigned.of_to n) as Hn.
  destruct (Nat.to_uint n) eqn:E.
  - simpl in *. by subst.
  - rewrite NilZero.usu by done. by rewrite Hn.
  - rewrite NilZero.usu by done. by rewrite Hn.
  - rewrite NilZero.usu by done. by rewrite Hn.
  - rewrite NilZero.usu by done. by rewrite Hn.
  - rewrite NilZero.usu by done. by rewrite Hn.
  - rewrite NilZero.usu by done. by rewrite Hn.
  - rewrite NilZero.usu by done. by rewrite Hn.
  - rewrite NilZero.usu by done. by rewrite Hn.
  - rewrite NilZero.usu by done. by rewrite Hn.
  - rewrite NilZero.usu by done. by rewrite Hn.
Qed.

Lemma path_head r (d : Dom) el :
  d !! r = Some el → ∃ rest, path r d = r :: rest.
Proof.
  intros Hr. unfold path. pose proof (lookup_lt_Some _ _ _ Hr) as Hlt.
  destruct (List.length d) as [|n]; [lia|]. simpl. rewrite Hr. by eexists.
Qed.

Lemma path_parent r (d : Dom) el p :
  d !! r = Some el → parentNode el = Some p → is_Some (d !! p) → p ∈ path r d.
Proof.
  intros Hr Hp [pel Hpel]. unfold path.
  pose proof (lookup_lt_Some _ _ _ Hr) as Hlt.
  pose proof (lookup_lt_Some _ _ _ Hpel) as Hlt'.
  destruct (List.length d) as [|[|n]]; [lia| |]; simpl; rewrite Hr, Hp.
  - assert (p = r) as -> by lia. apply list_elem_of_here.
  - rewrite Hpel. apply list_elem_of_further, list_elem_of_here.
Qed.



Section Click.

Variable Number : string → JSNumber.
Hypothesis Number_toString : ∀ n, Number (toString n) = Int (Z.of_nat n).


Lemma exec_selectTab index els w :
  exec_dom (selectTab index els) w = set_nodes (selectTab index els (nodes w)).2 w.
Proof. unfold exec_dom, run_dom. by destruct (selectTab _ _ _). Qed.




(** On a header of a wired widget, every tab-list listener selects the
    header's position in its own widget. *)
Lemma click_listener_on_header els els' j r w :
  wired els w → tabItems els !! j = Some r →
  run_handler Number (TabListClick els') r w
  = exec_dom (selectTab (Int (Z.of_nat j)) els') w.
Proof.
  intros W Hj. destruct (wd_header _ _ W j r Hj) as (el & Hel & Hc & Ha & Hp).
  destruct (path_head r (nodes w) el Hel) as [rest Hpath].
  assert (Hcl : has_class "vt__list-item" r (nodes w) = true).
  { unfold has_class. rewrite Hel. by apply bool_decide_eq_true. }
  simpl. unfold closest. rewrite Hpath. simpl. rewrite Hcl.
  unfold stored_index. rewrite Hel. simpl. rewrite Ha.
  assert (truthy (toString j) = true) as ->.
  { apply truthy_spec, toString_nonempty. }
  simpl. by rewrite Number_toString.
Qed.






End Click.
(** ** Ticks *)




Section Ticks.

Variable Number : string → JSNumber.
Hypothesis Number_toString : ∀ n, Number (toString n) = Int (Z.of_nat n).





End Ticks.
(** ** The mounted widget *)

Lemma nodes_mounted_eq config c page :
  nodes (mounted config c page)
  = alter (add_child (List.length (nodes page))) c
      (alter (set_parentNode (Some c)) (List.length (nodes page))
         (createTabElements (settings_of config) (nodes page)).2).
Proof.
  rewrite nodes_mounted.
  pose proof (createTabElements_built (settings_of config) (nodes page)) as B.
  rewrite (b_wrapper _ _ _ _ B). rewrite appendChild_parentless; [done|].
  unfold parentOf. by rewrite (b_wrapper_el _ _ _ _ B).
Qed.

(** Every element of the store but the wrapper keeps its classes, attributes,
    parent and, unless it is the container, its children when the widget is
    mounted. *)
Lemma mounted_lookup config c page r el :
  r ≠ List.length (nodes page) →
  (createTabElements (settings_of config) (nodes page)).2 !! r = Some el →
  ∃ el', nodes (mounted config c page) !! r = Some el'
         ∧ classList el' = classList el ∧ attrs el' = attrs el
         ∧ parentNode el' = parentNode el
         ∧ childNodes el' = (if decide (r = c)
                             then childNodes el ++ [List.length (nodes page)]
                             else childNodes el).
Proof.
  intros Hr Hel. rewrite nodes_mounted_eq. destruct (decide (r = c)) as [->|Hc].
  - rewrite list_lookup_alter_eq, list_lookup_alter_ne, Hel by done. by eexists.
  - rewrite !list_lookup_alter_ne, Hel by done. by eexists.
Qed.

Lemma mounted_length config c page :
  List.length (nodes (mounted config c page))
  = List.length (createTabElements (settings_of config) (nodes page)).2.
Proof. rewrite nodes_mounted_eq. by rewrite !length_alter. Qed.

Lemma listeners_mounted config c page :
  listeners (mounted config c page)
  = listeners page
    ++ [(tabUL (createTabElements (settings_of config) (nodes page)).1,
         TabListClick (createTabElements (settings_of config) (nodes page)).1)].
Proof.
  unfold mounted, run_dom. destruct (createTabElements _ _) as [els d1].
  unfold attachEventListeners, addEventListener. simpl. done.
Qed.

Lemma header_el_facts tab i ul :
  classList (header_el tab i ul) = ["vt__list-item"]
  ∧ attrs (header_el tab i ul) !! "data-index" = Some (toString i)
  ∧ parentNode (header_el tab i ul) = Some ul
  ∧ childNodes (header_el tab i ul) = [].
Proof.
  unfold header_el. split; [reflexivity|]. split; [|done].
  simpl. apply lookup_insert_eq.
Qed.

Lemma built_item_range s (d0 : Dom) els (d1 : Dom) r :
  built s d0 els d1 → r ∈ items els → List.length d0 + 4 ≤ r < List.length d1.
Proof. intros B Hr. pose proof (b_range _ _ _ _ B) as HR. rewrite Forall_forall in HR. auto. Qed.


(** ** The headers [autoCycleTabs] collects *)

Lemma descendants_leaf fuel r (d : Dom) el :
  d !! r = Some el → childNodes el = [] → descendants fuel r d = [].
Proof. intros Hr Hc. destruct fuel; [done|]. simpl. by rewrite Hr, Hc. Qed.

Lemma flat_map_leaves fuel (d : Dom) (l : list ref) :
  Forall (λ ch, ∃ el, d !! ch = Some el ∧ childNodes el = []) l →
  flat_map (λ ch, ch :: descendants fuel ch d) l = l.
Proof.
  induction 1 as [|ch l (el & Hel & Hc) _ IH]; [done|].
  simpl. by rewrite (descendants_leaf fuel ch d el), IH.
Qed.

Lemma descendants_selection_only fuel r (d d' : Dom) :
  selection_only d d' → descendants fuel r d' = descendants fuel r d.
Proof.
  intros [Hlen Hsel]. revert r. induction fuel as [|fuel IH]; intros r; [done|].
  simpl. destruct (d !! r) as [el|] eqn:Hr.
  - destruct (Hsel r el Hr) as (el' & -> & S). rewrite (sb_childNodes _ _ S).
    induction (childNodes el) as [|ch l IHl]; [done|]. simpl. by rewrite IH, IHl.
  - apply lookup_ge_None in Hr. rewrite lookup_ge_None_2; [done|lia].
Qed.

Lemma has_class_selection_only cls r (d d' : Dom) :
  cls ≠ "active" → selection_only d d' → has_class cls r d' = has_class cls r d.
Proof.
  intros Hcls [Hlen Hsel]. unfold has_class. destruct (d !! r) as [el|] eqn:Hr.
  - destruct (Hsel r el Hr) as (el' & -> & S). unfold classList_contains.
    apply bool_decide_ext. by apply (sb_classes _ _ S).
  - apply lookup_ge_None in Hr. rewrite lookup_ge_None_2; [done|lia].
Qed.

Lemma querySelectorAll_selection_only cls r (d d' : Dom) :
  cls ≠ "active" → selection_only d d' →
  querySelectorAll cls r d' = querySelectorAll cls r d.
Proof.
  intros Hcls Hsel. unfold querySelectorAll.
  rewrite (proj1 Hsel), (descendants_selection_only _ _ d d' Hsel).
  apply filter_ext_in. intros x _. by apply has_class_selection_only.
Qed.

Lemma filter_all {A} (p : A → bool) (l : list A) :
  Forall (λ x, p x = true) l → List.filter p l = l.
Proof. induction 1 as [|x l Hx _ IH]; [done|]. simpl. by rewrite Hx, IH. Qed.

Lemma filter_none {A} (p : A → bool) (l : list A) :
  Forall (λ x, p x = false) l → List.filter p l = [].
Proof. induction 1 as [|x l Hx _ IH]; [done|]. simpl. by rewrite Hx, IH. Qed.

Lemma image_el_facts tab ct :
  classList (image_el tab ct) = ["vt__image"] ∧ childNodes (image_el tab ct) = [].
Proof. done. Qed.

Lemma button_el_facts tab ct :
  classList (button_el tab ct) = ["vt__tab__button"] ∧ childNodes (button_el tab ct) = [].
Proof. unfold button_el. by destruct (usable_button tab). Qed.

Lemma debug_el_tree tab i ct :
  classList (debug_el tab i ct) = ["vt__debug"] ∧ childNodes (debug_el tab i ct) = [].
Proof. done. Qed.

Lemma slots_elem tabs refs expected (d : Dom) r :
  slots tabs refs expected d → List.length refs ≤ List.length tabs → r ∈ refs →
  ∃ tab i, d !! r = Some (expected tab i).
Proof.
  intros H Hlen (i & Hi)%list_elem_of_lookup_1.
  destruct (lookup_lt_is_Some_2 tabs i) as [tab Htab].
  { apply lookup_lt_Some in Hi. lia. }
  exists tab, i. by eapply H.
Qed.

Lemma descendants_S fuel r (d : Dom) :
  descendants (S fuel) r d
  = match d !! r with
    | None => []
    | Some el => flat_map (λ c, c :: descendants fuel c d) (childNodes el)
    end.
Proof. reflexivity. Qed.

Lemma has_class_false cls r (d : Dom) el :
  d !! r = Some el → cls ∉ classList el → has_class cls r d = false.
Proof.
  intros Hr Hc. unfold has_class, classList_contains. rewrite Hr.
  by apply bool_decide_eq_false.
Qed.

Lemma has_class_true cls r (d : Dom) el :
  d !! r = Some el → cls ∈ classList el → has_class cls r d = true.
Proof.
  intros Hr Hc. unfold has_class, classList_contains. rewrite Hr.
  by apply bool_decide_eq_true.
Qed.

(** In an empty container, the headers under the container are the headers
    of the widget mounted there, in order. *)
Lemma mounted_headers config c page cel :
  nodes page !! c = Some cel → childNodes cel = [] →
  querySelectorAll "vt__list-item" c (nodes (mounted config c page))
  = tabItems (createTabElements (settings_of config) (nodes page)).1.
Proof.
  intros Hcel Hempty.
  pose proof (createTabElements_built (settings_of config) (nodes page)) as B.
  set (s := settings_of config) in *.
  set (els := (createTabElements s (nodes page)).1) in *.
  set (d1 := (createTabElements s (nodes page)).2) in *.
  pose proof (b_wrapper_el _ _ _ _ B) as BW. pose proof (b_tabs_el _ _ _ _ B) as BT.
  pose proof (b_list_el _ _ _ _ B) as BU. pose proof (b_content_el _ _ _ _ B) as BC.
  pose proof (b_base _ _ _ _ B) as Bbase.
  pose proof (mounted_length config c page) as Hlen2.
  pose proof (nodes_mounted_eq config c page) as Heq2.
  fold s d1 in Hlen2, Heq2.
  set (L0 := List.length (nodes page)) in *.
  set (d2 := nodes (mounted config c page)) in *.
  assert (HcL : c < L0) by by eapply lookup_lt_Some.
  assert (Hlk : ∀ r el, r ≠ L0 → d1 !! r = Some el →
            ∃ el', d2 !! r = Some el' ∧ classList el' = classList el
                   ∧ childNodes el' = (if decide (r = c) then childNodes el ++ [L0]
                                       else childNodes el)).
  { intros r el Hr Hel. destruct (mounted_lookup config c page r el Hr Hel)
      as (el' & ? & ? & _ & _ & ?). by exists el'. }
  destruct (Hlk c cel ltac:(lia)) as (elc & Hc & _ & Hcc).
  { by rewrite (b_frame _ _ _ _ B). }
  rewrite decide_True, Hempty in Hcc by done. simpl in Hcc.
  assert (HW : ∃ elW, d2 !! L0 = Some elW ∧ classList elW = ["vt__wrapper"]
                      ∧ childNodes elW = childNodes (wrapper_el s L0)).
  { rewrite Heq2, list_lookup_alter_ne, list_lookup_alter_eq, BW by lia. by eexists. }
  destruct HW as (elW & HW & HWc & HWch).
  destruct (Hlk (L0 + 1) _ ltac:(lia) BT) as (elT & HT & HTc & HTch).
  rewrite decide_False in HTch by lia.
  destruct (Hlk (L0 + 2) _ ltac:(lia) BU) as (elU & HU & HUc & HUch).
  rewrite decide_False in HUch by lia.
  destruct BC as (elC0 & HC0 & HC0c & _ & HC0ch).
  destruct (Hlk (L0 + 3) _ ltac:(lia) HC0) as (elC & HC & HCc & HCch).
  rewrite decide_False in HCch by lia.
  assert (Hitem : ∀ r, r ∈ items els → r ≠ L0 ∧ r ≠ c).
  { intros r Hr%(built_item_range _ _ _ _ _ B). fold L0 in Hr. lia. }
  assert (Hli : Forall (λ r, ∃ el, d2 !! r = Some el ∧ childNodes el = []) (tabItems els)
                ∧ Forall (λ r, has_class "vt__list-item" r d2 = true) (tabItems els)).
  { split; apply Forall_forall; intros r Hr.
    - destruct (slots_elem _ _ _ _ r (b_header _ _ _ _ B)) as (tab & i & Hel);
        [by rewrite (b_len_tab _ _ _ _ B)|done|].
      destruct (Hitem r) as [? ?]; [unfold items; rewrite elem_of_app; by left|].
      destruct (Hlk r _ ltac:(done) Hel) as (el' & Hel' & _ & Hch).
      rewrite decide_False in Hch by done. by exists el'.
    - destruct (slots_elem _ _ _ _ r (b_header _ _ _ _ B)) as (tab & i & Hel);
        [by rewrite (b_len_tab _ _ _ _ B)|done|].
      destruct (Hitem r) as [? ?]; [unfold items; rewrite elem_of_app; by left|].
      destruct (Hlk r _ ltac:(done) Hel) as (el' & Hel' & Hcl & _).
      eapply has_class_true; [done|]. rewrite Hcl. apply list_elem_of_here. }
  destruct Hli as [Hli Hlic].
  assert (Hcs : Forall (λ r, ∃ el, d2 !! r = Some el ∧ childNodes el = []) (childNodes elC)
                ∧ Forall (λ r, has_class "vt__list-item" r d2 = false) (childNodes elC)).
  { rewrite HCch. split; (eapply Forall_impl; [exact HC0ch|]); intros r Hr; simpl in Hr.
    - assert (∃ el, d1 !! r = Some el ∧ childNodes el = []) as (el & Hel & Hch).
      { rewrite !elem_of_app in Hr. destruct Hr as [Hr|[Hr|Hr]].
        + destruct (slots_elem _ _ _ _ r (b_image _ _ _ _ B)) as (tab & i & Hel);
            [by rewrite (b_len_img _ _ _ _ B)|done|]. by eexists.
        + destruct (slots_elem _ _ _ _ r (b_button _ _ _ _ B)) as (tab & i & Hel);
            [by rewrite (b_len_btn _ _ _ _ B)|done|].
          eexists. split; [done|]. apply button_el_facts.
        + destruct (slots_elem _ _ _ _ r (b_debug _ _ _ _ B)) as (tab & i & Hel);
            [rewrite (b_len_dbg _ _ _ _ B); destruct (Settings.debug s); lia|done|].
          by eexists. }
      destruct (Hitem r) as [? ?]; [unfold items; rewrite !elem_of_app in *; tauto|].
      destruct (Hlk r _ ltac:(done) Hel) as (el' & Hel' & _ & Hch').
      rewrite decide_False in Hch' by done. exists el'. split; [done|congruence].
    - assert (∃ el, d1 !! r = Some el ∧ "vt__list-item" ∉ classList el) as (el & Hel & Hcl).
      { rewrite !elem_of_app in Hr. destruct Hr as [Hr|[Hr|Hr]].
        + destruct (slots_elem _ _ _ _ r (b_image _ _ _ _ B)) as (tab & i & Hel);
            [by rewrite (b_len_img _ _ _ _ B)|done|].
          eexists. split; [done|]. rewrite (proj1 (image_el_facts _ _)).
          by intros [=]%list_elem_of_singleton.
        + destruct (slots_elem _ _ _ _ r (b_button _ _ _ _ B)) as (tab & i & Hel);
            [by rewrite (b_len_btn _ _ _ _ B)|done|].
          eexists. split; [done|]. rewrite (proj1 (button_el_facts _ _)).
          by intros [=]%list_elem_of_singleton.
        + destruct (slots_elem _ _ _ _ r (b_debug _ _ _ _ B)) as (tab & i & Hel);
            [rewrite (b_len_dbg _ _ _ _ B); destruct (Settings.debug s); lia|done|].
          eexists. split; [done|]. rewrite (proj1 (debug_el_tree _ _ _)).
          by intros [=]%list_elem_of_singleton. }
      destruct (Hitem r) as [? ?]; [unfold items; rewrite !elem_of_app in *; tauto|].
      destruct (Hlk r _ ltac:(done) Hel) as (el' & Hel' & Hcl' & _).
      eapply has_class_false; [done|]. by rewrite Hcl'. }
  destruct Hcs as [Hcs Hcsc].
  assert (HfW : has_class "vt__list-item" L0 d2 = false).
  { eapply has_class_false; [done|]. rewrite HWc. by intros [=]%list_elem_of_singleton. }
  assert (HfT : has_class "vt__list-item" (L0 + 1) d2 = false).
  { eapply has_class_false; [done|]. rewrite HTc. by intros [=]%list_elem_of_singleton. }
  assert (HfU : has_class "vt__list-item" (L0 + 2) d2 = false).
  { eapply has_class_false; [done|]. rewrite HUc. by intros [=]%list_elem_of_singleton. }
  assert (HfC : has_class "vt__list-item" (L0 + 3) d2 = false).
  { eapply has_class_false; [done|]. rewrite HCc, HC0c. by intros [=]%list_elem_of_singleton. }
  unfold querySelectorAll. fold d2.
  assert (Hlen : L0 + 4 ≤ List.length d2) by lia.
  destruct (List.length d2) as [|[|[|[|fuel]]]]; try lia.
  rewrite descendants_S, Hc, Hcc. cbn [flat_map]. rewrite app_nil_r.
  rewrite descendants_S, HW, HWch.
  change (childNodes (wrapper_el s L0))
    with (if String.eqb (Settings.position s) "left"
          then [L0 + 1; L0 + 3] else [L0 + 3; L0 + 1]).
  assert (HdT : descendants (S (S fuel)) (L0 + 1) d2 = (L0 + 2) :: tabItems els).
  { rewrite descendants_S, HT, HTch.
    change (childNodes (tabs_el L0)) with [L0 + 2]. cbn [flat_map]. rewrite app_nil_r.
    rewrite descendants_S, HU, HUch.
    change (childNodes (list_el L0 (tabItems els))) with (tabItems els).
    by rewrite flat_map_leaves. }
  assert (HdC : descendants (S (S fuel)) (L0 + 3) d2 = childNodes elC).
  { rewrite descendants_S, HC. by rewrite flat_map_leaves. }
  destruct (String.eqb _ _); cbn [flat_map]; rewrite HdT, HdC, app_nil_r.
  - cbn [List.filter app]. rewrite HfW, HfT, HfU. rewrite List.filter_app.
    cbn [List.filter]. rewrite HfC.
    by rewrite (filter_all _ _ Hlic), (filter_none _ _ Hcsc), app_nil_r.
  - cbn [List.filter app]. rewrite HfW, HfC. rewrite List.filter_app.
    cbn [List.filter]. rewrite HfT, HfU.
    by rewrite (filter_all _ _ Hlic), (filter_none _ _ Hcsc).
Qed.
(** ** Auto-cycling a mounted widget *)


Section CycleClaim.

Variable Number : string → JSNumber.
Hypothesis Number_toString : ∀ n, Number (toString n) = Int (Z.of_nat n).




End CycleClaim.



(** ** The listeners of 1.0.0 *)

(** The earlier click listener warns where the current one stays silent. *)
Lemma legacy_click_outside_warns (Number : string → JSNumber) els target w :
  closest "vt__list-item" target (nodes w) = None →
  Legacy.click_listener Number els target w = warn "Clicked outside a tab" w.
Proof. intros H. unfold Legacy.click_listener. by rewrite H. Qed.

Lemma legacy_missing_index_errors (Number : string → JSNumber) els target tabEl w :
  closest "vt__list-item" target (nodes w) = Some tabEl →
  stored_index tabEl (nodes w) = None →
  Legacy.click_listener Number els target w = Legacy.error "Invalid tab index:" w.
Proof. intros H1 H2. unfold Legacy.click_listener. by rewrite H1, H2. Qed.

(** The earlier pointer-leave listener starts a timer whatever is on record:
    every pointer-leave adds a running timer to its activation. *)
Lemma legacy_leave_adds_timer s sc w :
  timers_ok w → scopes w !! s = Some sc →
  size (timers_of s (Legacy.hover_leave s w)) = S (size (timers_of s w)).
Proof.
  intros Hok Hs. unfold Legacy.hover_leave, timers_of. rewrite Hs. simpl.
  rewrite map_filter_insert_True by done.
  apply map_size_insert_None. apply map_lookup_filter_None. left.
  destruct (timers w !! next_timer w) as [t|] eqn:Ht; [|done].
  destruct (Hok _ t Ht) as [Hlt _]. lia.
Qed.
(** ** The layout of a built widget *)

Lemma seq_S_map {A} (f : nat → A) (n : nat) :
  map f (seq 0 (S n)) = f 0 :: map (λ j, f (S j)) (seq 0 n).
Proof. simpl. f_equal. rewrite <- seq_shift, map_map. done. Qed.

Lemma flat_map_seq_S {A} (f : nat → list A) (n : nat) :
  flat_map f (seq 0 (S n)) = f 0 ++ flat_map (λ j, f (S j)) (seq 0 n).
Proof. simpl. f_equal. rewrite <- seq_shift, flat_map_concat_map, map_map.
  by rewrite <- flat_map_concat_map. Qed.

Lemma snoc_map_seq {A} (f g : nat → A) (acc : list A) (n : nat) (x : A) :
  x = g 0 → (∀ j, f j = g (S j)) →
  (acc ++ [x]) ++ map f (seq 0 n) = acc ++ map g (seq 0 (S n)).
Proof.
  intros -> H. rewrite seq_S_map, <- app_assoc. simpl. do 2 f_equal. by apply map_ext.
Qed.

Lemma length_step_new dbg tab i ul ct :
  List.length (step_new dbg tab i ul ct) = per_tab dbg.
Proof. by destruct dbg. Qed.

Lemma reduce_from_layout s ul ct rest :
  ∀ i acc (d : Dom), ul < List.length d → ct < List.length d → ul ≠ ct →
  let dbg := Settings.debug s in
  let k := per_tab dbg in
  let L := List.length d in
  let n := List.length rest in
  let res := reduce_from (tab_step s ul ct) rest i acc d in
  List.length res.2 = L + k * n
  ∧ acc_tabItems res.1 = acc_tabItems acc ++ map (λ j, L + k * j) (seq 0 n)
  ∧ acc_imageItems res.1 = acc_imageItems acc ++ map (λ j, L + k * j + 1) (seq 0 n)
  ∧ acc_buttonItems res.1 = acc_buttonItems acc ++ map (λ j, L + k * j + 2) (seq 0 n)
  ∧ acc_debugItems res.1
    = acc_debugItems acc ++ (if dbg then map (λ j, L + k * j + 3) (seq 0 n) else [])
  ∧ children_of ul res.2
    = (λ cs, cs ++ map (λ j, L + k * j) (seq 0 n)) <$> children_of ul d
  ∧ children_of ct res.2
    = (λ cs, cs ++ flat_map (group_at dbg L) (seq 0 n)) <$> children_of ct d
  ∧ parentOf ct res.2 = parentOf ct d
  ∧ (∀ r, r < L → r ≠ ul → r ≠ ct → res.2 !! r = d !! r).
Proof.
  induction rest as [|tab rest IH]; intros i acc d Hul Hct Hne dbg k L n res.
  { unfold res, n, children_of. simpl. rewrite !app_nil_r, Nat.mul_0_r, Nat.add_0_r.
    repeat split; try done.
    - by destruct dbg; rewrite app_nil_r.
    - destruct (d !! ul); simpl; by rewrite ?app_nil_r.
    - destruct (d !! ct); simpl; by rewrite ?app_nil_r. }
  unfold res. cbn [reduce_from].
  erewrite bind_run by (by apply tab_step_eq).
  fold dbg L.
  set (d1 := alter (add_child L) ul (alter (content_update dbg L) ct d)
             ++ step_new dbg tab i ul ct).
  assert (HL1 : List.length d1 = L + k).
  { unfold d1. rewrite length_app, !length_alter, length_step_new. done. }
  destruct (IH (S i) (step_acc dbg L acc) d1 ltac:(lia) ltac:(lia) Hne)
    as (E0 & E1 & E2 & E3 & E4 & E5 & E6 & E7 & E8).
  fold dbg k in E0, E1, E2, E3, E4, E5, E6. rewrite HL1 in E0, E1, E2, E3, E4, E5, E6, E8.
  assert (Hshift : ∀ j, L + k + k * j = L + k * S j) by (intros; lia).
  unfold n. cbn [List.length].
  split; [rewrite E0; lia|].
  split. { rewrite E1. apply snoc_map_seq; [lia|]. intros j. apply Hshift. }
  split. { rewrite E2. apply snoc_map_seq; [lia|]. intros j. by rewrite Hshift. }
  split. { rewrite E3. apply snoc_map_seq; [lia|]. intros j. by rewrite Hshift. }
  split. { rewrite E4. unfold step_acc. cbn [acc_debugItems]. destruct dbg; [|done].
           apply snoc_map_seq; [unfold k; simpl; lia|]. intros j. by rewrite Hshift. }
  split.
  2: split; [|split].
  4:{ intros r Hr Hru Hrc. rewrite E8 by lia. unfold d1. rewrite lookup_app_l by len.
      by rewrite !list_lookup_alter_ne. }
  3:{ rewrite E7. unfold parentOf, d1. rewrite lookup_app_l by len.
      rewrite list_lookup_alter_ne, list_lookup_alter_eq by done.
      destruct (d !! ct) as [el|]; [|done]. unfold content_update. by destruct dbg. }
  - rewrite E5. unfold children_of, d1. rewrite lookup_app_l by len.
    rewrite list_lookup_alter_eq, list_lookup_alter_ne by done.
    destruct (d !! ul) as [el|]; [|done]. cbn [fmap option_fmap option_map add_child set_childNodes childNodes].
    f_equal. apply snoc_map_seq; [lia|]. intros j. apply Hshift.
  - rewrite E6. unfold children_of, d1. rewrite lookup_app_l by len.
    rewrite list_lookup_alter_ne, list_lookup_alter_eq by done.
    destruct (d !! ct) as [el|]; [|done].
    cbn [fmap option_fmap option_map]. f_equal.
    rewrite flat_map_seq_S.
    assert (Hg : ∀ j, group_at dbg (L + k) j = group_at dbg L (S j)).
    { intros j. unfold group_at. fold k. rewrite !Hshift. done. }
    rewrite (flat_map_ext _ _ Hg).
    unfold content_update, group_at. fold k. rewrite Nat.mul_0_r, Nat.add_0_r.
    destruct dbg; simpl; rewrite <- ?app_assoc; done.
Qed.

Lemma appendChild_children p c (d : Dom) r :
  parentOf c d = None → r ≠ p →
  children_of r (appendChild p c d).2 = children_of r d.
Proof.
  intros Hc Hr. rewrite appendChild_parentless by done. unfold children_of. simpl.
  rewrite list_lookup_alter_ne by done.
  destruct (decide (r = c)) as [->|Hrc].
  - rewrite list_lookup_alter_eq. by destruct (d !! c).
  - by rewrite list_lookup_alter_ne.
Qed.

Lemma appendChild_parentOf p c (d : Dom) r :
  parentOf c d = None → r ≠ c → parentOf r (appendChild p c d).2 = parentOf r d.
Proof.
  intros Hc Hr. rewrite appendChild_parentless by done. unfold parentOf. simpl.
  destruct (decide (r = p)) as [->|Hrp].
  - rewrite list_lookup_alter_eq, list_lookup_alter_ne by done. by destruct (d !! p).
  - by rewrite !list_lookup_alter_ne.
Qed.

(** The store on which the [reduce] of [createTabElements] starts, and what
    the steps after the [reduce] keep. *)
Lemma createTabElements_split s (d0 : Dom) :
  let L0 := List.length d0 in
  ∃ dA : Dom,
    List.length dA = L0 + 4
    ∧ children_of (L0 + 2) dA = Some []
    ∧ children_of (L0 + 3) dA = Some []
    ∧ let red := reduce_from (tab_step s (L0 + 2) (L0 + 3)) (Settings.tabs s) 0
                   (mkAcc [] [] [] []) dA in
      (createTabElements s d0).1
      = mkTabElements L0 (L0 + 2) (L0 + 3) (acc_tabItems red.1) (acc_imageItems red.1)
          (acc_debugItems red.1) (acc_buttonItems red.1)
      ∧ List.length (createTabElements s d0).2 = List.length red.2
      ∧ children_of (L0 + 2) (createTabElements s d0).2 = children_of (L0 + 2) red.2
      ∧ children_of (L0 + 3) (createTabElements s d0).2 = children_of (L0 + 3) red.2.
Proof.
  intros L0. unfold createTabElements.
  do 4 (erewrite bind_run by apply createElement_eq).
  erewrite bind_run.
  2:{ apply appendChild_parentless. unfold parentOf. dom_lookup. done. }
  repeat first [rewrite length_app | rewrite length_alter]. simpl List.length.
  rewrite <- ?Nat.add_assoc. cbn [Nat.add]. fold L0.
  set (dA := alter _ (L0 + 1) _).
  exists dA.
  assert (HlenA : List.length dA = L0 + 4) by (unfold dA, L0; len).
  assert (HA1 : parentOf (L0 + 1) dA = None).
  { unfold parentOf, dA, L0. by dom_lookup. }
  assert (HA3 : parentOf (L0 + 3) dA = None).
  { unfold parentOf, dA, L0. by dom_lookup. }
  split; [done|].
  split. { unfold children_of, dA, L0. by dom_lookup. }
  split. { unfold children_of, dA, L0. by dom_lookup. }
  unfold reduce.
  destruct (reduce_from_layout s (L0 + 2) (L0 + 3) (Settings.tabs s) 0 (mkAcc [] [] [] []) dA
              ltac:(lia) ltac:(lia) ltac:(lia)) as (_ & _ & _ & _ & _ & _ & _ & E7 & E8).
  destruct (reduce_from _ _ 0 _ dA) as [acc dB] eqn:Hred.
  rewrite (bind_run _ _ _ _ _ Hred). cbn [fst snd] in *.
  assert (HB1 : parentOf (L0 + 1) dB = None).
  { unfold parentOf. rewrite E8 by lia. exact HA1. }
  assert (HB3 : parentOf (L0 + 3) dB = None) by by rewrite E7.
  set (fin := if String.eqb (Settings.position s) "left" then _ else _).
  assert (Hfin : List.length (fin dB).2 = List.length dB
                 ∧ children_of (L0 + 2) (fin dB).2 = children_of (L0 + 2) dB
                 ∧ children_of (L0 + 3) (fin dB).2 = children_of (L0 + 3) dB).
  { unfold fin. destruct (String.eqb _ _); rewrite seq_run.
    - rewrite !appendChild_length.
      rewrite !appendChild_children; try done; try lia;
        rewrite appendChild_parentOf; try done; lia.
    - rewrite !appendChild_length.
      rewrite !appendChild_children; try done; try lia;
        rewrite appendChild_parentOf; try done; lia. }
  rewrite seq_run. unfold ret. cbn [fst snd]. done.
Qed.

Lemma createTabElements_layout s (d0 : Dom) :
  let els := (createTabElements s d0).1 in
  let d1 := (createTabElements s d0).2 in
  let dbg := Settings.debug s in
  let k := per_tab dbg in
  let B := List.length d0 + 4 in
  let N := List.length (Settings.tabs s) in
  List.length d1 = B + k * N
  ∧ tabItems els = map (λ j, B + k * j) (seq 0 N)
  ∧ imageItems els = map (λ j, B + k * j + 1) (seq 0 N)
  ∧ buttonItems els = map (λ j, B + k * j + 2) (seq 0 N)
  ∧ debugItems els = (if dbg then map (λ j, B + k * j + 3) (seq 0 N) else [])
  ∧ children_of (tabUL els) d1 = Some (tabItems els)
  ∧ children_of (contentEl els) d1 = Some (flat_map (group_at dbg B) (seq 0 N)).
Proof.
  intros els d1 dbg k B N.
  destruct (createTabElements_split s d0) as (dA & HlenA & Hul & Hct & Hels & Hlen & Cul & Cct).
  destruct (reduce_from_layout s (List.length d0 + 2) (List.length d0 + 3) (Settings.tabs s)
              0 (mkAcc [] [] [] []) dA ltac:(lia) ltac:(lia) ltac:(lia))
    as (E0 & E1 & E2 & E3 & E4 & E5 & E6 & _ & _).
  cbn [acc_tabItems acc_imageItems acc_buttonItems acc_debugItems app] in E1, E2, E3, E4.
  rewrite HlenA in E0, E1, E2, E3, E4, E5, E6. fold dbg k B N in E0, E1, E2, E3, E4, E5, E6.
  rewrite Hul in E5. rewrite Hct in E6. simpl in E5, E6.
  fold els in Hels. fold d1 in Hlen, Cul, Cct.
  rewrite Hels. cbn [tabItems imageItems buttonItems debugItems tabUL contentEl].
  rewrite Hlen, Cul, Cct, E1, E2, E3, E4. done.
Qed.

Lemma flat_map_ext_elem {A B} (f g : A → list B) (l : list A) :
  (∀ x, x ∈ l → f x = g x) → flat_map f l = flat_map g l.
Proof.
  induction l as [|x l IH]; intros H; [done|]. simpl.
  rewrite (H x) by apply list_elem_of_here. f_equal. apply IH.
  intros y Hy. apply H. by apply list_elem_of_further.
Qed.

Lemma lookup_map_seq {A} (f : nat → A) (n j : nat) :
  j < n → map f (seq 0 n) !! j = Some (f j).
Proof.
  intros Hj. change (map f (seq 0 n)) with (f <$> seq 0 n).
  rewrite list_lookup_fmap, lookup_seq_lt by done. done.
Qed.

(** X3. [createTabElements] adds to the document and changes nothing that
    was in it: the store it leaves starts with the store it found, followed
    by exactly four elements (wrapper, tabs block, list, content block) and
    three elements for every tab, four under debug mode. The handles it
    returns are pairwise distinct elements among the new ones, and the
    wrapper it returns is attached to nothing. *)
Theorem createTabElements_only_adds (s : Settings.t) (d0 : Dom) :
  let els := (createTabElements s d0).1 in
  let d1 := (createTabElements s d0).2 in
  let N := List.length (Settings.tabs s) in
  let handles := wrapper els :: tabUL els :: contentEl els :: items els in
  List.length d1 = List.length d0 + 4 + (if Settings.debug s then 4 else 3) * N
  ∧ take (List.length d0) d1 = d0
  ∧ NoDup handles
  ∧ Forall (λ r, List.length d0 ≤ r < List.length d1) handles
  ∧ parentOf (wrapper els) d1 = None.
Proof.
  intros els d1 N handles.
  pose proof (createTabElements_built s d0) as B. fold els d1 in B.
  destruct (createTabElements_layout s d0) as (Hlen & _). fold d1 in Hlen.
  pose proof (b_range _ _ _ _ B) as Hrange. rewrite Forall_forall in Hrange.
  split; [exact Hlen|]. split; [|split; [|split]].
  - apply list_eq. intros r. destruct (decide (r < List.length d0)) as [Hr|Hr].
    + rewrite lookup_take_lt by done. by apply B.
    + rewrite lookup_take_ge by lia. symmetry. apply lookup_ge_None_2. lia.
  - unfold handles. rewrite (b_wrapper _ _ _ _ B), (b_tabUL _ _ _ _ B), (b_contentEl _ _ _ _ B).
    repeat (apply NoDup_cons; split); [..|apply B];
      rewrite ?not_elem_of_cons; repeat split; try lia;
      intros Hr%Hrange; lia.
  - unfold handles. rewrite (b_wrapper _ _ _ _ B), (b_tabUL _ _ _ _ B), (b_contentEl _ _ _ _ B).
    pose proof (b_base _ _ _ _ B).
    repeat (apply Forall_cons; split; [lia|]).
    apply Forall_forall. intros r Hr%Hrange. lia.
  - unfold parentOf. rewrite (b_wrapper _ _ _ _ B), (b_wrapper_el _ _ _ _ B). done.
Qed.

(** X4. The order of a built widget in the document: the children of the
    list are the headers, in the order of the tabs; the children of the
    content block are, tab after tab, the image, the button and (under debug
    mode) the debug panel of the tab; every header has the list for parent,
    every image, button and debug panel the content block. *)
Theorem createTabElements_document_order (s : Settings.t) (d0 : Dom) :
  let els := (createTabElements s d0).1 in
  let d1 := (createTabElements s d0).2 in
  let N := List.length (Settings.tabs s) in
  children_of (tabUL els) d1 = Some (tabItems els)
  ∧ children_of (contentEl els) d1 = Some (flat_map (content_group els) (seq 0 N))
  ∧ Forall (λ r, parentOf r d1 = Some (tabUL els)) (tabItems els)
  ∧ Forall (λ r, parentOf r d1 = Some (contentEl els))
           (imageItems els ++ buttonItems els ++ debugItems els).
Proof.
  intros els d1 N.
  pose proof (createTabElements_built s d0) as B. fold els d1 in B.
  destruct (createTabElements_layout s d0) as (_ & E1 & E2 & E3 & E4 & Cul & Cct).
  fold els d1 N in E1, E2, E3, E4, Cul, Cct.
  assert (Hh : ∀ r, r ∈ tabItems els → ∃ tab i, d1 !! r
                 = Some (header_el tab i (List.length d0 + 2))).
  { intros r Hr. by apply (slots_elem (Settings.tabs s) _ _ _ r (b_header _ _ _ _ B));
      [rewrite (b_len_tab _ _ _ _ B)|]. }
  assert (Hi : ∀ r, r ∈ imageItems els → ∃ tab (i : nat), d1 !! r
                 = Some (image_el tab (List.length d0 + 3))).
  { intros r Hr. by apply (slots_elem (Settings.tabs s) _ _ _ r (b_image _ _ _ _ B));
      [rewrite (b_len_img _ _ _ _ B)|]. }
  assert (Hb : ∀ r, r ∈ buttonItems els → ∃ tab (i : nat), d1 !! r
                 = Some (button_el tab (List.length d0 + 3))).
  { intros r Hr. by apply (slots_elem (Settings.tabs s) _ _ _ r (b_button _ _ _ _ B));
      [rewrite (b_len_btn _ _ _ _ B)|]. }
  assert (Hd : ∀ r, r ∈ debugItems els → ∃ tab i, d1 !! r
                 = Some (debug_el tab i (List.length d0 + 3))).
  { intros r Hr. apply (slots_elem (Settings.tabs s) _ _ _ r (b_debug _ _ _ _ B)); [|done].
    rewrite (b_len_dbg _ _ _ _ B). destruct (Settings.debug s); lia. }
  split; [exact Cul|]. split; [|split].
  - rewrite Cct. f_equal. apply flat_map_ext_elem. intros j Hj.
    apply list_elem_of_In, in_seq in Hj.
    unfold group_at, content_group. rewrite E2, E3, E4.
    rewrite !lookup_map_seq by lia. destruct (Settings.debug s).
    + by rewrite lookup_map_seq by lia.
    + done.
  - apply Forall_forall. intros r (tab & i & Hel)%Hh. unfold parentOf.
    rewrite Hel, (b_tabUL _ _ _ _ B). done.
  - apply Forall_forall. intros r. rewrite !elem_of_app. unfold parentOf.
    rewrite (b_contentEl _ _ _ _ B).
    intros [(tab & i & ->)%Hi|[(tab & i & ->)%Hb|(tab & i & ->)%Hd]]; done.
Qed.
(** ** The header and the image of a tab *)

(** X5. For every tab, the builder puts at the tab's position of [tabItems]
    a list item that is a child of the list: its class is [vt__list-item]
    alone when built, and it stores the position, in decimal and never empty,
    in its content attribute [data-index], where [dataset.index] reads it.
    Tag, attribute, parent and class [vt__list-item] stay through every
    selection, and selecting the tab's position makes the header active. *)
Theorem createTabElements_header (s : Settings.t) (d0 : Dom)
    (selections : list JSNumber) (i : nat) (tab : TabConfig.t) :
  Settings.tabs s !! i = Some tab →
  let els := (createTabElements s d0).1 in
  let d1 := (createTabElements s d0).2 in
  let d := select_all selections els d1 in
  ∃ r el1 el,
    tabItems els !! i = Some r ∧ d1 !! r = Some el1 ∧ d !! r = Some el
    ∧ tagName el = "li"
    ∧ classList el1 = ["vt__list-item"] ∧ "vt__list-item" ∈ classList el
    ∧ attrs el !! "data-index" = Some (toString i)
    ∧ stored_index r d = Some (toString i) ∧ toString i ≠ ""
    ∧ parentNode el = Some (tabUL els)
    ∧ is_active r (selectTab (Int (Z.of_nat i)) els d).2 = true.
Proof.
  intros Htab els d1 d.
  pose proof (createTabElements_built s d0) as B. fold els d1 in B.
  destruct (slots_lookup _ _ _ _ i tab (b_header _ _ _ _ B) (b_len_tab _ _ _ _ B) Htab)
    as (r & Hr & Hel).
  destruct (built_after_selections _ _ _ _ selections r _ B Hel) as (el & Hd & S).
  fold d in Hd. destruct S as [St Sa Sp Si Spar Sch Sc Sst].
  destruct (built_select_all _ _ _ _ selections B) as [Hnd Hrange]. fold d in Hrange.
  exists r, (header_el tab i (List.length d0 + 2)), el.
  rewrite St, Sa, Spar, (b_tabUL _ _ _ _ B).
  do 3 (split; [done|]). split; [done|]. split; [done|].
  split. { apply Sc; [done|]. apply list_elem_of_here. }
  split; [apply lookup_insert_eq|].
  split. { unfold stored_index. rewrite Hd. simpl. rewrite Sa. apply lookup_insert_eq. }
  split; [apply toString_nonempty|]. split; [done|].
  rewrite (selected_header _ _ _ i); [|done..|].
  - rewrite strict_eq_Int. by apply bool_decide_eq_true.
  - rewrite Forall_forall in Hrange. apply Hrange. unfold items. rewrite elem_of_app. left.
    by eapply list_elem_of_lookup_2.
Qed.

(** Witness of X5: the second of two tabs, after two selections. *)
Lemma createTabElements_header_witness :
  let s := Settings.mk "#tabs" "left"
             [TabConfig.mk "One" "first" "/one.png" None;
              TabConfig.mk "Two" "<b>second</b>" "/two.png" None] true in
  let els := (createTabElements s []).1 in
  let d1 := (createTabElements s []).2 in
  let d := select_all [Int 0; NaN] els d1 in
  ∃ r el1 el,
    tabItems els !! 1 = Some r ∧ d1 !! r = Some el1 ∧ d !! r = Some el
    ∧ tagName el = "li"
    ∧ classList el1 = ["vt__list-item"] ∧ "vt__list-item" ∈ classList el
    ∧ attrs el !! "data-index" = Some (toString 1)
    ∧ stored_index r d = Some (toString 1) ∧ toString 1 ≠ ""
    ∧ parentNode el = Some (tabUL els)
    ∧ is_active r (selectTab (Int (Z.of_nat 1)) els d).2 = true.
Proof.
  intros s els d1 d.
  exact (createTabElements_header s [] [Int 0; NaN] 1
           (TabConfig.mk "Two" "<b>second</b>" "/two.png" None) eq_refl).
Defined.

(** X6. For every tab, the builder puts at the tab's position of
    [imageItems] an [img] element that is a child of the content block: its
    class is [vt__image], its [src] was assigned the image of the tab as it
    was given, and its inline style is [display: none] alone when built. Tag,
    source and parent stay through every selection; after a selection the
    image of the selected position has display [block] and every other image
    display [none]. *)
Theorem createTabElements_image (s : Settings.t) (d0 : Dom)
    (selections : list JSNumber) (i : nat) (tab : TabConfig.t) :
  Settings.tabs s !! i = Some tab →
  let els := (createTabElements s d0).1 in
  let d1 := (createTabElements s d0).2 in
  let d := select_all selections els d1 in
  ∃ r el1 el,
    imageItems els !! i = Some r ∧ d1 !! r = Some el1 ∧ d !! r = Some el
    ∧ tagName el = "img" ∧ classList el1 = ["vt__image"]
    ∧ props el !! "src" = Some (TabConfig.image tab)
    ∧ style el1 = <["display" := "none"]> ∅
    ∧ parentNode el = Some (contentEl els)
    ∧ ∀ index, display r (selectTab index els d).2
               = Some (if strict_eq i index then "block" else "none").
Proof.
  intros Htab els d1 d.
  pose proof (createTabElements_built s d0) as B. fold els d1 in B.
  destruct (slots_lookup _ _ _ _ i tab (b_image _ _ _ _ B) (b_len_img _ _ _ _ B) Htab)
    as (r & Hr & Hel).
  destruct (built_after_selections _ _ _ _ selections r _ B Hel) as (el & Hd & S).
  fold d in Hd. destruct S as [St Sa Sp Si Spar Sch Sc Sst].
  destruct (built_select_all _ _ _ _ selections B) as [Hnd Hrange]. fold d in Hrange.
  exists r, (image_el tab (List.length d0 + 3)), el.
  rewrite St, Sp, Spar, (b_contentEl _ _ _ _ B).
  do 3 (split; [done|]). do 2 (split; [done|]). split; [apply lookup_insert_eq|].
  split; [by rewrite <- cssText_display_none|]. split; [done|].
  intros index. apply selected_image; [done..|].
  rewrite Forall_forall in Hrange. apply Hrange. unfold items. rewrite !elem_of_app.
  right. left. by eapply list_elem_of_lookup_2.
Qed.

(** Witness of X6: the first of two tabs, after the second was selected. *)
Lemma createTabElements_image_witness :
  let s := Settings.mk "#tabs" "right"
             [TabConfig.mk "One" "first" "/one.png" None;
              TabConfig.mk "Two" "second" "/two.png" None] false in
  let els := (createTabElements s []).1 in
  let d1 := (createTabElements s []).2 in
  let d := select_all [Int 1] els d1 in
  ∃ r el1 el,
    imageItems els !! 0 = Some r ∧ d1 !! r = Some el1 ∧ d !! r = Some el
    ∧ tagName el = "img" ∧ classList el1 = ["vt__image"]
    ∧ props el !! "src" = Some "/one.png"
    ∧ style el1 = <["display" := "none"]> ∅
    ∧ parentNode el = Some (contentEl els)
    ∧ ∀ index, display r (selectTab index els d).2
               = Some (if strict_eq 0 index then "block" else "none").
Proof.
  intros s els d1 d.
  exact (createTabElements_image s [] [Int 1] 0
           (TabConfig.mk "One" "first" "/one.png" None) eq_refl).
Defined.
(** ** Selections do not accumulate *)

Lemma toggle_absorbs (b b' : bool) (cl : list string) :
  cl = ["vt__list-item"] ∨ cl = ["vt__list-item"; "active"] →
  classList_toggle "active" b' (classList_toggle "active" b cl)
  = classList_toggle "active" b' cl
  ∧ (classList_toggle "active" b cl = ["vt__list-item"]
     ∨ classList_toggle "active" b cl = ["vt__list-item"; "active"]).
Proof. intros [-> | ->]; destruct b, b'; vm_compute; auto. Qed.

Lemma set_display_absorbs (v v' : string) (el : Element) :
  set_style <["display" := v']> (set_style <["display" := v]> el)
  = set_style <["display" := v']> el.
Proof. destruct el. unfold set_style. simpl. f_equal. apply insert_insert_eq. Qed.

Lemma selectTab_absorbs (i j : JSNumber) (els : TabElements) (d : Dom) :
  NoDup (items els) →
  (∀ r el, r ∈ tabItems els → d !! r = Some el →
           classList el = ["vt__list-item"] ∨ classList el = ["vt__list-item"; "active"]) →
  (selectTab j els (selectTab i els d).2).2 = (selectTab j els d).2
  ∧ (∀ r el, r ∈ tabItems els → (selectTab i els d).2 !! r = Some el →
             classList el = ["vt__list-item"] ∨ classList el = ["vt__list-item"; "active"]).
Proof.
  intros Hnd Hcl. split.
  - apply list_eq. intros r.
    destruct (decide (r ∈ tabItems els)) as [Ht|Ht].
    { destruct (list_elem_of_lookup_1 _ _ Ht) as [n Hn].
      rewrite !(selectTab_header _ _ _ n r) by done.
      destruct (d !! r) as [el|] eqn:Hel; [|done]. simpl. f_equal.
      destruct (toggle_absorbs (strict_eq n i) (strict_eq n j) (classList el)
                  (Hcl r el Ht Hel)) as [E _].
      destruct el. unfold set_classList. simpl in *. by rewrite E. }
    destruct (decide (r ∈ imageItems els)) as [Hi|Hi].
    { destruct (list_elem_of_lookup_1 _ _ Hi) as [n Hn].
      rewrite !(selectTab_image _ _ _ n r) by done.
      destruct (d !! r) as [el|]; [|done]. simpl. f_equal. apply set_display_absorbs. }
    destruct (decide (r ∈ buttonItems els)) as [Hb|Hb].
    { destruct (list_elem_of_lookup_1 _ _ Hb) as [n Hn].
      rewrite !(selectTab_button _ _ _ n r) by done.
      destruct (d !! r) as [el|]; [|done]. simpl. f_equal. apply set_display_absorbs. }
    destruct (decide (r ∈ debugItems els)) as [Hg|Hg].
    { destruct (list_elem_of_lookup_1 _ _ Hg) as [n Hn].
      rewrite !(selectTab_debug _ _ _ n r) by done.
      destruct (d !! r) as [el|]; [|done]. simpl. f_equal. apply set_display_absorbs. }
    rewrite !selectTab_other; [done|unfold items; rewrite !elem_of_app; tauto..].
  - intros r el Ht. destruct (list_elem_of_lookup_1 _ _ Ht) as [n Hn].
    rewrite (selectTab_header _ _ _ n r) by done.
    destruct (d !! r) as [el0|] eqn:Hel; [|done]. simpl. intros [= <-].
    by destruct (toggle_absorbs (strict_eq n i) true (classList el0) (Hcl r el0 Ht Hel)).
Qed.

Lemma select_all_snoc indices index els (d : Dom) :
  select_all (indices ++ [index]) els d = (selectTab index els (select_all indices els d)).2.
Proof. unfold select_all. by rewrite fold_left_app. Qed.

(** X7. Selections do not accumulate: on a widget as [createTabElements]
    built it, the document after any series of selections followed by
    [selectTab(index, elements)] is the document a single
    [selectTab(index, elements)] leaves on the widget as built, for every
    number [index], integer or not. In particular selecting a position twice
    is the same as selecting it once. *)
Theorem selectTab_last_wins (s : Settings.t) (d0 : Dom)
    (selections : list JSNumber) (index : JSNumber) :
  let els := (createTabElements s d0).1 in
  let d1 := (createTabElements s d0).2 in
  select_all (selections ++ [index]) els d1 = (selectTab index els d1).2
  ∧ (selectTab index els (selectTab index els d1).2).2 = (selectTab index els d1).2.
Proof.
  intros els d1.
  pose proof (createTabElements_built s d0) as B. fold els d1 in B.
  assert (Hnd : NoDup (items els)) by apply B.
  assert (H1 : ∀ r el, r ∈ tabItems els → d1 !! r = Some el →
             classList el = ["vt__list-item"] ∨ classList el = ["vt__list-item"; "active"]).
  { intros r el Hr Hel.
    destruct (slots_elem (Settings.tabs s) _ _ _ r (b_header _ _ _ _ B)) as (tab & i & Hh);
      [by rewrite (b_len_tab _ _ _ _ B)|done|].
    rewrite Hh in Hel. injection Hel as <-. by left. }
  split; [|by apply selectTab_absorbs].
  rewrite select_all_snoc.
  assert (Hgen : ∀ (d : Dom),
            (∀ r el, r ∈ tabItems els → d !! r = Some el →
               classList el = ["vt__list-item"] ∨ classList el = ["vt__list-item"; "active"]) →
            (selectTab index els (select_all selections els d)).2 = (selectTab index els d).2).
  { induction selections as [|i l IH]; intros d Hd; [done|].
    cbn [select_all fold_left]. fold (select_all l els (selectTab i els d).2).
    destruct (selectTab_absorbs i index els d Hnd Hd) as [E Hd'].
    rewrite IH by done. exact E. }
  by apply Hgen.
Qed.
(** ** What selections, clicks and ticks leave alone *)

(** X8. [selectTab] changes the selection state and nothing else, on every
    document and for every four arrays: the document keeps its length;
    every element keeps its tag, content attributes, properties, markup,
    parent and children, every class other than [active] and every style
    declaration other than [display]; and an element that is in none of the
    four arrays stays exactly as it was. *)
Theorem selectTab_changes_selection_only (index : JSNumber) (els : TabElements) (d : Dom) :
  let d' := (selectTab index els d).2 in
  List.length d' = List.length d
  ∧ (∀ r el, d !! r = Some el → ∃ el', d' !! r = Some el' ∧ same_but_selection el el')
  ∧ (∀ r, r ∉ items els → d' !! r = d !! r).
Proof.
  intros d'. destruct (selectTab_selection_only index els d) as [Hlen Hsel].
  split; [done|]. split; [done|].
  intros r. unfold items. rewrite !elem_of_app. intros Hr. unfold d'.
  rewrite selectTab_eq, !each_update_notin; tauto.
Qed.

Section Frames.

Variable Number : string → JSNumber.

Lemma only_selection_refl w : only_selection w w.
Proof. split; [apply selection_only_refl|done]. Qed.

Lemma only_selection_trans w1 w2 w3 :
  only_selection w1 w2 → only_selection w2 w3 → only_selection w1 w3.
Proof.
  intros (S1 & L1 & C1 & T1 & N1 & K1 & Q1) (S2 & L2 & C2 & T2 & N2 & K2 & Q2).
  split; [by eapply selection_only_trans|]. repeat split; congruence.
Qed.

Lemma only_selection_click_handler els target w :
  only_selection w (run_handler Number (TabListClick els) target w).
Proof.
  simpl. repeat case_match; try apply only_selection_refl.
  unfold exec_dom, run_dom. destruct (selectTab _ _ _) as [[] d'] eqn:E.
  split; [|done]. simpl. change d' with ((tt, d').2). rewrite <- E.
  apply selectTab_selection_only.
Qed.

Lemma only_selection_run_all hs target w :
  Forall (λ h, event_of h = click) hs → only_selection w (run_all Number hs target w).
Proof.
  revert w. induction hs as [|h hs IH]; intros w Hall; [apply only_selection_refl|].
  apply Forall_cons in Hall as [Hh Hall]. destruct h as [els| |]; try discriminate.
  change (run_all Number (TabListClick els :: hs) target w)
    with (run_all Number hs target (run_handler Number (TabListClick els) target w)).
  eapply only_selection_trans; [apply only_selection_click_handler|by apply IH].
Qed.

Lemma only_selection_click target w : only_selection w (click_on Number target w).
Proof. apply only_selection_run_all, handlers_for_all. Qed.

Lemma only_selection_timer_fires id w : only_selection w (timer_fires Number id w).
Proof.
  unfold timer_fires.
  destruct (timers w !! id) as [task|]; [|apply only_selection_refl].
  destruct (scopes w !! task_scope task) as [sc|]; [|apply only_selection_refl].
  unfold cycleTabs. destruct (List.length (scope_tabs sc)); [apply only_selection_refl|].
  destruct (scope_tabs sc !! _); [apply only_selection_click|apply only_selection_refl].
Qed.

Lemma click_listener_outside els target w :
  Forall (λ r, has_class "vt__list-item" r (nodes w) = false) (path target (nodes w)) →
  run_handler Number (TabListClick els) target w = w.
Proof. intros H. simpl. by rewrite (proj2 (closest_None _ _ _)). Qed.

End Frames.

(** X9. A click whose target has no header on its path, from the target up
    through its ancestors, leaves the page exactly as it was: whatever
    widgets the page holds and whatever listeners the event meets, nothing is
    selected and nothing is logged. *)
Theorem click_outside_headers_is_inert (Number : string → JSNumber) (target : ref)
    (w : World) :
  Forall (λ r, has_class "vt__list-item" r (nodes w) = false) (path target (nodes w)) →
  click_on Number target w = w.
Proof.
  intros Hout. unfold click_on, dispatch.
  pose proof (handlers_for_all click (path target (nodes w)) (listeners w)) as Hall.
  induction (handlers_for click (path target (nodes w)) (listeners w)) as [|h hs IH];
    [done|].
  apply Forall_cons in Hall as [Hh Hall]. destruct h as [els| |]; try discriminate.
  change (run_all Number (TabListClick els :: hs) target w)
    with (run_all Number hs target (run_handler Number (TabListClick els) target w)).
  rewrite click_listener_outside by done. by apply IH.
Qed.

(** Witness of X9: a click on the first image of a two-tab widget. *)
Lemma click_outside_headers_is_inert_witness :
  let config := VerticalTabsConfig.mk "#tabs" None
                  [TabConfig.mk "One" "first" "/one.png" None;
                   TabConfig.mk "Two" "second" "/two.png" None] None in
  let w := createVerticalTabs config
             (fresh_page [blank "div"]
                (λ sel, if String.eqb sel "#tabs" then Some 0 else None)) in
  click_on decimal_Number 6 w = w.
Proof.
  intros config w.
  exact (click_outside_headers_is_inert decimal_Number 6 w
           ltac:(vm_compute; repeat constructor)).
Defined.

(** X10. Neither a click, on any target, nor a tick of any timer changes
    anything but the selection state of the document: the listeners, the
    activations with their timer records, the running timers, the next timer
    id and the console are as before, the document keeps its elements, and
    each element keeps everything but its [active] class and its [display]
    declaration. In particular a click does not restart or stop the cycle,
    and nothing is ever logged by a click or a tick. *)
Theorem clicks_and_ticks_change_selection_only (Number : string → JSNumber) (w : World) :
  (∀ target, only_selection w (click_on Number target w))
  ∧ (∀ id, only_selection w (timer_fires Number id w)).
Proof.
  split; [intros target; apply only_selection_click|].
  intros id. apply only_selection_timer_fires.
Qed.
(** ** Pages that hold several widgets *)

Lemma widget_ok_selection_only els (d d' : Dom) :
  widget_ok els d → selection_only d d' → widget_ok els d'.
Proof.
  intros [W1 W2 W3 W4] [Hlen Hsel]. split; [done|by rewrite Hlen| |by rewrite Hlen].
  intros i r Hi. destruct (W3 i r Hi) as (el & Hel & Hc & Ha & Hp).
  destruct (Hsel r el Hel) as (el' & Hel' & S).
  exists el'. split; [done|]. destruct S as [_ Sa _ _ Sp _ Sc _].
  rewrite Sa, Sp. split; [by apply Sc|done].
Qed.

Lemma page_ok_only_selection w w' : page_ok w → only_selection w w' → page_ok w'.
Proof.
  intros [P1 P2] (S & L & _). split.
  - intros t els Hin. rewrite L in Hin. destruct (P1 t els Hin) as [-> W].
    split; [done|]. by eapply widget_ok_selection_only.
  - intros t t' els els'. rewrite L. apply P2.
Qed.

Lemma page_ok_same w w' :
  nodes w' = nodes w →
  (∀ t els, (t, TabListClick els) ∈ listeners w' ↔ (t, TabListClick els) ∈ listeners w) →
  page_ok w → page_ok w'.
Proof.
  intros Hn Hl [P1 P2]. split.
  - intros t els Hin%Hl. rewrite Hn. by apply P1.
  - intros t t' els els' H1%Hl H2%Hl. by eapply P2.
Qed.

Lemma page_ok_fresh_page (d : Dom) resolve : page_ok (fresh_page d resolve).
Proof. split; intros; by apply elem_of_nil in H. Qed.

Lemma widget_ok_mounted config c page els' :
  widget_ok els' (nodes page) → widget_ok els' (nodes (mounted config c page)).
Proof.
  intros [W1 W2 W3 W4].
  pose proof (createTabElements_built (settings_of config) (nodes page)) as B.
  pose proof (b_base _ _ _ _ B) as Hbase.
  pose proof (mounted_length config c page) as Hlen.
  rewrite Forall_forall in W2.
  split; [done| | |lia].
  - apply Forall_forall. intros r Hr%W2. lia.
  - intros i r Hi. destruct (W3 i r Hi) as (el & Hel & Hc & Ha & Hp).
    assert (Hr : r < List.length (nodes page)).
    { apply W2. unfold items. rewrite elem_of_app. left. by eapply list_elem_of_lookup_2. }
    destruct (mounted_lookup config c page r el ltac:(lia))
      as (el' & Hel' & Hc' & Ha' & Hp' & _).
    { rewrite (b_frame _ _ _ _ B) by done. done. }
    exists el'. by rewrite Hc', Ha', Hp'.
Qed.

Lemma widget_ok_new config c page :
  widget_ok (createTabElements (settings_of config) (nodes page)).1
            (nodes (mounted config c page)).
Proof.
  pose proof (createTabElements_built (settings_of config) (nodes page)) as B.
  set (els := (createTabElements _ _).1) in *. set (d1 := (createTabElements _ _).2) in *.
  pose proof (mounted_length config c page) as Hlen. fold d1 in Hlen.
  split.
  - apply B.
  - rewrite Hlen. eapply Forall_impl; [apply (b_range _ _ _ _ B)|]. simpl. lia.
  - intros i r Hi.
    assert (Hr : r ∈ items els).
    { unfold items. rewrite elem_of_app. left. by eapply list_elem_of_lookup_2. }
    apply (built_item_range _ _ _ _ _ B) in Hr.
    destruct (lookup_lt_is_Some_2 (Settings.tabs (settings_of config)) i) as [tab Htab].
    { rewrite <- (b_len_tab _ _ _ _ B). by eapply lookup_lt_Some. }
    pose proof (b_header _ _ _ _ B i tab r Htab Hi) as Hel.
    destruct (mounted_lookup config c page r _ ltac:(lia) Hel)
      as (el' & Hel' & Hc & Ha & Hp & _).
    exists el'. split; [done|].
    destruct (header_el_facts tab i (List.length (nodes page) + 2)) as (F1 & F2 & F3 & _).
    rewrite Hc, Ha, Hp, F1, (b_tabUL _ _ _ _ B).
    split; [apply list_elem_of_here|done].
  - rewrite Hlen, (b_tabUL _ _ _ _ B). pose proof (b_base _ _ _ _ B). lia.
Qed.

Lemma page_ok_mounted config c page : page_ok page → page_ok (mounted config c page).
Proof.
  intros [P1 P2].
  pose proof (createTabElements_built (settings_of config) (nodes page)) as B.
  set (els := (createTabElements _ _).1) in *.
  assert (Hnew : ∀ r, r ∈ items els → List.length (nodes page) + 4 ≤ r).
  { intros r Hr. apply (built_item_range _ _ _ _ _ B) in Hr. lia. }
  assert (Hold : ∀ t els', (t, TabListClick els') ∈ listeners page →
                           ∀ r, r ∈ items els' → r < List.length (nodes page)).
  { intros t els' Hin. destruct (P1 t els' Hin) as [_ W]. apply Forall_forall, W. }
  split.
  - intros t els'. rewrite listeners_mounted. fold els.
    rewrite elem_of_app, list_elem_of_singleton. intros [Hin|[= Ht He]].
    + destruct (P1 t els' Hin) as [-> W]. split; [done|]. by apply widget_ok_mounted.
    + subst t els'. split; [done|]. apply widget_ok_new.
  - intros t t' els1 els2. rewrite listeners_mounted. fold els.
    rewrite !elem_of_app, !list_elem_of_singleton.
    intros [H1|[= Ht1 He1]] [H2|[= Ht2 He2]]; subst.
    + by eapply P2.
    + right. intros r Hr Hr'. apply (Hold _ _ H1) in Hr. apply Hnew in Hr'. lia.
    + right. intros r Hr Hr'. apply (Hold _ _ H2) in Hr'. apply Hnew in Hr. lia.
    + by left.
Qed.

Section Pages.

Variable Number : string → JSNumber.

Lemma only_selection_exec_selectTab index els w :
  only_selection w (exec_dom (selectTab index els) w).
Proof.
  rewrite exec_selectTab. split; [|done]. apply selectTab_selection_only.
Qed.

Lemma page_ok_createVerticalTabs config w :
  page_ok w → page_ok (createVerticalTabs config w).
Proof.
  intros P. destruct (querySelector w (VerticalTabsConfig.container config)) as [c|] eqn:Hc.
  - rewrite (createVerticalTabs_eq config w c Hc).
    eapply page_ok_only_selection; [by apply page_ok_mounted|].
    apply only_selection_exec_selectTab.
  - unfold createVerticalTabs. simpl. rewrite Hc. by apply (page_ok_same w).
Qed.

Lemma nodes_hover_handler h target w :
  event_of h ≠ click → nodes (run_handler Number h target w) = nodes w.
Proof.
  destruct h as [els|s|s]; [done| |]; intros _; simpl.
  - by destruct (get_intervalId s w).
  - destruct (scopes w !! s) as [sc|]; [|done]. by destruct (intervalId sc).
Qed.

Lemma nodes_hover_all hs target w :
  Forall (λ h, event_of h ≠ click) hs → nodes (run_all Number hs target w) = nodes w.
Proof.
  revert w. induction hs as [|h hs IH]; intros w Hall; [done|].
  apply Forall_cons in Hall as [Hh Hall].
  change (run_all Number (h :: hs) target w)
    with (run_all Number hs target (run_handler Number h target w)).
  rewrite IH by done. by apply nodes_hover_handler.
Qed.

Lemma page_ok_hover ty target w :
  ty ≠ click → page_ok w → page_ok (dispatch Number ty false target w).
Proof.
  intros Hty P. apply (page_ok_same w); [| |done].
  - unfold dispatch. apply nodes_hover_all.
    eapply Forall_impl; [apply handlers_for_all|]. simpl. congruence.
  - intros t els. unfold dispatch. by rewrite listeners_run_all.
Qed.

Lemma page_ok_autoCycleTabs sel interval w :
  page_ok w → page_ok (autoCycleTabs sel interval w).2.
Proof.
  intros P. destruct (autoCycleTabs sel interval w) as [[s|] w'] eqn:E.
  - apply autoCycleTabs_Some in E as (c & _ & _ & _ & ->). simpl.
    apply (page_ok_same w); [done| |done]. intros t els. simpl.
    rewrite elem_of_app. split; [|auto]. intros [H|H]; [done|].
    repeat (apply elem_of_cons in H as [H|H]; [discriminate|]). by apply elem_of_nil in H.
  - unfold autoCycleTabs in E. apply (page_ok_same w); [| |done].
    + destruct (querySelector w sel); [|by injection E as <-].
      destruct (querySelectorAll _ _ _); [by injection E as <-|done].
    + destruct (querySelector w sel); [|by injection E as <-].
      destruct (querySelectorAll _ _ _); [by injection E as <-|done].
Qed.

Lemma page_ok_step a w : page_ok w → page_ok (step Number a w).
Proof.
  intros P. destruct a as [config|sel interval|s|target|target|target|id]; simpl.
  - by apply page_ok_createVerticalTabs.
  - by apply page_ok_autoCycleTabs.
  - apply (page_ok_same w); [| |done]; unfold cleanup; by destruct (get_intervalId s w).
  - eapply page_ok_only_selection; [done|]. apply only_selection_click.
  - by apply page_ok_hover.
  - by apply page_ok_hover.
  - eapply page_ok_only_selection; [done|]. apply only_selection_timer_fires.
Qed.

Lemma page_ok_run actions w : page_ok w → page_ok (run Number actions w).
Proof.
  revert w. induction actions as [|a l IH]; intros w P; [done|].
  simpl. apply IH. by apply page_ok_step.
Qed.

End Pages.

Section Listeners.

Variable Number : string → JSNumber.

Lemma listeners_step_mono a w t h :
  (t, h) ∈ listeners w → (t, h) ∈ listeners (step Number a w).
Proof.
  intros Hin. destruct a as [config|sel interval|s|target|target|target|id]; simpl.
  - destruct (querySelector w (VerticalTabsConfig.container config)) as [c|] eqn:Hc.
    + rewrite (createVerticalTabs_eq config w c Hc), exec_selectTab. simpl.
      rewrite listeners_mounted, elem_of_app. by left.
    + unfold createVerticalTabs. simpl. by rewrite Hc.
  - destruct (autoCycleTabs sel interval w) as [[s|] w'] eqn:E.
    + apply autoCycleTabs_Some in E as (c & _ & _ & _ & ->). simpl.
      rewrite elem_of_app. by left.
    + unfold autoCycleTabs in E.
      destruct (querySelector w sel); [|by injection E as <-].
      destruct (querySelectorAll _ _ _); [by injection E as <-|done].
  - unfold cleanup. by destruct (get_intervalId s w).
  - unfold click_on, dispatch. by rewrite listeners_run_all.
  - unfold dispatch. by rewrite listeners_run_all.
  - unfold dispatch. by rewrite listeners_run_all.
  - destruct (only_selection_timer_fires Number id w) as (_ & -> & _). done.
Qed.

Lemma listeners_run_mono actions w t h :
  (t, h) ∈ listeners w → (t, h) ∈ listeners (run Number actions w).
Proof.
  revert w. induction actions as [|a l IH]; intros w Hin; [done|].
  simpl. apply IH. by apply listeners_step_mono.
Qed.

Lemma listener_created config w c :
  querySelector w (VerticalTabsConfig.container config) = Some c →
  let els := (createTabElements (settings_of config) (nodes w)).1 in
  (tabUL els, TabListClick els) ∈ listeners (createVerticalTabs config w).
Proof.
  intros Hc els. rewrite (createVerticalTabs_eq config w c Hc), exec_selectTab. simpl.
  rewrite listeners_mounted, elem_of_app, list_elem_of_singleton. by right.
Qed.

Lemma click_listener_cases els target w :
  run_handler Number (TabListClick els) target w = w
  ∨ ∃ index, run_handler Number (TabListClick els) target w
             = exec_dom (selectTab index els) w.
Proof. simpl. repeat case_match; eauto. Qed.

Lemma shown_at_frame z els (d d' : Dom) :
  (∀ r, r ∈ items els → d' !! r = d !! r) → shown_at z els d → shown_at z els d'.
Proof.
  intros Hf (S1 & S2 & S3 & S4). unfold items in Hf.
  setoid_rewrite elem_of_app in Hf. setoid_rewrite elem_of_app in Hf.
  setoid_rewrite elem_of_app in Hf.
  repeat split; intros i r Hi; pose proof (list_elem_of_lookup_2 _ _ _ Hi) as Hr.
  - rewrite <- (S1 i r Hi). unfold is_active, has_class. rewrite Hf; auto.
  - rewrite <- (S2 i r Hi). unfold display. rewrite Hf; auto.
  - rewrite <- (S3 i r Hi). unfold display. rewrite Hf; auto.
  - rewrite <- (S4 i r Hi). unfold display. rewrite Hf; auto.
Qed.

(** The listeners of widgets other than [els] leave the elements of [els]
    as they are. *)
Lemma click_run_all_frame els t hs target w :
  page_ok w → (t, TabListClick els) ∈ listeners w →
  Forall (λ h, ∃ t', (t', h) ∈ listeners w ∧ event_of h = click ∧ t' ≠ tabUL els) hs →
  ∀ r, r ∈ items els → nodes (run_all Number hs target w) !! r = nodes w !! r.
Proof.
  revert w. induction hs as [|h hs IH]; intros w P Hin Hall r Hr; [done|].
  apply Forall_cons in Hall as [(t' & Hh & Hev & Hne) Hall].
  destruct h as [els'| |]; try discriminate.
  change (run_all Number (TabListClick els' :: hs) target w)
    with (run_all Number hs target (run_handler Number (TabListClick els') target w)).
  pose proof (only_selection_click_handler Number els' target w) as Hos.
  set (w1 := run_handler Number (TabListClick els') target w) in *.
  assert (HL : listeners w1 = listeners w) by apply Hos.
  rewrite IH; [|by eapply page_ok_only_selection|by rewrite HL|by rewrite HL|done].
  destruct P as [P1 P2]. destruct (P1 t' els' Hh) as [-> _].
  destruct (P2 _ _ els els' Hin Hh) as [->|Hdis]; [done|].
  unfold w1. destruct (click_listener_cases els' target w) as [->|[index ->]]; [done|].
  rewrite exec_selectTab. simpl. apply selectTab_other. by apply Hdis.
Qed.

End Listeners.

Section Selecting.

Variable Number : string → JSNumber.
Hypothesis Number_toString : ∀ n, Number (toString n) = Int (Z.of_nat n).

Lemma wired_of_page_ok w t els :
  page_ok w → (t, TabListClick els) ∈ listeners w → wired els w.
Proof.
  intros [P1 P2] Hin. destruct (P1 t els Hin) as [-> [W1 W2 W3 W4]].
  split; [done|done|by apply lookup_lt_is_Some_2|done|].
  intros t' els' Hin'. destruct (P2 _ _ els els' Hin Hin') as [->|Hdis]; [by left|].
  right. intros r Hr Hr'. apply (Hdis r); unfold items; rewrite elem_of_app; by left.
Qed.

Lemma click_run_all_shown els j r hs w :
  page_ok w → (tabUL els, TabListClick els) ∈ listeners w → tabItems els !! j = Some r →
  Forall (λ h, ∃ t', (t', h) ∈ listeners w ∧ event_of h = click) hs →
  TabListClick els ∈ hs ∨ shown_at (Z.of_nat j) els (nodes w) →
  shown_at (Z.of_nat j) els (nodes (run_all Number hs r w)).
Proof.
  revert w. induction hs as [|h hs IH]; intros w P Hin Hj Hall Hor.
  { destruct Hor as [H|H]; [by apply elem_of_nil in H|done]. }
  apply Forall_cons in Hall as [(t' & Hh & Hev) Hall].
  destruct h as [els'| |]; try discriminate.
  change (run_all Number (TabListClick els' :: hs) r w)
    with (run_all Number hs r (run_handler Number (TabListClick els') r w)).
  pose proof (only_selection_click_handler Number els' r w) as Hos.
  rewrite (click_listener_on_header Number Number_toString els els' j r w
             (wired_of_page_ok _ _ _ P Hin) Hj) in *.
  set (w1 := exec_dom (selectTab (Int (Z.of_nat j)) els') w) in *.
  assert (HL : listeners w1 = listeners w) by apply Hos.
  apply IH; [by eapply page_ok_only_selection|by rewrite HL|done|by rewrite HL|].
  destruct P as [P1 P2]. destruct (P1 _ els Hin) as [_ [W1 W2 _ _]].
  destruct (P2 _ _ els els' Hin Hh) as [<-|Hdis].
  - right. unfold w1. rewrite exec_selectTab. simpl. by apply shown_at_selectTab.
  - destruct Hor as [Hm|Hs].
    + left. apply elem_of_cons in Hm as [[= <-]|Hm]; [|done].
      exfalso. apply (Hdis r); unfold items; rewrite elem_of_app; left;
        by eapply list_elem_of_lookup_2.
    + right. eapply shown_at_frame; [|done]. intros r0 Hr0. unfold w1.
      rewrite exec_selectTab. simpl. apply selectTab_other. by apply Hdis.
Qed.

(** X11. A click on a header selects its position, on every page: for a
    widget created at any moment of the life of a page, whatever happened on
    the page before and after (other widgets created, in any container,
    cycles started and cleaned up, clicks, pointer moves, ticks), a click on
    the header at position [j] leaves header [j] the only active one and the
    image, button and debug panel at [j] the only ones displayed, given that
    [Number] reads the decimal digits [createTabItem] stored. *)
Theorem click_on_header_selects (d : Dom) (resolve : string → option ref)
    (before after : list Action) (config : VerticalTabsConfig.t) (c : ref)
    (j : nat) (r : ref) :
  let w0 := run Number before (fresh_page d resolve) in
  querySelector w0 (VerticalTabsConfig.container config) = Some c →
  let els := (createTabElements (settings_of config) (nodes w0)).1 in
  tabItems els !! j = Some r →
  let w := run Number after (createVerticalTabs config w0) in
  shown_at (Z.of_nat j) els (nodes (click_on Number r w)).
Proof.
  intros w0 Hc els Hj w.
  assert (P : page_ok w).
  { apply page_ok_run, page_ok_createVerticalTabs, page_ok_run, page_ok_fresh_page. }
  assert (Hin : (tabUL els, TabListClick els) ∈ listeners w).
  { apply listeners_run_mono. by eapply listener_created. }
  pose proof (wired_of_page_ok _ _ _ P Hin) as W.
  unfold click_on, dispatch. apply click_run_all_shown; [done..| |].
  - apply Forall_forall. intros h (t & _ & Hh & Hev)%handlers_for_elem. by exists t.
  - left. apply handlers_for_elem. exists (tabUL els).
    destruct (wd_header _ _ W j r Hj) as (el & Hel & _ & _ & Hp).
    split; [by eapply path_parent; [..|apply W]|]. split; [done|done].
Qed.

End Selecting.

(** Witness of X11: a two-tab widget under debug mode, cycled, clicked and ticked, then clicked on its second header. *)
Lemma click_on_header_selects_witness :
  let resolve := λ sel, if String.eqb sel "#tabs" then Some 0 else None in
  let config := VerticalTabsConfig.mk "#tabs" None
                  [TabConfig.mk "One" "first" "/one.png" None;
                   TabConfig.mk "Two" "second" "/two.png" None] (Some true) in
  let w0 := run decimal_Number [] (fresh_page [blank "div"] resolve) in
  let els := (createTabElements (settings_of config) (nodes w0)).1 in
  let w := run decimal_Number [CallAutoCycleTabs "#tabs" None; Click 5; TimerFires 1]
             (createVerticalTabs config w0) in
  shown_at (Z.of_nat 1) els (nodes (click_on decimal_Number 9 w)).
Proof.
  intros resolve config w0 els w.
  exact (click_on_header_selects decimal_Number decimal_Number_toString
           [blank "div"] resolve []
           [CallAutoCycleTabs "#tabs" None; Click 5; TimerFires 1] config 0 1 9
           eq_refl eq_refl).
Defined.

(** X12. Widgets do not interfere: for a widget created at any moment of the
    life of a page, a later click whose path, from the target up through its
    ancestors, does not pass through the list of that widget leaves every
    header, image, button and debug panel of the widget exactly as it was,
    whatever other widgets the click selects in. *)
Theorem click_leaves_other_widgets (Number : string → JSNumber) (d : Dom)
    (resolve : string → option ref) (before after : list Action)
    (config : VerticalTabsConfig.t) (c : ref) (target : ref) :
  let w0 := run Number before (fresh_page d resolve) in
  querySelector w0 (VerticalTabsConfig.container config) = Some c →
  let els := (createTabElements (settings_of config) (nodes w0)).1 in
  let w := run Number after (createVerticalTabs config w0) in
  tabUL els ∉ path target (nodes w) →
  ∀ r, r ∈ items els → nodes (click_on Number target w) !! r = nodes w !! r.
Proof.
  intros w0 Hc els w Hpath.
  assert (P : page_ok w).
  { apply page_ok_run, page_ok_createVerticalTabs, page_ok_run, page_ok_fresh_page. }
  assert (Hin : (tabUL els, TabListClick els) ∈ listeners w).
  { apply listeners_run_mono. by eapply listener_created. }
  unfold click_on, dispatch. apply (click_run_all_frame Number els (tabUL els)); [done..|].
  apply Forall_forall. intros h (t & Ht & Hh & Hev)%handlers_for_elem.
  exists t. split; [done|]. split; [done|]. by intros ->.
Qed.

(** Witness of X12: two widgets in two containers, a click on the second header of the second, and the first header of the first. *)
Lemma click_leaves_other_widgets_witness :
  let resolve := λ sel, if String.eqb sel "#left" then Some 0
                        else if String.eqb sel "#right" then Some 1 else None in
  let config := VerticalTabsConfig.mk "#left" None
                  [TabConfig.mk "One" "first" "/one.png" None;
                   TabConfig.mk "Two" "second" "/two.png" None] None in
  let other := VerticalTabsConfig.mk "#right" (Some "right")
                 [TabConfig.mk "Three" "third" "/three.png" None;
                  TabConfig.mk "Four" "fourth" "/four.png" None] None in
  let w0 := run decimal_Number [] (fresh_page [blank "div"; blank "div"] resolve) in
  let els := (createTabElements (settings_of config) (nodes w0)).1 in
  let w := run decimal_Number [CallCreateVerticalTabs other] (createVerticalTabs config w0) in
  nodes (click_on decimal_Number 19 w) !! 6 = nodes w !! 6.
Proof.
  intros resolve config other w0 els w.
  exact (click_leaves_other_widgets decimal_Number [blank "div"; blank "div"] resolve []
           [CallCreateVerticalTabs other] config 0 19 eq_refl
           ltac:(apply (bool_decide_unpack (_ ∉ _)); vm_compute; exact I)
           6 ltac:(vm_compute; apply list_elem_of_here)).
Defined.
(** ** Activations of the cycle on a page *)

Lemma records_ok_same w w' :
  scopes w' = scopes w → next_timer w' = next_timer w → records_ok w → records_ok w'.
Proof.
  intros Hs Hn (R1 & R2 & R3). unfold records_ok, get_intervalId in *. rewrite Hs, Hn. done.
Qed.

Lemma records_ok_fresh_page (d : Dom) resolve : records_ok (fresh_page d resolve).
Proof. repeat split; try done; intros; simpl in *; done. Qed.

Lemma get_set_intervalId s s' id w :
  get_intervalId s' (set_intervalId s id w)
  = if decide (s' = s) then (scopes w !! s) ≫= (λ _, id) else get_intervalId s' w.
Proof.
  unfold get_intervalId, set_intervalId. simpl. destruct (decide (s' = s)) as [->|Hne].
  - rewrite list_lookup_alter_eq. by destruct (scopes w !! s).
  - by rewrite list_lookup_alter_ne.
Qed.

Lemma scope_tabs_set_intervalId s id w :
  Forall (λ sc, scope_tabs sc ≠ []) (scopes w) →
  Forall (λ sc, scope_tabs sc ≠ []) (scopes (set_intervalId s id w)).
Proof.
  intros H. unfold set_intervalId. simpl. apply Forall_lookup. intros i sc.
  destruct (decide (i = s)) as [->|Hne].
  - rewrite list_lookup_alter_eq. destruct (scopes w !! s) as [sc0|] eqn:E; [|done].
    simpl. intros [= <-]. simpl. by eapply (Forall_lookup_1 _ _ _ _ H).
  - rewrite list_lookup_alter_ne by done. by apply (Forall_lookup_1 _ _ _ _ H).
Qed.

Section Records.

Variable Number : string → JSNumber.

Lemma records_ok_handler h target w :
  records_ok w → records_ok (run_handler Number h target w).
Proof.
  intros (R1 & R2 & R3). destruct h as [els|s|s].
  - eapply records_ok_same; [..|done]; apply only_selection_click_handler.
  - simpl. split; [|split].
    + intros s' id. rewrite get_set_intervalId.
      destruct (decide (s' = s)); [by destruct (scopes _ !! s)|].
      destruct (get_intervalId s w); apply R1.
    + intros s1 s2 id. rewrite !get_set_intervalId.
      destruct (decide (s1 = s)); [by destruct (scopes _ !! s)|].
      destruct (decide (s2 = s)); [by destruct (scopes _ !! s)|].
      destruct (get_intervalId s w); apply R2.
    + apply scope_tabs_set_intervalId. by destruct (get_intervalId s w).
  - simpl. destruct (scopes w !! s) as [sc|] eqn:Hsc; [|done].
    destruct (intervalId sc) eqn:Hid; [done|]. simpl. split; [|split].
    + intros s' id. rewrite get_set_intervalId. simpl.
      destruct (decide (s' = s)).
      * rewrite Hsc. simpl. intros [= <-]. lia.
      * intros H%R1. lia.
    + intros s1 s2 id. rewrite !get_set_intervalId. simpl. rewrite Hsc. simpl.
      destruct (decide (s1 = s)) as [->|], (decide (s2 = s)) as [->|]; try done.
      * intros [= <-] H%R1. lia.
      * intros H%R1 [= <-]. lia.
      * apply R2.
    + by apply (scope_tabs_set_intervalId s (Some (next_timer w))
                  (setInterval (mkTimerTask s (scope_interval sc)) w).2).
Qed.

Lemma records_ok_run_all hs target w :
  records_ok w → records_ok (run_all Number hs target w).
Proof.
  revert w. induction hs as [|h hs IH]; intros w R; [done|].
  change (run_all Number (h :: hs) target w)
    with (run_all Number hs target (run_handler Number h target w)).
  by apply IH, records_ok_handler.
Qed.

Lemma records_ok_autoCycleTabs sel interval w :
  records_ok w → records_ok (autoCycleTabs sel interval w).2.
Proof.
  intros (R1 & R2 & R3). destruct (autoCycleTabs sel interval w) as [[s|] w'] eqn:E.
  - apply autoCycleTabs_Some in E as (c & _ & Hne & -> & ->). simpl.
    assert (Hget : ∀ s id, get_intervalId s
              (mkWorld (nodes w) (listeners w ++ [(c, HoverEnter (List.length (scopes w)))]
                                    ++ [(c, HoverLeave (List.length (scopes w)))])
                 (scopes w ++ [mkScope (querySelectorAll "vt__list-item" c (nodes w))
                                 (default 5000%Z interval) (Some (next_timer w))])
                 (<[next_timer w := mkTimerTask (List.length (scopes w))
                                      (default 5000%Z interval)]> (timers w))
                 (Pos.succ (next_timer w)) (console w) (querySelector w)) = Some id →
              (get_intervalId s w = Some id ∧ s < List.length (scopes w))
              ∨ (s = List.length (scopes w) ∧ id = next_timer w)).
    { intros s id. unfold get_intervalId. simpl.
      destruct (decide (s < List.length (scopes w))) as [Hs|Hs].
      - rewrite lookup_app_l by done. auto.
      - destruct (decide (s = List.length (scopes w))) as [->|Hs'].
        + rewrite lookup_snoc_eq by done. simpl. intros [= <-]. auto.
        + rewrite lookup_ge_None_2; [done|]. rewrite length_app. simpl. lia. }
    split; [|split].
    + intros s id [[H%R1 _]|[_ ->]]%Hget; simpl; lia.
    + intros s1 s2 id [[H1 L1]|[-> ->]]%Hget [[H2 L2]|[E2 E3]]%Hget.
      * by eapply R2.
      * subst. apply R1 in H1. lia.
      * apply R1 in H2. lia.
      * by subst.
    + apply Forall_app. split; [done|]. by repeat constructor.
  - unfold autoCycleTabs in E. apply (records_ok_same w); [| |done].
    + destruct (querySelector w sel); [|by injection E as <-].
      destruct (querySelectorAll _ _ _); [by injection E as <-|done].
    + destruct (querySelector w sel); [|by injection E as <-].
      destruct (querySelectorAll _ _ _); [by injection E as <-|done].
Qed.

Lemma only_selection_createVerticalTabs_scopes config w :
  scopes (createVerticalTabs config w) = scopes w
  ∧ next_timer (createVerticalTabs config w) = next_timer w
  ∧ timers (createVerticalTabs config w) = timers w.
Proof.
  destruct (querySelector w (VerticalTabsConfig.container config)) as [c|] eqn:Hc.
  - rewrite (createVerticalTabs_eq config w c Hc), exec_selectTab. simpl.
    unfold mounted, run_dom. destruct (createTabElements _ _) as [els d1]. done.
  - unfold createVerticalTabs. simpl. by rewrite Hc.
Qed.

Lemma records_ok_step a w : records_ok w → records_ok (step Number a w).
Proof.
  intros R. destruct a as [config|sel interval|s|target|target|target|id]; simpl.
  - apply (records_ok_same w); [..|done]; apply only_selection_createVerticalTabs_scopes.
  - by apply records_ok_autoCycleTabs.
  - apply (records_ok_same w); [..|done]; unfold cleanup; by destruct (get_intervalId s w).
  - by apply records_ok_run_all.
  - by apply records_ok_run_all.
  - by apply records_ok_run_all.
  - apply (records_ok_same w); [..|done]; apply only_selection_timer_fires.
Qed.

Lemma records_ok_run actions w : records_ok w → records_ok (run Number actions w).
Proof.
  revert w. induction actions as [|a l IH]; intros w R; [done|].
  simpl. apply IH. by apply records_ok_step.
Qed.

End Records.

Lemma timers_of_none s w :
  timers_ok w → scopes w !! s = None → timers_of s w = ∅.
Proof.
  intros T Hs. apply map_empty. intros id.
  destruct (timers_of s w !! id) as [t|] eqn:E; [|done].
  apply timers_of_lookup in E as [Ht <-].
  destruct (T id t Ht) as (_ & sc & Hsc & _). congruence.
Qed.

Lemma timers_of_unrecorded s w :
  timers_ok w → get_intervalId s w = None → timers_of s w = ∅.
Proof.
  intros T Hs. apply map_empty. intros id.
  destruct (timers_of s w !! id) as [t|] eqn:E; [|done].
  apply timers_of_lookup in E as [Ht <-].
  destruct (T id t Ht) as (_ & sc & Hsc & Hid & _).
  unfold get_intervalId in Hs. rewrite Hsc in Hs. simpl in Hs. congruence.
Qed.

Lemma timers_fresh w : timers_ok w → timers w !! next_timer w = None.
Proof.
  intros T. destruct (timers w !! next_timer w) as [t|] eqn:E; [|done].
  destruct (T _ t E) as [Hlt _]. lia.
Qed.

Section Cycles.

Variable Number : string → JSNumber.

Lemma reachable_ok (d : Dom) resolve actions :
  let w := run Number actions (fresh_page d resolve) in
  timers_ok w ∧ records_ok w.
Proof.
  split.
  - apply timers_ok_run, timers_ok_fresh_page.
  - apply records_ok_run, records_ok_fresh_page.
Qed.

(** X13. [autoCycleTabs], called at any moment of the life of a page, never
    changes the document. It returns nothing exactly when the selector
    resolves to no container or the container has no header below it; it
    then logs one warning, naming the selector, and starts no timer,
    registers no listener and records no activation. Otherwise it logs
    nothing and starts exactly one repeating timer, under an id no running
    timer has, at the given interval or at 5000 when none is given; the new
    activation records that id and the headers found at that moment, and its
    pointer-enter and pointer-leave listeners are added, in this order, to
    the container. *)
Theorem autoCycleTabs_starts_or_warns (d : Dom) (resolve : string → option ref)
    (actions : list Action) (sel : string) (interval : option Z) :
  let w := run Number actions (fresh_page d resolve) in
  let res := autoCycleTabs sel interval w in
  nodes res.2 = nodes w
  ∧ (res.1 = None
     ↔ ∀ c, querySelector w sel = Some c →
            querySelectorAll "vt__list-item" c (nodes w) = [])
  ∧ (res.1 = None →
     timers res.2 = timers w ∧ listeners res.2 = listeners w ∧ scopes res.2 = scopes w
     ∧ console res.2
       = console w ++ [(Warn, match querySelector w sel with
                              | None => "Container " +:+ sel +:+ " not found"
                              | Some _ => "No tabs found in " +:+ sel
                              end)])
  ∧ (∀ s, res.1 = Some s →
       ∃ c id,
         querySelector w sel = Some c
         ∧ console res.2 = console w
         ∧ timers w !! id = None
         ∧ timers res.2 = <[id := mkTimerTask s (default 5000%Z interval)]> (timers w)
         ∧ timers_of s res.2 = {[id := mkTimerTask s (default 5000%Z interval)]}
         ∧ scopes w !! s = None
         ∧ scopes res.2
           = scopes w ++ [mkScope (querySelectorAll "vt__list-item" c (nodes w))
                            (default 5000%Z interval) (Some id)]
         ∧ listeners res.2 = listeners w ++ [(c, HoverEnter s); (c, HoverLeave s)]).
Proof.
  intros w res. destruct (reachable_ok d resolve actions) as [T R]. fold w in T, R.
  unfold res. destruct (autoCycleTabs sel interval w) as [[s|] w'] eqn:E.
  - apply autoCycleTabs_Some in E as (c & Hc & Hne & -> & ->). simpl.
    split; [done|]. split; [|split; [done|]].
    + split; [done|]. intros H. by rewrite (H c Hc) in Hne.
    + intros s [= <-]. exists c, (next_timer w).
      split; [done|]. split; [done|]. split; [by apply timers_fresh|]. split; [done|].
      assert (Hnone : scopes w !! List.length (scopes w) = None)
        by by apply lookup_ge_None_2.
      split; [|done].
      unfold timers_of. simpl. rewrite map_filter_insert_True by done.
      pose proof (timers_of_none _ _ T Hnone) as E0. unfold timers_of in E0.
      by rewrite E0.
  - unfold autoCycleTabs in E. simpl.
    destruct (querySelector w sel) as [c|] eqn:Hc.
    + destruct (querySelectorAll "vt__list-item" c (nodes w)) eqn:Htabs; [|done].
      injection E as <-. simpl. split; [done|]. split; [|split; [done|done]].
      split; [|done]. intros _ c' [= <-]. done.
    + injection E as <-. simpl. split; [done|]. split; [|split; [done|done]].
      split; [|done]. by intros _ c' [=].
Qed.

(** X14. Every running timer of a page is the timer of an activation that
    holds at least one header, so a tick never fails: when a running timer
    comes due, the page is the one a click on one of the headers the
    activation captured leaves. On the empty array, which no activation
    holds, [cycleTabs] throws. A timer that is not running changes nothing
    when its id comes due. *)
Theorem tick_clicks_a_captured_header (d : Dom) (resolve : string → option ref)
    (actions : list Action) (id : positive) :
  let w := run Number actions (fresh_page d resolve) in
  cycleTabs Number [] w = None
  ∧ match timers w !! id with
    | Some task =>
        ∃ sc tab, scopes w !! task_scope task = Some sc
                  ∧ tab ∈ scope_tabs sc
                  ∧ cycleTabs Number (scope_tabs sc) w = Some (click_on Number tab w)
                  ∧ timer_fires Number id w = click_on Number tab w
    | None => timer_fires Number id w = w
    end.
Proof.
  intros w. destruct (reachable_ok d resolve actions) as [T (_ & _ & R3)]. fold w in T, R3.
  split; [done|]. unfold timer_fires.
  destruct (timers w !! id) as [task|] eqn:Hid; [|done].
  destruct (T id task Hid) as (_ & sc & Hsc & _). rewrite Hsc.
  pose proof (Forall_lookup_1 _ _ _ _ R3 Hsc) as Hne. simpl in Hne.
  destruct (cycleTabs_clicks_next Number (scope_tabs sc) w Hne) as (tab & Htab & Hcy).
  exists sc, tab. split; [done|]. split; [by eapply list_elem_of_lookup_2|].
  split; [done|]. by rewrite Hcy.
Qed.

(** X15. The cleanup function of an activation, called at any moment of the
    life of a page: afterwards no timer of the activation is running; the
    timers of every other activation are the ones that were running before;
    the document, the listeners, the console and the timer records of all
    activations, its own included, are as before; calling it again changes
    nothing; when no timer is on record (after a pointer-enter) it changes
    nothing at all; and when one is on record, the pointer-leave listener of
    the activation finds the record still set and starts nothing. *)
Theorem cleanup_stops_its_own_timer (d : Dom) (resolve : string → option ref)
    (actions : list Action) (s : nat) :
  let w := run Number actions (fresh_page d resolve) in
  let w' := cleanup s w in
  timers_of s w' = ∅
  ∧ (∀ s', s' ≠ s → timers_of s' w' = timers_of s' w)
  ∧ nodes w' = nodes w ∧ listeners w' = listeners w ∧ console w' = console w
  ∧ scopes w' = scopes w
  ∧ cleanup s w' = w'
  ∧ (get_intervalId s w = None → w' = w)
  ∧ (is_Some (get_intervalId s w) →
     ∀ target, run_handler Number (HoverLeave s) target w' = w').
Proof.
  intros w w'. destruct (reachable_ok d resolve actions) as [T (R1 & R2 & R3)].
  fold w in T, R1, R2, R3. unfold w', cleanup.
  destruct (get_intervalId s w) as [id|] eqn:Hrec.
  - simpl. split; [|split].
    + apply map_empty. intros i.
      destruct (timers_of s _ !! i) as [t|] eqn:E; [|done].
      apply timers_of_lookup in E as [Ht Hs]. simpl in Ht.
      destruct (decide (i = id)) as [->|Hne]; [by rewrite lookup_delete_eq in Ht|].
      rewrite lookup_delete_ne in Ht by done.
      destruct (T i t Ht) as (_ & sc & Hsc & Hid & _). rewrite Hs in Hsc.
      unfold get_intervalId in Hrec. rewrite Hsc in Hrec. simpl in Hrec. congruence.
    + intros s' Hne. apply map_eq. intros i. apply option_eq. intros t.
      rewrite !timers_of_lookup. simpl. split.
      * intros [Ht Hs]. split; [|done].
        destruct (decide (i = id)) as [->|Hi]; [by rewrite lookup_delete_eq in Ht|].
        by rewrite lookup_delete_ne in Ht.
      * intros [Ht Hs]. split; [|done]. rewrite lookup_delete_ne; [done|].
        intros <-. destruct (T id t Ht) as (_ & sc & Hsc & Hid & _).
        apply Hne. apply (R2 s' s id); [|done].
        unfold get_intervalId. rewrite <- Hs, Hsc. done.
    + do 4 (split; [done|]). split; [|split; [done|]].
      * unfold get_intervalId in *. simpl. destruct (scopes w !! s) as [sc|]; [|done].
        simpl in *. rewrite Hrec. simpl. by rewrite delete_delete_eq.
      * intros _ target. simpl. unfold get_intervalId in Hrec.
        destruct (scopes w !! s) as [sc|]; [|done]. simpl in Hrec. by rewrite Hrec.
  - split; [by apply timers_of_unrecorded|]. do 5 (split; [done|]).
    split; [by rewrite Hrec|]. split; [done|]. by intros [? ?].
Qed.

End Cycles.
(** ** Two activations on one container *)

Lemma timers_of_size_one s w id t :
  timers_ok w → timers w !! id = Some t → task_scope t = s → size (timers_of s w) = 1.
Proof.
  intros T Ht Hs.
  assert (Hle : size (timers_of s w) ≤ 1).
  { apply size_at_most_one. intros i j x y [Hi Hx]%timers_of_lookup [Hj Hy]%timers_of_lookup.
    destruct (T i x Hi) as (_ & sc & Hsc & Hid & _).
    destruct (T j y Hj) as (_ & sc' & Hsc' & Hid' & _).
    rewrite Hx in Hsc. rewrite Hy in Hsc'. congruence. }
  destruct (size (timers_of s w)) as [|[|n]] eqn:E; [|done|lia].
  apply map_size_empty_inv in E.
  assert (timers_of s w !! id = Some t) as H by by apply timers_of_lookup.
  rewrite E in H. by rewrite lookup_empty in H.
Qed.

Lemma autoCycleTabs_found sel interval w c :
  querySelector w sel = Some c →
  querySelectorAll "vt__list-item" c (nodes w) ≠ [] →
  ∃ w', autoCycleTabs sel interval w = (Some (List.length (scopes w)), w').
Proof.
  intros Hc Hne. unfold autoCycleTabs. rewrite Hc.
  destruct (querySelectorAll _ _ _); [done|]. by eexists.
Qed.

Section Twice.

Variable Number : string → JSNumber.

Lemma hover_handlers ty (c : ref) w h :
  (c, h) ∈ listeners w → event_of h = ty → h ∈ handlers_for ty [c] (listeners w).
Proof.
  intros Hin Hev. apply handlers_for_elem. exists c.
  split; [apply list_elem_of_here|done].
Qed.

Lemma entered_stops s tabs interval id c w :
  timers_ok w → scope_is s tabs interval id w → (c, HoverEnter s) ∈ listeners w →
  timers_of s (step Number (PointerEnter c) w) = ∅
  ∧ scope_is s tabs interval None (step Number (PointerEnter c) w).
Proof.
  intros T Hs Hin.
  assert (Hsc : scope_is s tabs interval None (step Number (PointerEnter c) w)).
  { simpl. unfold dispatch.
    by apply (enter_all_resets Number s tabs interval id c);
      [apply handlers_for_all|apply (hover_handlers mouseenter c)|]. }
  split; [|done]. apply timers_of_unrecorded; [by apply timers_ok_step|].
  unfold get_intervalId. unfold scope_is in Hsc. by rewrite Hsc.
Qed.

Lemma left_restarts s tabs interval c w :
  timers_ok w → scope_is s tabs interval None w → (c, HoverLeave s) ∈ listeners w →
  size (timers_of s (step Number (PointerLeave c) w)) = 1
  ∧ ∃ id, scope_is s tabs interval (Some id) (step Number (PointerLeave c) w).
Proof.
  intros T Hs Hin.
  assert (Hr : restarted s tabs interval (next_timer w) (step Number (PointerLeave c) w)).
  { simpl. unfold dispatch.
    apply (leave_all_restarts Number s tabs interval (next_timer w) c);
      [apply handlers_for_all|by apply (hover_handlers mouseleave c)|done|lia]. }
  destruct Hr as (id & Hsc & Ht & _). split; [|by exists id].
  by apply (timers_of_size_one s _ id (mkTimerTask s interval)); [apply timers_ok_step|..].
Qed.

(** X16. Two calls of [autoCycleTabs] for the same container, at any moment
    of the life of a page, start two cycles: when the first call starts an
    activation the second starts another one on the same headers, and each
    of the two has its own running timer, so the headers advance twice per
    interval. A pointer-enter on the container stops both timers and a
    pointer-leave that follows starts one timer for each again. *)
Theorem autoCycleTabs_twice_runs_two_timers (d : Dom) (resolve : string → option ref)
    (actions : list Action) (sel : string) (i1 i2 : option Z) (s1 : nat) (w1 : World) :
  let w := run Number actions (fresh_page d resolve) in
  autoCycleTabs sel i1 w = (Some s1, w1) →
  ∃ s2 w2 c tabs,
    autoCycleTabs sel i2 w1 = (Some s2, w2) ∧ s2 ≠ s1
    ∧ querySelector w sel = Some c
    ∧ (∃ id1, scope_is s1 tabs (default 5000%Z i1) (Some id1) w2)
    ∧ (∃ id2, scope_is s2 tabs (default 5000%Z i2) (Some id2) w2)
    ∧ size (timers_of s1 w2) = 1 ∧ size (timers_of s2 w2) = 1
    ∧ size (timers w2) = size (timers w) + 2
    ∧ let w3 := step Number (PointerEnter c) w2 in
      timers_of s1 w3 = ∅ ∧ timers_of s2 w3 = ∅
      ∧ let w4 := step Number (PointerLeave c) w3 in
        size (timers_of s1 w4) = 1 ∧ size (timers_of s2 w4) = 1.
Proof.
  intros w E1. destruct (reachable_ok Number d resolve actions) as [T _]. fold w in T.
  destruct (autoCycleTabs_Some _ _ _ _ _ E1) as (c & Hc & Hne & Hs1 & Hw1).
  assert (T1 : timers_ok w1).
  { replace w1 with (step Number (CallAutoCycleTabs sel i1) w) by (simpl; by rewrite E1).
    by apply timers_ok_step. }
  assert (Hn1 : nodes w1 = nodes w) by by rewrite Hw1.
  assert (Hq1 : querySelector w1 sel = Some c) by by rewrite Hw1.
  destruct (autoCycleTabs_found sel i2 w1 c Hq1) as [w2 E2]; [by rewrite Hn1|].
  destruct (autoCycleTabs_Some _ _ _ _ _ E2) as (c' & Hc' & _ & Hs2 & Hw2).
  assert (c' = c) as -> by congruence.
  assert (T2 : timers_ok w2).
  { replace w2 with (step Number (CallAutoCycleTabs sel i2) w1) by (simpl; by rewrite E2).
    by apply timers_ok_step. }
  set (tabs := querySelectorAll "vt__list-item" c (nodes w)) in *.
  assert (Hlen1 : List.length (scopes w1) = S (List.length (scopes w))).
  { rewrite Hw1. simpl. len. }
  set (s2 := List.length (scopes w1)) in *.
  assert (Hsc1 : scope_is s1 tabs (default 5000%Z i1) (Some (next_timer w)) w2).
  { unfold scope_is. rewrite Hw2. simpl. rewrite lookup_app_l by lia.
    rewrite Hw1. simpl. by rewrite lookup_snoc_eq. }
  assert (Hsc2 : scope_is s2 tabs (default 5000%Z i2) (Some (next_timer w1)) w2).
  { unfold scope_is. rewrite Hw2. simpl. rewrite lookup_snoc_eq by done.
    by rewrite Hn1. }
  assert (Ht2 : timers w2 !! next_timer w1 = Some (mkTimerTask s2 (default 5000%Z i2))).
  { rewrite Hw2. simpl. apply lookup_insert_eq. }
  assert (Hnext : next_timer w1 = Pos.succ (next_timer w)) by by rewrite Hw1.
  assert (Ht1 : timers w2 !! next_timer w = Some (mkTimerTask s1 (default 5000%Z i1))).
  { rewrite Hw2. simpl. rewrite lookup_insert_ne by lia.
    rewrite Hw1. simpl. apply lookup_insert_eq. }
  assert (Hl : (c, HoverEnter s1) ∈ listeners w2 ∧ (c, HoverLeave s1) ∈ listeners w2
               ∧ (c, HoverEnter s2) ∈ listeners w2 ∧ (c, HoverLeave s2) ∈ listeners w2).
  { assert (La : listeners w1
                   = listeners w ++ [(c, HoverEnter s1)] ++ [(c, HoverLeave s1)])
      by (rewrite Hw1, Hs1; done).
    assert (Lb : listeners w2
                   = listeners w1 ++ [(c, HoverEnter s2)] ++ [(c, HoverLeave s2)])
      by (rewrite Hw2; done).
    rewrite Lb, La. rewrite !elem_of_app, !elem_of_cons. tauto. }
  destruct Hl as (L1 & L2 & L3 & L4).
  exists s2, w2, c, tabs.
  split; [done|]. split; [lia|]. split; [done|].
  split; [by eexists|]. split; [by eexists|].
  split; [by apply (timers_of_size_one s1 w2 _ _ T2 Ht1)|].
  split; [by apply (timers_of_size_one s2 w2 _ _ T2 Ht2)|].
  split.
  { rewrite Hw2. simpl. rewrite map_size_insert_None by by apply timers_fresh.
    rewrite Hw1. simpl. rewrite map_size_insert_None by by apply timers_fresh. lia. }
  cbv zeta.
  destruct (entered_stops s1 _ _ _ c w2 T2 Hsc1 L1) as [Z1 N1].
  destruct (entered_stops s2 _ _ _ c w2 T2 Hsc2 L3) as [Z2 N2].
  split; [done|]. split; [done|].
  assert (T3 : timers_ok (step Number (PointerEnter c) w2)) by by apply timers_ok_step.
  assert (HL3 : listeners (step Number (PointerEnter c) w2) = listeners w2).
  { simpl. unfold dispatch. by rewrite listeners_run_all. }
  split.
  - by apply (left_restarts s1 tabs (default 5000%Z i1) c); [..|rewrite HL3].
  - by apply (left_restarts s2 tabs (default 5000%Z i2) c); [..|rewrite HL3].
Qed.

End Twice.

(** Witness of X16: a two-tab widget cycled twice, at 5000 and at 1000. *)
Lemma autoCycleTabs_twice_runs_two_timers_witness :
  let resolve := λ sel, if String.eqb sel "#tabs" then Some 0 else None in
  let config := VerticalTabsConfig.mk "#tabs" None
                  [TabConfig.mk "One" "first" "/one.png" None;
                   TabConfig.mk "Two" "second" "/two.png" None] None in
  let w := run decimal_Number [CallCreateVerticalTabs config]
             (fresh_page [blank "div"] resolve) in
  let w1 := (autoCycleTabs "#tabs" None w).2 in
  ∃ s2 w2 c tabs,
    autoCycleTabs "#tabs" (Some 1000%Z) w1 = (Some s2, w2) ∧ s2 ≠ 0
    ∧ querySelector w "#tabs" = Some c
    ∧ (∃ id1, scope_is 0 tabs (default 5000%Z None) (Some id1) w2)
    ∧ (∃ id2, scope_is s2 tabs (default 5000%Z (Some 1000%Z)) (Some id2) w2)
    ∧ size (timers_of 0 w2) = 1 ∧ size (timers_of s2 w2) = 1
    ∧ size (timers w2) = size (timers w) + 2
    ∧ let w3 := step decimal_Number (PointerEnter c) w2 in
      timers_of 0 w3 = ∅ ∧ timers_of s2 w3 = ∅
      ∧ let w4 := step decimal_Number (PointerLeave c) w3 in
        size (timers_of 0 w4) = 1 ∧ size (timers_of s2 w4) = 1.
Proof.
  intros resolve config w w1.
  exact (autoCycleTabs_twice_runs_two_timers decimal_Number [blank "div"] resolve
           [CallCreateVerticalTabs config] "#tabs" None (Some 1000%Z) 0 w1
           ltac:(vm_compute; reflexivity)).
Defined.
(** ** Mounting *)

Lemma mounted_frame config c page :
  console (mounted config c page) = console page
  ∧ timers (mounted config c page) = timers page
  ∧ scopes (mounted config c page) = scopes page.
Proof. unfold mounted, run_dom. by destruct (createTabElements _ _). Qed.

(** X17. [createVerticalTabs] never touches timers or activations. When the
    selector resolves to no container it logs one warning that names the
    selector and changes nothing else. Otherwise it logs nothing, registers
    exactly one listener, the click listener on the list of the new widget,
    and adds four elements and three for every tab (four under debug mode,
    which is off unless the configuration turns it on) to the document; every
    element the document had, other than the container, stays as it was; and
    the container keeps its children and gets the wrapper of the widget as
    its last child. The container is not emptied first: mounting twice in one
    container leaves two widgets there. *)
Theorem createVerticalTabs_mounts_or_warns (config : VerticalTabsConfig.t) (w : World) :
  let sel := VerticalTabsConfig.container config in
  let els := (createTabElements (settings_of config) (nodes w)).1 in
  let N := List.length (VerticalTabsConfig.tabs config) in
  let w' := createVerticalTabs config w in
  timers w' = timers w ∧ scopes w' = scopes w
  ∧ match querySelector w sel with
    | None => w' = warn ("Container " +:+ sel +:+ " not found") w
    | Some c =>
        console w' = console w
        ∧ listeners w' = listeners w ++ [(tabUL els, TabListClick els)]
        ∧ List.length (nodes w')
          = List.length (nodes w) + 4
            + (if default false (VerticalTabsConfig.debug config) then 4 else 3) * N
        ∧ (∀ r, r < List.length (nodes w) → r ≠ c → nodes w' !! r = nodes w !! r)
        ∧ (∀ cel, nodes w !! c = Some cel →
             nodes w' !! c = Some (set_childNodes (λ cs, cs ++ [wrapper els]) cel)
             ∧ parentOf (wrapper els) (nodes w') = Some c)
    end.
Proof.
  intros sel els N w'.
  destruct (only_selection_createVerticalTabs_scopes config w) as (Hs & _ & Ht).
  split; [done|]. split; [done|].
  destruct (querySelector w sel) as [c|] eqn:Hc.
  2:{ unfold w', createVerticalTabs. simpl. fold sel. by rewrite Hc. }
  unfold w'. rewrite (createVerticalTabs_eq config w c Hc), exec_selectTab. fold els. simpl.
  pose proof (createTabElements_built (settings_of config) (nodes w)) as B. fold els in B.
  destruct (createTabElements_layout (settings_of config) (nodes w)) as (Hlen & _).
  assert (Hitems : ∀ r, r ∈ items els → List.length (nodes w) + 4 ≤ r).
  { intros r Hr. apply (built_item_range _ _ _ _ _ B) in Hr. lia. }
  split; [apply mounted_frame|]. split; [apply listeners_mounted|].
  split; [by rewrite selectTab_length, mounted_length|].
  split.
  - intros r Hr Hrc. rewrite selectTab_other by (intros Hi%Hitems; lia).
    rewrite nodes_mounted_eq, !list_lookup_alter_ne by lia. by apply B.
  - intros cel Hcel. pose proof (lookup_lt_Some _ _ _ Hcel) as Hlt.
    split.
    + rewrite selectTab_other by (intros Hi%Hitems; lia).
      rewrite nodes_mounted_eq, list_lookup_alter_eq, list_lookup_alter_ne by lia.
      rewrite (b_frame _ _ _ _ B) by done. rewrite Hcel, (b_wrapper _ _ _ _ B). done.
    + unfold parentOf. rewrite (b_wrapper _ _ _ _ B).
      rewrite selectTab_other by (intros Hi%Hitems; lia).
      rewrite nodes_mounted_eq, list_lookup_alter_ne, list_lookup_alter_eq by lia.
      by rewrite (b_wrapper_el _ _ _ _ B).
Qed.

(** ** The cycle needs headers *)

Lemma querySelectorAll_leaf cls c (d : Dom) cel :
  d !! c = Some cel → childNodes cel = [] → querySelectorAll cls c d = [].
Proof. intros Hc He. unfold querySelectorAll. by rewrite (descendants_leaf _ c d cel). Qed.

(** X18. The cycle can only be started once the widget is in the container,
    and only for a widget that has tabs. For a container without children
    that the selector names before and after the widget is mounted, and tabs
    that carry no markup: before [createVerticalTabs], and after
    [createVerticalTabs] with an empty list of tabs, [autoCycleTabs] finds no
    header, returns nothing and logs ["No tabs found in "] followed by the
    selector, leaving the rest as it was; after [createVerticalTabs] with at
    least one tab it starts an activation whose headers are the headers of
    the widget, in order. *)
Theorem autoCycleTabs_needs_headers (config : VerticalTabsConfig.t) (page : World)
    (c : ref) (cel : Element) (interval : option Z) :
  let sel := VerticalTabsConfig.container config in
  querySelector page sel = Some c →
  nodes page !! c = Some cel → childNodes cel = [] →
  querySelector (createVerticalTabs config page) sel = Some c →
  forallb markup_free (VerticalTabsConfig.tabs config) = true →
  let w := createVerticalTabs config page in
  let els := (createTabElements (settings_of config) (nodes page)).1 in
  autoCycleTabs sel interval page = (None, warn ("No tabs found in " +:+ sel) page)
  ∧ querySelectorAll "vt__list-item" c (nodes w) = tabItems els
  ∧ (VerticalTabsConfig.tabs config = [] →
     autoCycleTabs sel interval w = (None, warn ("No tabs found in " +:+ sel) w))
  ∧ (VerticalTabsConfig.tabs config ≠ [] →
     ∃ s w1 id, autoCycleTabs sel interval w = (Some s, w1)
                ∧ scope_is s (tabItems els) (default 5000%Z interval) (Some id) w1).
Proof.
  intros sel Hc Hcel Hempty Hq Hplain w els.
  pose proof (createTabElements_built (settings_of config) (nodes page)) as B. fold els in B.
  fold w in Hq.
  assert (Htabs : querySelectorAll "vt__list-item" c (nodes w) = tabItems els).
  { unfold w. rewrite (createVerticalTabs_eq config page c Hc), exec_selectTab. simpl.
    rewrite (querySelectorAll_selection_only _ _ (nodes (mounted config c page)));
      [by eapply mounted_headers|done|apply selectTab_selection_only]. }
  split.
  { unfold autoCycleTabs. rewrite Hc. by rewrite (querySelectorAll_leaf _ c _ cel). }
  split; [done|]. split.
  - intros Hnil. unfold autoCycleTabs. rewrite Hq, Htabs.
    pose proof (b_len_tab _ _ _ _ B) as Hlen. simpl in Hlen. rewrite Hnil in Hlen.
    by destruct (tabItems els).
  - intros Hne.
    destruct (autoCycleTabs_found sel interval w c Hq) as [w1 E].
    { rewrite Htabs. pose proof (b_len_tab _ _ _ _ B) as Hlen. simpl in Hlen.
      destruct (tabItems els); [|done]. by destruct (VerticalTabsConfig.tabs config). }
    exists (List.length (scopes w)), w1, (next_timer w). split; [done|].
    apply autoCycleTabs_Some in E as (c' & Hc' & _ & _ & ->).
    assert (c' = c) as -> by congruence.
    unfold scope_is. simpl. rewrite lookup_snoc_eq by done. by rewrite Htabs.
Qed.

(** Witness of X18: a widget of two tabs in an empty container. *)
Lemma autoCycleTabs_needs_headers_witness :
  let config := VerticalTabsConfig.mk "#tabs" None
                  [TabConfig.mk "One" "first" "/one.png" None;
                   TabConfig.mk "Two" "second" "/two.png"
                     (Some (TabButtonConfig.mk "Go" "/two"))] (Some true) in
  let page := fresh_page [blank "div"]
                (λ sel, if String.eqb sel "#tabs" then Some 0 else None) in
  let sel := VerticalTabsConfig.container config in
  let w := createVerticalTabs config page in
  let els := (createTabElements (settings_of config) (nodes page)).1 in
  autoCycleTabs sel (Some 3000%Z) page = (None, warn ("No tabs found in " +:+ sel) page)
  ∧ querySelectorAll "vt__list-item" 0 (nodes w) = tabItems els
  ∧ (VerticalTabsConfig.tabs config = [] →
     autoCycleTabs sel (Some 3000%Z) w = (None, warn ("No tabs found in " +:+ sel) w))
  ∧ (VerticalTabsConfig.tabs config ≠ [] →
     ∃ s w1 id, autoCycleTabs sel (Some 3000%Z) w = (Some s, w1)
                ∧ scope_is s (tabItems els) (default 5000%Z (Some 3000%Z)) (Some id) w1).
Proof.
  intros config page sel w els.
  exact (autoCycleTabs_needs_headers config page 0 (blank "div") (Some 3000%Z)
           eq_refl eq_refl eq_refl ltac:(vm_compute; reflexivity)
           ltac:(vm_compute; reflexivity)).
Defined.
(** ** The 1.0.0 script: what its listeners do differently *)

(** X19. The click listener of the 1.0.0 script logs where the current one
    is silent. For a click whose path holds no header it writes the warning
    ["Clicked outside a tab"]; when the nearest header stores no index, or
    one that [Number] turns into [NaN], it writes the error
    ["Invalid tab index:"]; in both cases nothing else changes. Every other
    stored string, the empty one included, goes through [Number] and the
    result is selected, with nothing logged. *)
Theorem legacy_click_listener_logs (Number : string → JSNumber)
    (els : Legacy.TabElements) (target : ref) (w : World) :
  let d := nodes w in
  let w' := Legacy.click_listener Number els target w in
  (Forall (λ r, has_class "vt__list-item" r d = false) (path target d) →
   w' = warn "Clicked outside a tab" w)
  ∧ (∀ tabEl, nearest_header target tabEl d →
       match stored_index tabEl d with
       | None => w' = Legacy.error "Invalid tab index:" w
       | Some indexStr =>
           if isNaN (Number indexStr) then w' = Legacy.error "Invalid tab index:" w
           else w' = exec_dom (Legacy.selectTab (Number indexStr) els) w
                ∧ console w' = console w
       end)
  ∧ nodes (warn "Clicked outside a tab" w) = d
  ∧ nodes (Legacy.error "Invalid tab index:" w) = d.
Proof.
  intros d w'. split; [|split; [|done]].
  - intros Hnone%closest_None. by apply legacy_click_outside_warns.
  - intros tabEl Hnear%closest_Some. unfold w', Legacy.click_listener. fold d.
    rewrite Hnear. destruct (stored_index tabEl d) as [indexStr|]; [|done].
    destruct (isNaN (Number indexStr)); [done|]. split; [done|].
    unfold exec_dom, run_dom. by destruct (Legacy.selectTab _ _ _).
Qed.

Lemma legacy_hover_keeps s enter w id t :
  timers w !! id = Some t → (id < next_timer w)%positive → get_intervalId s w ≠ Some id →
  timers (legacy_hover s enter w) !! id = Some t
  ∧ (id < next_timer (legacy_hover s enter w))%positive
  ∧ get_intervalId s (legacy_hover s enter w) ≠ Some id.
Proof.
  intros Ht Hlt Hrec. destruct enter; simpl.
  - unfold Legacy.hover_enter, clearInterval.
    destruct (get_intervalId s w) as [id'|] eqn:E; simpl.
    + rewrite lookup_delete_ne by congruence. split; [done|]. split; [done|].
      unfold get_intervalId in *. simpl. by rewrite E.
    + split; [done|]. split; [done|]. by rewrite E.
  - unfold Legacy.hover_leave. destruct (scopes w !! s) as [sc|] eqn:E; [|done]. simpl.
    rewrite lookup_insert_ne by lia. split; [done|]. split; [lia|].
    rewrite get_set_intervalId. simpl. rewrite decide_True by done. rewrite E. simpl.
    intros [= H]. lia.
Qed.

(** X20. The hover listeners of the 1.0.0 script can lose a timer for good.
    When the pointer leaves the container while the timer on record is
    running (the state [autoCycleTabs] leaves), the pointer-leave listener
    starts a second timer and records that one; from then on the first timer
    keeps running through every series of pointer-enter and pointer-leave
    events, since entering only clears the timer on record. *)
Theorem legacy_hover_leaks_timer (s : nat) (w : World) (id : positive) (t : TimerTask)
    (events : list bool) :
  timers w !! id = Some t → get_intervalId s w = Some id →
  (id < next_timer w)%positive →
  let w1 := Legacy.hover_leave s w in
  (∃ id', id' ≠ id ∧ get_intervalId s w1 = Some id' ∧ is_Some (timers w1 !! id'))
  ∧ timers w1 !! id = Some t
  ∧ timers (fold_left (λ w' enter, legacy_hover s enter w') events w1) !! id = Some t.
Proof.
  intros Ht Hrec Hlt w1.
  assert (Hsc : is_Some (scopes w !! s)).
  { unfold get_intervalId in Hrec. destruct (scopes w !! s); [by eexists|done]. }
  destruct Hsc as [sc Hsc].
  assert (H1 : timers w1 !! id = Some t ∧ (id < next_timer w1)%positive
               ∧ get_intervalId s w1 ≠ Some id).
  { unfold w1, Legacy.hover_leave. rewrite Hsc. simpl.
    rewrite lookup_insert_ne by lia. split; [done|]. split; [lia|].
    rewrite get_set_intervalId. simpl. rewrite decide_True by done. rewrite Hsc. simpl.
    intros [= H]. lia. }
  split; [|split; [apply H1|]].
  - exists (next_timer w). unfold w1, Legacy.hover_leave. rewrite Hsc. simpl.
    split; [lia|]. rewrite get_set_intervalId. simpl. rewrite decide_True by done.
    rewrite Hsc. simpl. split; [done|]. rewrite lookup_insert_eq. by eexists.
  - generalize dependent w1. induction events as [|e l IH]; intros w1 (I1 & I2 & I3); [done|].
    simpl. apply IH. by apply legacy_hover_keeps.
Qed.

(** Witness of X20: an activation with its first timer running, left, then entered, left and entered. *)
Lemma legacy_hover_leaks_timer_witness :
  let config := VerticalTabsConfig.mk "#tabs" None
                  [TabConfig.mk "One" "first" "/one.png" None;
                   TabConfig.mk "Two" "second" "/two.png" None] None in
  let page := fresh_page [blank "div"]
                (λ sel, if String.eqb sel "#tabs" then Some 0 else None) in
  let w := (autoCycleTabs "#tabs" None (createVerticalTabs config page)).2 in
  let w1 := Legacy.hover_leave 0 w in
  (∃ id', id' ≠ 1%positive ∧ get_intervalId 0 w1 = Some id' ∧ is_Some (timers w1 !! id'))
  ∧ timers w1 !! 1%positive = Some (mkTimerTask 0 5000%Z)
  ∧ timers (fold_left (λ w' enter, legacy_hover 0 enter w') [true; false; true] w1)
      !! 1%positive = Some (mkTimerTask 0 5000%Z).
Proof.
  intros config page w w1.
  exact (legacy_hover_leaks_timer 0 w 1%positive (mkTimerTask 0 5000%Z) [true; false; true]
           eq_refl eq_refl ltac:(vm_compute; reflexivity)).
Defined.
(** ** The builder of the 1.0.0 script *)

Lemma legacy_createElement_plain tag cls (d : Dom) :
  Legacy.createElement tag cls [] d = (List.length d, d ++ [new_element tag cls []]).
Proof. reflexivity. Qed.

Lemma legacy_createTabItem_eq tab i (d : Dom) :
  Legacy.createTabItem tab i d
  = (List.length d,
     d ++ [set_innerHTML (legacy_header_html tab)
             (set_attrs <["data-index" := toString i]> (new_element "li" "vt__list-item" []))]).
Proof.
  unfold Legacy.createTabItem, bind, update, ret. rewrite legacy_createElement_plain. f_equal.
  by rewrite !alter_snoc.
Qed.

Lemma legacy_createImage_eq src p (d : Dom) :
  p < List.length d →
  Legacy.createImage src p d
  = (List.length d,
     alter (add_child (List.length d)) p d
     ++ [set_parentNode (Some p)
           (new_element "img" "vt__image" [("src", src); ("style", "display: none")])]).
Proof.
  intros Hp. unfold Legacy.createImage, bind, update, ret, alloc.
  cbn [fst snd]. rewrite !alter_snoc.
  rewrite appendChild_last; [|done..]. reflexivity.
Qed.

Lemma legacy_createButton_eq b (d : Dom) :
  Legacy.createButton b d = (List.length d, d ++ [real_button_el b]).
Proof. reflexivity. Qed.

Lemma legacy_createTabButton_eq tab ct (d : Dom) :
  ct < List.length d →
  Legacy.createTabButton tab ct d
  = match usable_button tab with
    | Some b => (Some (List.length d),
                 alter (add_child (List.length d)) ct d
                 ++ [set_parentNode (Some ct) (real_button_el b)])
    | None => (None, d)
    end.
Proof.
  intros Hct. unfold Legacy.createTabButton, usable_button.
  destruct (TabConfig.button tab) as [b|]; [|reflexivity].
  destruct (truthy _ && truthy _)%bool; [|reflexivity].
  unfold bind, ret. rewrite legacy_createButton_eq.
  rewrite appendChild_last; [done..|apply parentNode_new_element].
Qed.

Lemma legacy_tab_step_eq ul ct acc tab i (d : Dom) :
  ul < List.length d → ct < List.length d → ul ≠ ct →
  Legacy.tab_step ul ct acc tab i d
  = (legacy_step_acc tab (List.length d) acc,
     alter (add_child (List.length d)) ul
       (alter (legacy_content_update tab (List.length d)) ct d)
     ++ legacy_step_new tab i ul ct).
Proof.
  intros Hul Hct Hne. unfold Legacy.tab_step.
  erewrite bind_run by apply legacy_createTabItem_eq.
  erewrite bind_run by (apply legacy_createImage_eq; len).
  unfold legacy_step_acc, legacy_step_new, legacy_content_update.
  destruct (usable_button tab) as [b|] eqn:Hus.
  - erewrite bind_run.
    2:{ rewrite legacy_createTabButton_eq by len. rewrite Hus. reflexivity. }
    erewrite bind_run.
    2:{ apply appendChild_parentless. unfold parentOf. dom_lookup. done. }
    unfold ret. f_equal; [f_equal; f_equal; f_equal; f_equal; len | step_store d ul ct].
  - erewrite bind_run.
    2:{ rewrite legacy_createTabButton_eq by len. rewrite Hus. reflexivity. }
    erewrite bind_run.
    2:{ apply appendChild_parentless. unfold parentOf. dom_lookup. done. }
    unfold ret. f_equal; [f_equal; f_equal; f_equal; len | step_store d ul ct].
Qed.

Lemma legacy_items_step tab L tabItems imageItems buttonItems :
  legacy_items (tabItems ++ [L]) (imageItems ++ [L + 1])
    (buttonItems ++ [match usable_button tab with Some _ => Some (L + 2) | None => None end])
  ≡ₚ legacy_items tabItems imageItems buttonItems
     ++ [L; L + 1] ++ match usable_button tab with Some _ => [L + 2] | None => [] end.
Proof.
  unfold legacy_items. rewrite omap_app. destruct (usable_button tab); simpl; solve_Permutation.
Qed.

Lemma legacy_inv_step ul ct base (d0 : Dom) seen acc (d : Dom) tab :
  ul < base → ct < base → ul ≠ ct →
  legacy_inv ul ct base d0 seen acc d →
  legacy_inv ul ct base d0 (seen ++ [tab])
    (legacy_step_acc tab (List.length d) acc)
    (alter (add_child (List.length d)) ul
       (alter (legacy_content_update tab (List.length d)) ct d)
     ++ legacy_step_new tab (List.length seen) ul ct).
Proof.
  intros Hul Hct Hne [Hbase Hlt Hli Hlb Hrange Hnd Hframe Hpar Hh Hi Hb].
  set (items0 := legacy_items (Legacy.acc_tabItems acc) (Legacy.acc_imageItems acc)
                   (Legacy.acc_buttonItems acc)) in *.
  assert (Hold : ∀ r, r ∈ items0 → base ≤ r < List.length d) by by apply Forall_forall.
  set (d' := alter _ ul _ ++ _).
  assert (Hkeep : ∀ r, r < List.length d → r ≠ ul → r ≠ ct → d' !! r = d !! r).
  { intros r Hr ? ?. unfold d'. rewrite lookup_app_l by len. by dom_lookup. }
  assert (Hkeep' : ∀ r, r ∈ items0 → d' !! r = d !! r).
  { intros r Hr%Hold. apply Hkeep; lia. }
  assert (Hlen : List.length d' = List.length d + 2
                 + match usable_button tab with Some _ => 1 | None => 0 end).
  { unfold d', legacy_step_new. rewrite length_app, !length_alter.
    destruct (usable_button tab); simpl; lia. }
  assert (Hnew : ∀ k x, legacy_step_new tab (List.length seen) ul ct !! k = Some x →
                        d' !! (List.length d + k) = Some x).
  { intros k x Hk. unfold d'. rewrite (lookup_app_at _ _ _ k) by len. done. }
  assert (Hin : ∀ r, r ∈ [List.length d; List.length d + 1]
                       ++ match usable_button tab with
                          | Some _ => [List.length d + 2] | None => [] end →
                     List.length d ≤ r < List.length d').
  { intros r. rewrite Hlen. destruct (usable_button tab); rewrite ?app_nil_r;
      rewrite ?elem_of_app, ?elem_of_cons, ?elem_of_nil; lia. }
  split.
  - lia.
  - unfold legacy_step_acc; simpl. rewrite !length_app; simpl. lia.
  - unfold legacy_step_acc; simpl. rewrite !length_app; simpl. lia.
  - unfold legacy_step_acc; simpl. rewrite !length_app; simpl. lia.
  - apply Forall_forall. intros r Hr. unfold legacy_step_acc in Hr. simpl in Hr.
    rewrite legacy_items_step in Hr. apply elem_of_app in Hr as [Hr%Hold|Hr%Hin]; lia.
  - unfold legacy_step_acc. simpl. rewrite legacy_items_step. apply NoDup_app.
    split; [done|]. split.
    + intros r Hr%Hold Hr'%Hin. lia.
    + destruct (usable_button tab); simpl;
        repeat (apply NoDup_cons; split; [rewrite ?elem_of_cons, elem_of_nil; lia|]);
        apply NoDup_nil_2.
  - intros r Hr ? ?. rewrite Hkeep by lia. by apply Hframe.
  - rewrite <- Hpar. unfold parentOf, d'. rewrite lookup_app_l by len. dom_lookup.
    destruct (d !! ct) as [el|]; [|done]. unfold legacy_content_update.
    by destruct (usable_button tab).
  - apply slots_snoc; [|done|].
    + eapply slots_frame; [done|]. intros r Hr. apply Hkeep'.
      unfold items0, legacy_items. rewrite !elem_of_app; auto.
    + rewrite <- (Nat.add_0_r (List.length d)). by apply Hnew.
  - apply slots_snoc; [|done|].
    + eapply slots_frame; [done|]. intros r Hr. apply Hkeep'.
      unfold items0, legacy_items. rewrite !elem_of_app; auto.
    + by apply Hnew.
  - intros i tab' Hi'. unfold legacy_step_acc. simpl.
    apply lookup_snoc_Some in Hi' as [[Hlt' Hi']|[-> <-]].
    + rewrite lookup_app_l by lia. specialize (Hb i tab' Hi').
      destruct (usable_button tab') as [b|]; [|done].
      destruct Hb as (r & Hr & Hel). exists r. split; [done|].
      rewrite Hkeep'; [done|]. unfold items0, legacy_items. rewrite !elem_of_app.
      right. right. apply list_elem_of_omap. exists (Some r).
      split; [by eapply list_elem_of_lookup_2|done].
    + rewrite <- Hlb. rewrite lookup_snoc_eq by done.
      destruct (usable_button tab) as [b|] eqn:Hus; [|done].
      exists (List.length d + 2). split; [done|]. apply Hnew.
      unfold legacy_step_new. by rewrite Hus.
Qed.

Lemma legacy_reduce_inv ul ct base (d0 : Dom) rest :
  ul < base → ct < base → ul ≠ ct →
  ∀ seen acc (d : Dom),
    legacy_inv ul ct base d0 seen acc d →
    legacy_inv ul ct base d0 (seen ++ rest)
      (reduce_from (Legacy.tab_step ul ct) rest (List.length seen) acc d).1
      (reduce_from (Legacy.tab_step ul ct) rest (List.length seen) acc d).2.
Proof.
  intros Hul Hct Hne. induction rest as [|tab rest IH]; intros seen acc d Hinv.
  - simpl. by rewrite app_nil_r.
  - simpl. pose proof (lg_base _ _ _ _ _ _ _ Hinv) as Hb.
    erewrite bind_run by (apply legacy_tab_step_eq; lia).
    replace (S (List.length seen)) with (List.length (seen ++ [tab])) by len.
    replace (seen ++ tab :: rest) with ((seen ++ [tab]) ++ rest) by by rewrite <- app_assoc.
    apply IH. by apply legacy_inv_step.
Qed.

Lemma appendChild_lookup p c (d : Dom) r :
  parentOf c d = None → r ≠ p → r ≠ c → (appendChild p c d).2 !! r = d !! r.
Proof.
  intros Hc Hp Hrc. rewrite appendChild_parentless by done. simpl.
  by rewrite !list_lookup_alter_ne.
Qed.

(** What [createTabElements] of 1.0.0 leaves. *)
Lemma legacy_createTabElements_inv (settings : Legacy.Settings) (d0 : Dom) :
  let L0 := List.length d0 in
  let els := (Legacy.createTabElements settings d0).1 in
  let d1 := (Legacy.createTabElements settings d0).2 in
  Legacy.wrapper els = L0 ∧ Legacy.tabUL els = L0 + 2 ∧ Legacy.contentEl els = L0 + 3
  ∧ ∃ dA dB : Dom,
      legacy_inv (L0 + 2) (L0 + 3) (L0 + 4) dA (Legacy.tabs settings)
        (Legacy.mkAcc (Legacy.tabItems els) (Legacy.imageItems els) (Legacy.buttonItems els))
        dB
      ∧ List.length d1 = List.length dB
      ∧ (∀ r, r ≠ L0 → r ≠ L0 + 1 → r ≠ L0 + 3 → d1 !! r = dB !! r)
      ∧ (∀ r, r < L0 → dA !! r = d0 !! r).
Proof.
  intros L0. unfold Legacy.createTabElements.
  erewrite bind_run by reflexivity.
  do 3 (erewrite bind_run by apply legacy_createElement_plain).
  erewrite bind_run.
  2:{ apply appendChild_parentless. unfold parentOf. dom_lookup. done. }
  repeat first [rewrite length_app | rewrite length_alter]. simpl List.length.
  rewrite <- ?Nat.add_assoc. cbn [Nat.add]. fold L0.
  set (dA := alter _ (L0 + 1) _).
  assert (HlenA : List.length dA = L0 + 4) by (unfold dA, L0; len).
  assert (HA1 : parentOf (L0 + 1) dA = None).
  { unfold parentOf, dA, L0. by dom_lookup. }
  assert (HA3 : parentOf (L0 + 3) dA = None).
  { unfold parentOf, dA, L0. by dom_lookup. }
  assert (HAf : ∀ r, r < L0 → dA !! r = d0 !! r).
  { intros r Hr. unfold dA, L0 in *. by dom_lookup. }
  assert (Hinv0 : legacy_inv (L0 + 2) (L0 + 3) (L0 + 4) dA [] (Legacy.mkAcc [] [] []) dA).
  { split; simpl; try done; try lia; try constructor. }
  apply (legacy_reduce_inv (L0 + 2) (L0 + 3) (L0 + 4) dA (Legacy.tabs settings)
           ltac:(lia) ltac:(lia) ltac:(lia) [] _ _) in Hinv0.
  simpl in Hinv0. unfold reduce.
  destruct (reduce_from _ _ 0 _ dA) as [acc dB] eqn:Hred. simpl in Hinv0.
  rewrite (bind_run _ _ _ _ _ Hred).
  assert (HB1 : parentOf (L0 + 1) dB = None).
  { unfold parentOf. rewrite (lg_frame _ _ _ _ _ _ _ Hinv0) by lia. exact HA1. }
  assert (HB3 : parentOf (L0 + 3) dB = None).
  { by rewrite (lg_parent _ _ _ _ _ _ _ Hinv0). }
  set (fin := if String.eqb (Legacy.position settings) "left" then _ else _).
  assert (Hfin : List.length (fin dB).2 = List.length dB
                 ∧ ∀ r, r ≠ L0 → r ≠ L0 + 1 → r ≠ L0 + 3 → (fin dB).2 !! r = dB !! r).
  { unfold fin. destruct (String.eqb _ _); rewrite seq_run, !appendChild_length;
      (split; [done|]); intros r H0 H1 H3;
      rewrite !appendChild_lookup; try done;
      rewrite appendChild_parentOf; try done; lia. }
  rewrite seq_run. unfold ret. cbn [fst snd Legacy.wrapper Legacy.tabUL Legacy.contentEl
    Legacy.tabItems Legacy.imageItems Legacy.buttonItems].
  do 3 (split; [done|]). exists dA, dB.
  destruct acc. split; [done|]. split; [apply Hfin|]. split; [apply Hfin|done].
Qed.

(** X21. The builder of the 1.0.0 script: for [N] tabs the three arrays it
    returns have length [N]. At the position of every tab, [tabItems] holds a
    list item under the list that stores the position in [data-index], and
    [imageItems] an [img] element under the content block with the image of
    the tab for source and display [none]. [buttonItems] holds a link under
    the content block, with the label and the target of the button and
    display [none], when the tab has a button with a non-empty label and a
    non-empty target, and [null] otherwise: no placeholder is built. *)
Theorem legacy_createTabElements_buttons (settings : Legacy.Settings) (d0 : Dom)
    (i : nat) (tab : TabConfig.t) :
  Legacy.tabs settings !! i = Some tab →
  let els := (Legacy.createTabElements settings d0).1 in
  let d1 := (Legacy.createTabElements settings d0).2 in
  let N := List.length (Legacy.tabs settings) in
  List.length (Legacy.tabItems els) = N
  ∧ List.length (Legacy.imageItems els) = N
  ∧ List.length (Legacy.buttonItems els) = N
  ∧ (∃ h el, Legacy.tabItems els !! i = Some h ∧ d1 !! h = Some el
             ∧ tagName el = "li" ∧ classList el = ["vt__list-item"]
             ∧ attrs el !! "data-index" = Some (toString i)
             ∧ parentNode el = Some (Legacy.tabUL els))
  ∧ (∃ img el, Legacy.imageItems els !! i = Some img ∧ d1 !! img = Some el
               ∧ tagName el = "img" ∧ classList el = ["vt__image"]
               ∧ props el !! "src" = Some (TabConfig.image tab)
               ∧ style el !! "display" = Some "none"
               ∧ parentNode el = Some (Legacy.contentEl els))
  ∧ (∀ b, TabConfig.button tab = Some b →
          TabButtonConfig.text b ≠ "" → TabButtonConfig.url b ≠ "" →
          ∃ r el, Legacy.buttonItems els !! i = Some (Some r) ∧ d1 !! r = Some el
                  ∧ tagName el = "a" ∧ classList el = ["vt__tab__button"]
                  ∧ props el !! "textContent" = Some (TabButtonConfig.text b)
                  ∧ props el !! "href" = Some (TabButtonConfig.url b)
                  ∧ style el !! "display" = Some "none"
                  ∧ parentNode el = Some (Legacy.contentEl els))
  ∧ (¬ (∃ b, TabConfig.button tab = Some b
             ∧ TabButtonConfig.text b ≠ "" ∧ TabButtonConfig.url b ≠ "") →
     Legacy.buttonItems els !! i = Some None).
Proof.
  intros Htab els d1 N.
  destruct (legacy_createTabElements_inv settings d0)
    as (Hw & Hul & Hct & dA & dB & Hinv & Hlen & Hsame & _).
  fold els d1 in Hw, Hul, Hct, Hinv, Hlen, Hsame.
  destruct Hinv as [Hbase Hlt Hli Hlb Hrange Hnd Hframe Hpar Hh Hi Hb].
  simpl in *. rewrite Forall_forall in Hrange.
  assert (Hitem : ∀ r, r ∈ legacy_items (Legacy.tabItems els) (Legacy.imageItems els)
                         (Legacy.buttonItems els) → d1 !! r = dB !! r).
  { intros r Hr%Hrange. apply Hsame; lia. }
  do 3 (split; [done|]). split; [|split; [|split]].
  - destruct (slots_lookup _ _ _ _ i tab Hh Hlt Htab) as (h & Hhi & Hel).
    exists h, (legacy_header_el tab i (List.length d0 + 2)). split; [done|].
    rewrite Hitem, Hul; [|unfold legacy_items; rewrite !elem_of_app; left;
                           by eapply list_elem_of_lookup_2].
    split; [done|]. repeat split; try done; apply lookup_insert_eq.
  - destruct (slots_lookup _ _ _ _ i tab Hi Hli Htab) as (img & Him & Hel).
    exists img, (image_el tab (List.length d0 + 3)). split; [done|].
    rewrite Hitem, Hct; [|unfold legacy_items; rewrite !elem_of_app; right; left;
                           by eapply list_elem_of_lookup_2].
    split; [done|]. repeat split; try done.
    all: unfold image_el, new_element; simpl;
      rewrite ?cssText_display_none; by simplify_map_eq.
  - intros b Hbtn Ht Hu. specialize (Hb i tab Htab).
    assert (Hus : usable_button tab = Some b).
    { unfold usable_button. rewrite Hbtn.
      by rewrite (proj2 (truthy_spec _) Ht), (proj2 (truthy_spec _) Hu). }
    rewrite Hus in Hb. destruct Hb as (r & Hr & Hel).
    exists r, (set_parentNode (Some (List.length d0 + 3)) (real_button_el b)).
    split; [done|]. rewrite Hitem.
    2:{ unfold legacy_items. rewrite !elem_of_app. right. right.
        apply list_elem_of_omap. exists (Some r).
        split; [by eapply list_elem_of_lookup_2|done]. }
    split; [done|]. rewrite Hct.
    destruct (real_button_facts b) as (F1 & F2 & F3 & F4 & F5 & _). by simpl.
  - intros Hno. specialize (Hb i tab Htab).
    destruct (usable_button tab) as [b|] eqn:Hus; [|done].
    apply usable_button_Some in Hus. exfalso. apply Hno. by exists b.
Qed.

(** Witness of X21: two tabs, the second with a button whose target is empty. *)
Lemma legacy_createTabElements_buttons_witness :
  let settings := Legacy.settings_of
                    (Legacy.mkConfig None None
                       (Some [TabConfig.mk "One" "first" "/one.png"
                                (Some (TabButtonConfig.mk "Go" "/go"));
                              TabConfig.mk "Two" "second" "/two.png"
                                (Some (TabButtonConfig.mk "Go" ""))])) in
  let tab := TabConfig.mk "Two" "second" "/two.png" (Some (TabButtonConfig.mk "Go" "")) in
  let els := (Legacy.createTabElements settings []).1 in
  let d1 := (Legacy.createTabElements settings []).2 in
  List.length (Legacy.tabItems els) = 2
  ∧ List.length (Legacy.imageItems els) = 2
  ∧ List.length (Legacy.buttonItems els) = 2
  ∧ (∃ h el, Legacy.tabItems els !! 1 = Some h ∧ d1 !! h = Some el
             ∧ tagName el = "li" ∧ classList el = ["vt__list-item"]
             ∧ attrs el !! "data-index" = Some (toString 1)
             ∧ parentNode el = Some (Legacy.tabUL els))
  ∧ (∃ img el, Legacy.imageItems els !! 1 = Some img ∧ d1 !! img = Some el
               ∧ tagName el = "img" ∧ classList el = ["vt__image"]
               ∧ props el !! "src" = Some (TabConfig.image tab)
               ∧ style el !! "display" = Some "none"
               ∧ parentNode el = Some (Legacy.contentEl els))
  ∧ (∀ b, TabConfig.button tab = Some b →
          TabButtonConfig.text b ≠ "" → TabButtonConfig.url b ≠ "" →
          ∃ r el, Legacy.buttonItems els !! 1 = Some (Some r) ∧ d1 !! r = Some el
                  ∧ tagName el = "a" ∧ classList el = ["vt__tab__button"]
                  ∧ props el !! "textContent" = Some (TabButtonConfig.text b)
                  ∧ props el !! "href" = Some (TabButtonConfig.url b)
                  ∧ style el !! "display" = Some "none"
                  ∧ parentNode el = Some (Legacy.contentEl els))
  ∧ (¬ (∃ b, TabConfig.button tab = Some b
             ∧ TabButtonConfig.text b ≠ "" ∧ TabButtonConfig.url b ≠ "") →
     Legacy.buttonItems els !! 1 = Some None).
Proof.
  intros settings tab els d1.
  exact (legacy_createTabElements_buttons settings [] 1 tab eq_refl).
Defined.
(** ** Selection in the 1.0.0 script *)

Lemma each_update_opt_cons F o l (d : Dom) :
  each_update_opt F (o :: l) d
  = each_update_opt (λ i, F (S i)) l
      (match o with Some r => alter (F 0) r d | None => d end).
Proof.
  unfold each_update_opt, forEach. simpl. unfold bind.
  destruct o as [r|]; simpl.
  - generalize (alter (F 0) r d). generalize 0.
    induction l as [|x l IH]; intros n d'; simpl; [done|].
    unfold bind. destruct x; simpl; apply IH.
  - generalize d. generalize 0.
    induction l as [|x l IH]; intros n d'; simpl; [done|].
    unfold bind. destruct x; simpl; apply IH.
Qed.

Lemma each_update_opt_length F l (d : Dom) :
  List.length (each_update_opt F l d) = List.length d.
Proof.
  revert F d. induction l as [|o l IH]; intros F d; [done|].
  rewrite each_update_opt_cons, IH. destruct o; [apply length_alter|done].
Qed.

Lemma each_update_opt_notin F l (d : Dom) r :
  r ∉ omap id l → each_update_opt F l d !! r = d !! r.
Proof.
  revert F d. induction l as [|o l IH]; intros F d Hr; [done|].
  rewrite each_update_opt_cons. destruct o as [x|]; simpl in Hr.
  - apply not_elem_of_cons in Hr as [Hx Hl]. rewrite IH by done.
    by rewrite list_lookup_alter_ne.
  - by rewrite IH.
Qed.

Lemma each_update_opt_in F l (d : Dom) i r :
  NoDup (omap id l) → l !! i = Some (Some r) →
  each_update_opt F l d !! r = F i <$> d !! r.
Proof.
  revert F d i. induction l as [|o l IH]; intros F d i Hnd Hi; [done|].
  rewrite each_update_opt_cons. destruct i as [|i]; simpl in Hi.
  - injection Hi as ->. simpl in Hnd. apply NoDup_cons in Hnd as [Hx Hnd].
    rewrite each_update_opt_notin by done. apply list_lookup_alter_eq.
  - assert (Hin : r ∈ omap id l).
    { apply list_elem_of_omap. exists (Some r). split; [by eapply list_elem_of_lookup_2|done]. }
    destruct o as [x|]; simpl in Hnd.
    + apply NoDup_cons in Hnd as [Hx Hnd]. rewrite (IH _ _ i) by done.
      rewrite list_lookup_alter_ne; [done|]. by intros ->.
    + by rewrite (IH _ _ i).
Qed.

Lemma legacy_selectTab_eq index els (d : Dom) :
  (Legacy.selectTab index els d).2
  = each_update_opt
      (λ i, set_style <["display" := if strict_eq i index then "inline-block" else "none"]>)
      (Legacy.buttonItems els)
      (each_update (λ i, set_style <["display" := if strict_eq i index then "block" else "none"]>)
         (Legacy.imageItems els)
         (each_update (λ i, set_classList (classList_toggle "active" (strict_eq i index)))
            (Legacy.tabItems els) d)).
Proof. unfold Legacy.selectTab. by rewrite !seq_run. Qed.

(** X22. [selectTab] of the 1.0.0 script on a widget its builder made, for
    every integer [z], in range or not: the [null] entries of [buttonItems]
    are passed over; afterwards header [i] is active iff [i = z], image [i]
    has display [block] iff [i = z] and [none] otherwise, and every button
    that exists has display [inline-block] iff its position is [z] and
    [none] otherwise; the document keeps its length. *)
Theorem legacy_selectTab_skips_missing_buttons (settings : Legacy.Settings) (d0 : Dom)
    (z : Z) :
  let els := (Legacy.createTabElements settings d0).1 in
  let d1 := (Legacy.createTabElements settings d0).2 in
  let d := (Legacy.selectTab (Int z) els d1).2 in
  List.length d = List.length d1
  ∧ (∀ i r, Legacy.tabItems els !! i = Some r →
            is_active r d = bool_decide (Z.of_nat i = z))
  ∧ (∀ i r, Legacy.imageItems els !! i = Some r →
            display r d = Some (if bool_decide (Z.of_nat i = z) then "block" else "none"))
  ∧ (∀ i r, Legacy.buttonItems els !! i = Some (Some r) →
            display r d
            = Some (if bool_decide (Z.of_nat i = z) then "inline-block" else "none")).
Proof.
  intros els d1 d.
  destruct (legacy_createTabElements_inv settings d0)
    as (_ & _ & _ & dA & dB & Hinv & Hlen & _).
  fold els d1 in Hinv, Hlen.
  destruct Hinv as [_ _ _ _ Hrange Hnd _ _ _ _ _]. simpl in *.
  unfold legacy_items in *. rewrite Forall_forall in Hrange.
  setoid_rewrite elem_of_app in Hrange. setoid_rewrite elem_of_app in Hrange.
  apply NoDup_app in Hnd as (N1 & D1 & Hnd). apply NoDup_app in Hnd as (N2 & D2 & N3).
  setoid_rewrite elem_of_app in D1.
  assert (Hex : ∀ r, r < List.length d1 → ∃ el, d1 !! r = Some el).
  { intros r Hr. by apply lookup_lt_is_Some_2. }
  unfold d. rewrite legacy_selectTab_eq.
  split; [by rewrite each_update_opt_length, !each_update_length|].
  split; [|split].
  - intros i r Hi. pose proof (list_elem_of_lookup_2 _ _ _ Hi) as Hr.
    destruct (Hex r) as [el Hel]; [rewrite Hlen; apply Hrange; auto|].
    unfold is_active, has_class.
    rewrite each_update_opt_notin by (intros ?; apply (D1 r); auto).
    rewrite each_update_notin by (intros ?; apply (D1 r); auto).
    rewrite (each_update_in _ _ _ i) by done. rewrite Hel. simpl.
    rewrite <- strict_eq_Int. apply classList_contains_toggle.
  - intros i r Hi. pose proof (list_elem_of_lookup_2 _ _ _ Hi) as Hr.
    destruct (Hex r) as [el Hel]; [rewrite Hlen; apply Hrange; auto|].
    unfold display.
    rewrite each_update_opt_notin by (intros ?; by apply (D2 r)).
    rewrite (each_update_in _ _ _ i) by done.
    rewrite each_update_notin by (intros ?; apply (D1 r); auto).
    rewrite Hel. simpl. rewrite <- strict_eq_Int. apply lookup_insert_eq.
  - intros i r Hi.
    assert (Hr : r ∈ omap id (Legacy.buttonItems els)).
    { apply list_elem_of_omap. exists (Some r). split; [by eapply list_elem_of_lookup_2|done]. }
    destruct (Hex r) as [el Hel]; [rewrite Hlen; apply Hrange; auto|].
    unfold display. rewrite (each_update_opt_in _ _ _ i) by done.
    rewrite each_update_notin by (intros ?; by apply (D2 r)).
    rewrite each_update_notin by (intros ?; apply (D1 r); auto).
    rewrite Hel. simpl. rewrite <- strict_eq_Int. apply lookup_insert_eq.
Qed.
(** ** Numbers that are no position *)

(** X23. Selecting a number that is not an integer ([NaN], a fraction, an
    infinity) matches no position: on a widget as built, in whatever state
    earlier selections left it, every header becomes inactive and every
    image, button and debug panel gets display [none]. *)
Theorem selectTab_non_integer_hides_all (s : Settings.t) (d0 : Dom)
    (selections : list JSNumber) :
  let els := (createTabElements s d0).1 in
  let d1 := (createTabElements s d0).2 in
  let d := select_all selections els d1 in
  all_hidden els (selectTab NaN els d).2 ∧ all_hidden els (selectTab NonInt els d).2.
Proof.
  intros els d1 d.
  pose proof (createTabElements_built s d0) as B. fold els d1 in B.
  destruct (built_select_all _ _ _ _ selections B) as [Hnd Hr]. fold d in Hr.
  rewrite Forall_forall in Hr. unfold items in Hr.
  setoid_rewrite elem_of_app in Hr. setoid_rewrite elem_of_app in Hr.
  setoid_rewrite elem_of_app in Hr.
  assert (H : ∀ index, (∀ i, strict_eq i index = false) →
                       all_hidden els (selectTab index els d).2).
  { intros index Hne. split.
    - apply Forall_lookup. intros i r Hi. pose proof (list_elem_of_lookup_2 _ _ _ Hi).
      rewrite (selected_header _ _ _ i); auto.
    - rewrite !Forall_app. repeat split; apply Forall_lookup; intros i r Hi;
        pose proof (list_elem_of_lookup_2 _ _ _ Hi).
      + rewrite (selected_image _ _ _ i); auto. by rewrite Hne.
      + rewrite (selected_button _ _ _ i); auto. by rewrite Hne.
      + rewrite (selected_debug _ _ _ i); auto. by rewrite Hne. }
  split; by apply H.
Qed.

(** ** The fixed elements of a widget *)

Lemma appendChild_lookup_child p c (d : Dom) :
  parentOf c d = None → c ≠ p →
  (appendChild p c d).2 !! c = set_parentNode (Some p) <$> d !! c.
Proof.
  intros Hc Hne. rewrite appendChild_parentless by done. simpl.
  by rewrite list_lookup_alter_ne, list_lookup_alter_eq.
Qed.

Lemma reduce_from_content s ul ct rest :
  ∀ i acc (d : Dom), ul < List.length d → ct < List.length d → ul ≠ ct →
  ∃ cs,
    (reduce_from (tab_step s ul ct) rest i acc d).2 !! ct
    = (λ el, set_childNodes (λ _, cs)
               (if (Settings.debug s && negb (List.length rest =? 0))%bool
                then set_style <["position" := "relative"]> el else el)) <$> d !! ct.
Proof.
  induction rest as [|tab rest IH]; intros i acc d Hul Hct Hne.
  { destruct (lookup_lt_is_Some_2 d ct Hct) as [el Hel]. exists (childNodes el).
    simpl. rewrite Hel, andb_false_r. simpl. by destruct el. }
  cbn [reduce_from]. erewrite bind_run by (by apply tab_step_eq).
  set (d1 := alter _ ul _ ++ _).
  assert (Hlen : List.length d ≤ List.length d1) by (unfold d1; len).
  destruct (IH (S i) (step_acc (Settings.debug s) (List.length d) acc) d1
              ltac:(lia) ltac:(lia) Hne) as [cs Hcs].
  exists cs. rewrite Hcs. unfold d1. rewrite lookup_app_l by len.
  rewrite list_lookup_alter_ne, list_lookup_alter_eq by done.
  destruct (d !! ct) as [el|]; [|done]. simpl. f_equal.
  unfold content_update. destruct (Settings.debug s); simpl.
  - destruct (List.length rest =? 0); destruct el; unfold set_childNodes, set_style; simpl;
      f_equal; by rewrite ?insert_insert_eq.
  - by destruct el.
Qed.

(** X24. The fixed elements of a built widget: the tabs block is a [div] of
    class [vt__tabs] under the wrapper whose only child is the list; the
    list is a [ul] of class [vt__list] under the tabs block; the content
    block is a [div] of class [vt__content] under the wrapper, and its
    inline style is [position: relative] when debug mode is on and there is
    at least one tab, and empty otherwise. None of the three has a content
    attribute or a property. *)
Theorem createTabElements_skeleton (s : Settings.t) (d0 : Dom) :
  let els := (createTabElements s d0).1 in
  let d1 := (createTabElements s d0).2 in
  let N := List.length (Settings.tabs s) in
  ∃ tabsEl elT elU elC,
    d1 !! tabsEl = Some elT ∧ d1 !! tabUL els = Some elU ∧ d1 !! contentEl els = Some elC
    ∧ tagName elT = "div" ∧ classList elT = ["vt__tabs"]
    ∧ parentNode elT = Some (wrapper els) ∧ childNodes elT = [tabUL els]
    ∧ tagName elU = "ul" ∧ classList elU = ["vt__list"] ∧ parentNode elU = Some tabsEl
    ∧ tagName elC = "div" ∧ classList elC = ["vt__content"]
    ∧ parentNode elC = Some (wrapper els)
    ∧ style elC = (if (Settings.debug s && negb (N =? 0))%bool
                   then <["position" := "relative"]> ∅ else ∅)
    ∧ style elT = ∅ ∧ style elU = ∅
    ∧ attrs elT = ∅ ∧ attrs elU = ∅ ∧ attrs elC = ∅
    ∧ props elT = ∅ ∧ props elU = ∅ ∧ props elC = ∅.
Proof.
  intros els d1 N.
  pose proof (createTabElements_built s d0) as B. fold els d1 in B.
  set (L0 := List.length d0) in *.
  assert (HC : ∃ cs, d1 !! (L0 + 3)
                 = Some (set_parentNode (Some L0)
                           (set_childNodes (λ _, cs)
                              (if (Settings.debug s && negb (N =? 0))%bool
                               then set_style <["position" := "relative"]>
                                      (new_element "div" "vt__content" [])
                               else new_element "div" "vt__content" [])))).
  { unfold d1, createTabElements.
    do 4 (erewrite bind_run by apply createElement_eq).
    erewrite bind_run.
    2:{ apply appendChild_parentless. unfold parentOf. dom_lookup. done. }
    repeat first [rewrite length_app | rewrite length_alter]. simpl List.length.
    rewrite <- ?Nat.add_assoc. cbn [Nat.add]. fold L0.
    set (dA := alter _ (L0 + 1) _).
    assert (HlenA : List.length dA = L0 + 4) by (unfold dA, L0; len).
    assert (HA1 : parentOf (L0 + 1) dA = None) by (unfold parentOf, dA, L0; by dom_lookup).
    assert (HA3 : dA !! (L0 + 3) = Some (new_element "div" "vt__content" []))
      by (unfold dA, L0; by dom_lookup).
    unfold reduce.
    destruct (reduce_from_layout s (L0 + 2) (L0 + 3) (Settings.tabs s) 0 (mkAcc [] [] [] []) dA
                ltac:(lia) ltac:(lia) ltac:(lia)) as (_ & _ & _ & _ & _ & _ & _ & E7 & E8).
    destruct (reduce_from_content s (L0 + 2) (L0 + 3) (Settings.tabs s) 0 (mkAcc [] [] [] []) dA
                ltac:(lia) ltac:(lia) ltac:(lia)) as [cs Hcs].
    destruct (reduce_from _ _ 0 _ dA) as [acc dB] eqn:Hred.
    rewrite (bind_run _ _ _ _ _ Hred). cbn [fst snd] in *.
    rewrite HA3 in Hcs. simpl in Hcs.
    assert (HB1 : parentOf (L0 + 1) dB = None).
    { unfold parentOf. rewrite E8 by lia. exact HA1. }
    assert (HB3 : parentOf (L0 + 3) dB = None).
    { rewrite E7. unfold parentOf. by rewrite HA3. }
    exists cs. rewrite seq_run. unfold ret. cbn [snd].
    destruct (String.eqb _ _); rewrite seq_run.
    - rewrite appendChild_lookup_child;
        [|rewrite appendChild_parentOf; [done..|lia]|lia].
      rewrite appendChild_lookup by (done || lia). rewrite Hcs. fold N.
      by destruct (Settings.debug s && negb (N =? 0))%bool.
    - rewrite appendChild_lookup; [|rewrite appendChild_parentOf; [done..|lia]|lia..].
      rewrite appendChild_lookup_child by (done || lia). rewrite Hcs. fold N.
      by destruct (Settings.debug s && negb (N =? 0))%bool. }
  destruct HC as [cs HC].
  eexists (L0 + 1), _, _, _.
  rewrite (b_tabUL _ _ _ _ B), (b_contentEl _ _ _ _ B), (b_wrapper _ _ _ _ B). fold L0.
  split; [apply (b_tabs_el _ _ _ _ B)|]. split; [apply (b_list_el _ _ _ _ B)|].
  split; [exact HC|].
  destruct (Settings.debug s && negb (N =? 0))%bool; repeat split.
Qed.
(** ** Every widget shows one position *)

Lemma strict_eq_shown i index :
  strict_eq i index = bool_decide (Z.of_nat i = shown_position index).
Proof.
  destruct index as [|z|]; simpl.
  - symmetry. apply bool_decide_eq_false. lia.
  - apply (strict_eq_Int i z).
  - symmetry. apply bool_decide_eq_false. lia.
Qed.

Lemma shown_at_selectTab_any index els (d : Dom) :
  NoDup (items els) → Forall (λ r, r < List.length d) (items els) →
  shown_at (shown_position index) els (selectTab index els d).2.
Proof.
  intros Hnd Hr. rewrite Forall_forall in Hr. unfold items in Hr.
  setoid_rewrite elem_of_app in Hr. setoid_rewrite elem_of_app in Hr.
  setoid_rewrite elem_of_app in Hr.
  repeat split; intros i r Hi; rewrite <- strict_eq_shown;
    pose proof (list_elem_of_lookup_2 _ _ _ Hi).
  - apply selected_header; auto.
  - apply selected_image; auto.
  - apply selected_button; auto.
  - apply selected_debug; auto.
Qed.

Lemma shown_at_same_look z els (d d' : Dom) :
  (∀ r, r ∈ items els →
        has_class "active" r d' = has_class "active" r d ∧ display r d' = display r d) →
  shown_at z els d → shown_at z els d'.
Proof.
  intros Hf (S1 & S2 & S3 & S4). unfold items in Hf.
  setoid_rewrite elem_of_app in Hf. setoid_rewrite elem_of_app in Hf.
  setoid_rewrite elem_of_app in Hf.
  repeat split; intros i r Hi; pose proof (list_elem_of_lookup_2 _ _ _ Hi) as Hr.
  - rewrite <- (S1 i r Hi). unfold is_active. apply Hf; auto.
  - rewrite <- (S2 i r Hi). apply Hf; auto.
  - rewrite <- (S3 i r Hi). apply Hf; auto.
  - rewrite <- (S4 i r Hi). apply Hf; auto.
Qed.

Lemma mounted_same_look config c page r :
  r < List.length (nodes page) →
  has_class "active" r (nodes (mounted config c page)) = has_class "active" r (nodes page)
  ∧ display r (nodes (mounted config c page)) = display r (nodes page).
Proof.
  intros Hr.
  pose proof (createTabElements_built (settings_of config) (nodes page)) as B.
  unfold has_class, display. rewrite nodes_mounted_eq.
  destruct (decide (r = c)) as [->|Hc].
  - rewrite list_lookup_alter_eq, list_lookup_alter_ne by lia.
    rewrite (b_frame _ _ _ _ B) by done. by destruct (nodes page !! c).
  - rewrite !list_lookup_alter_ne by lia. by rewrite (b_frame _ _ _ _ B).
Qed.

Section Consistency.

Variable Number : string → JSNumber.

Lemma consistent_handler h t' target w :
  page_ok w → (t', h) ∈ listeners w → consistent w →
  consistent (run_handler Number h target w).
Proof.
  intros [P1 P2] Hh C t els Hin. rewrite listeners_run_handler in Hin.
  destruct (C t els Hin) as [z Hz].
  destruct h as [els'|s|s].
  - destruct (click_listener_cases Number els' target w) as [->|[index ->]]; [by exists z|].
    rewrite exec_selectTab. simpl.
    destruct (P2 _ _ els els' Hin Hh) as [<-|Hdis].
    + exists (shown_position index). destruct (P1 t els Hin) as [_ [W1 W2 _ _]].
      by apply shown_at_selectTab_any.
    + exists z. eapply shown_at_frame; [|done]. intros r Hr. apply selectTab_other.
      by apply Hdis.
  - exists z. by rewrite nodes_hover_handler.
  - exists z. by rewrite nodes_hover_handler.
Qed.

Lemma consistent_run_all hs target w :
  page_ok w → Forall (λ h, ∃ t', (t', h) ∈ listeners w) hs → consistent w →
  consistent (run_all Number hs target w) ∧ page_ok (run_all Number hs target w).
Proof.
  revert w. induction hs as [|h hs IH]; intros w P Hall C; [done|].
  apply Forall_cons in Hall as [[t' Hh] Hall].
  change (run_all Number (h :: hs) target w)
    with (run_all Number hs target (run_handler Number h target w)).
  apply IH.
  - destruct h as [els'|s|s].
    + eapply page_ok_only_selection; [done|apply only_selection_click_handler].
    + apply (page_ok_same w); [by apply nodes_hover_handler| |done].
      intros. by rewrite listeners_run_handler.
    + apply (page_ok_same w); [by apply nodes_hover_handler| |done].
      intros. by rewrite listeners_run_handler.
  - eapply Forall_impl; [done|]. intros h' [t'' H]. exists t''.
    by rewrite listeners_run_handler.
  - by eapply consistent_handler.
Qed.

Lemma consistent_dispatch ty bubbles target w :
  page_ok w → consistent w → consistent (dispatch Number ty bubbles target w).
Proof.
  intros P C. unfold dispatch. apply consistent_run_all; [done| |done].
  apply Forall_forall. intros h (t & _ & Hh & _)%handlers_for_elem. by exists t.
Qed.

Lemma consistent_same w w' :
  nodes w' = nodes w →
  (∀ t els, (t, TabListClick els) ∈ listeners w' → (t, TabListClick els) ∈ listeners w) →
  consistent w → consistent w'.
Proof. intros Hn Hl C t els Hin%Hl. rewrite Hn. by apply (C t). Qed.

Lemma consistent_createVerticalTabs config w :
  page_ok w → consistent w → consistent (createVerticalTabs config w).
Proof.
  intros P C. destruct (querySelector w (VerticalTabsConfig.container config)) as [c|] eqn:Hc.
  2:{ unfold createVerticalTabs. simpl. rewrite Hc. by apply (consistent_same w). }
  rewrite (createVerticalTabs_eq config w c Hc), exec_selectTab.
  pose proof (createTabElements_built (settings_of config) (nodes w)) as B.
  set (els := (createTabElements _ _).1) in *.
  intros t els'. simpl. rewrite listeners_mounted. fold els.
  rewrite elem_of_app, list_elem_of_singleton. intros [Hin|[= Ht He]].
  - destruct (C t els' Hin) as [z Hz]. exists z.
    destruct P as [P1 _]. destruct (P1 t els' Hin) as [_ [_ W2 _ _]].
    rewrite Forall_forall in W2.
    eapply shown_at_frame.
    { intros r Hr. apply selectTab_other. intros Hr'.
      apply (built_item_range _ _ _ _ _ B) in Hr'. apply W2 in Hr. lia. }
    eapply shown_at_same_look; [|done].
    intros r Hr%W2. by apply mounted_same_look.
  - subst t els'. exists 0%Z. destruct (widget_ok_new config c w) as [W1 W2 _ _].
    by apply shown_at_selectTab.
Qed.

Lemma consistent_step a w :
  page_ok w → consistent w → consistent (step Number a w).
Proof.
  intros P C. destruct a as [config|sel interval|s|target|target|target|id]; simpl.
  - by apply consistent_createVerticalTabs.
  - destruct (autoCycleTabs sel interval w) as [[s|] w'] eqn:E.
    + apply autoCycleTabs_Some in E as (c & _ & _ & _ & ->). simpl.
      apply (consistent_same w); [done| |done]. intros t els. simpl.
      rewrite elem_of_app. intros [H|H]; [done|].
      repeat (apply elem_of_cons in H as [H|H]; [discriminate|]). by apply elem_of_nil in H.
    + unfold autoCycleTabs in E. apply (consistent_same w); [| |done].
      * destruct (querySelector w sel); [|by injection E as <-].
        destruct (querySelectorAll _ _ _); [by injection E as <-|done].
      * destruct (querySelector w sel); [|by injection E as <-].
        destruct (querySelectorAll _ _ _); [by injection E as <-|done].
  - apply (consistent_same w); [| |done]; unfold cleanup; by destruct (get_intervalId s w).
  - by apply consistent_dispatch.
  - by apply consistent_dispatch.
  - by apply consistent_dispatch.
  - unfold timer_fires. destruct (timers w !! id) as [task|]; [|done].
    destruct (scopes w !! task_scope task) as [sc|]; [|done].
    unfold cycleTabs. destruct (List.length (scope_tabs sc)); [done|].
    destruct (scope_tabs sc !! _); [|done]. by apply consistent_dispatch.
Qed.

Lemma consistent_run actions w :
  page_ok w → consistent w → consistent (run Number actions w).
Proof.
  revert w. induction actions as [|a l IH]; intros w P C; [done|].
  simpl. apply IH; [by apply page_ok_step|by apply consistent_step].
Qed.

Lemma consistent_fresh_page (d : Dom) resolve : consistent (fresh_page d resolve).
Proof. intros t els H. by apply elem_of_nil in H. Qed.

(** X25. At every moment a widget shows one position at most: for a widget
    created at any moment of the life of a page, whatever happened on the
    page before and after, there is a number [z] such that the header at [z]
    is the only active one and the image, the button and the debug panel at
    [z] are the only ones displayed (none at all when [z] is no position of
    the widget). The header, the image, the button and the panel that show
    never belong to different tabs. *)
Theorem widget_shows_one_position (d : Dom) (resolve : string → option ref)
    (before after : list Action) (config : VerticalTabsConfig.t) (c : ref) :
  let w0 := run Number before (fresh_page d resolve) in
  querySelector w0 (VerticalTabsConfig.container config) = Some c →
  let els := (createTabElements (settings_of config) (nodes w0)).1 in
  let w := run Number after (createVerticalTabs config w0) in
  ∃ z, shown_at z els (nodes w).
Proof.
  intros w0 Hc els w.
  assert (P0 : page_ok w0) by apply page_ok_run, page_ok_fresh_page.
  assert (C0 : consistent w0) by (apply consistent_run;
    [apply page_ok_fresh_page|apply consistent_fresh_page]).
  assert (C : consistent w).
  { apply consistent_run; [by apply page_ok_createVerticalTabs|].
    by apply consistent_createVerticalTabs. }
  apply (C (tabUL els)). apply listeners_run_mono. by eapply listener_created.
Qed.

End Consistency.

(** Witness of X25: a two-tab widget, cycled, ticked, clicked and hovered. *)
Lemma widget_shows_one_position_witness :
  let resolve := λ sel, if String.eqb sel "#tabs" then Some 0 else None in
  let config := VerticalTabsConfig.mk "#tabs" None
                  [TabConfig.mk "One" "first" "/one.png" None;
                   TabConfig.mk "Two" "second" "/two.png" None] None in
  let w0 := run decimal_Number [] (fresh_page [blank "div"] resolve) in
  let els := (createTabElements (settings_of config) (nodes w0)).1 in
  let w := run decimal_Number
             [CallAutoCycleTabs "#tabs" None; TimerFires 1; Click 5; PointerEnter 0]
             (createVerticalTabs config w0) in
  ∃ z, shown_at z els (nodes w).
Proof.
  intros resolve config w0 els w.
  exact (widget_shows_one_position decimal_Number [blank "div"] resolve []
           [CallAutoCycleTabs "#tabs" None; TimerFires 1; Click 5; PointerEnter 0]
           config 0 eq_refl).
Defined.
(** ** One cycle over two widgets *)

Lemma findIndex_from_app_unique {A} (p : A → bool) (l1 l2 : list A) (j : nat) (i0 : Z) :
  j < List.length l1 →
  (∀ i x, l1 !! i = Some x → p x = bool_decide (i = j)) →
  findIndex_from p (l1 ++ l2) i0 = (i0 + Z.of_nat j)%Z.
Proof.
  revert j i0. induction l1 as [|x l IH]; intros j i0 Hj H; simpl in *; [lia|].
  destruct j as [|j].
  - rewrite (H 0 x eq_refl). simpl. lia.
  - rewrite (H 0 x eq_refl). simpl. rewrite (IH j); [lia|lia|].
    intros i y Hi. rewrite (H (S i) y Hi). apply bool_decide_ext. lia.
Qed.

Lemma path_from_selection_only fuel r (d d' : Dom) :
  selection_only d d' → path_from fuel r d' = path_from fuel r d.
Proof.
  intros [Hlen Hsel]. revert r. induction fuel as [|fuel IH]; intros r; [done|].
  simpl. destruct (d !! r) as [el|] eqn:Hr.
  - destruct (Hsel r el Hr) as (el' & -> & S). rewrite (sb_parentNode _ _ S).
    destruct (parentNode el); [by rewrite IH|done].
  - apply lookup_ge_None in Hr. rewrite lookup_ge_None_2; [done|lia].
Qed.

Lemma path_selection_only r (d d' : Dom) :
  selection_only d d' → path r d' = path r d.
Proof.
  intros S. unfold path. rewrite (proj1 S). by apply path_from_selection_only.
Qed.

Section Stuck.

Variable Number : string → JSNumber.
Hypothesis Number_toString : ∀ n, Number (toString n) = Int (Z.of_nat n).

Lemma stuck_tick A B tA tB id task sc lastA firstB w :
  page_ok w →
  (tA, TabListClick A) ∈ listeners w → (tB, TabListClick B) ∈ listeners w →
  timers w !! id = Some task → scopes w !! task_scope task = Some sc →
  scope_tabs sc = tabItems A ++ tabItems B →
  last (tabItems A) = Some lastA → tabItems B !! 0 = Some firstB →
  heads_at (List.length (tabItems A) - 1) A w →
  tabUL A ∉ path firstB (nodes w) →
  let w' := timer_fires Number id w in
  w' = click_on Number firstB w
  ∧ page_ok w' ∧ listeners w' = listeners w ∧ timers w' = timers w ∧ scopes w' = scopes w
  ∧ (∀ r, r ∈ items A → nodes w' !! r = nodes w !! r)
  ∧ heads_at (List.length (tabItems A) - 1) A w'
  ∧ (tabUL A ∉ path firstB (nodes w'))
  ∧ shown_at 0 B (nodes w').
Proof.
  intros P HA HB Hid Hsc Htabs Hlast Hfirst Hheads Hpath w'.
  assert (HNA : 0 < List.length (tabItems A)).
  { destruct (tabItems A); [done|simpl; lia]. }
  assert (Hk : findIndex (λ tab, has_class "active" tab (nodes w)) (tabItems A ++ tabItems B)
               = Z.of_nat (List.length (tabItems A) - 1)).
  { unfold findIndex. rewrite (findIndex_from_app_unique _ _ _ (List.length (tabItems A) - 1));
      [lia|lia|]. intros i x Hi. by apply Hheads. }
  assert (Heq : w' = click_on Number firstB w).
  { unfold w', timer_fires. rewrite Hid, Hsc, Htabs.
    destruct (cycleTabs_clicks_next Number (tabItems A ++ tabItems B) w) as (tab & Htab & ->).
    { by destruct (tabItems A). }
    simpl. f_equal. rewrite Hk in Htab.
    assert (HNB : 0 < List.length (tabItems B)) by by eapply lookup_lt_Some.
    rewrite length_app in Htab.
    replace (Z.of_nat (List.length (tabItems A) - 1) + 1)%Z
      with (Z.of_nat (List.length (tabItems A))) in Htab by lia.
    rewrite Z.mod_small in Htab by lia. rewrite Nat2Z.id in Htab.
    rewrite lookup_app_r, Nat.sub_diag in Htab by lia. congruence. }
  pose proof (only_selection_click Number firstB w) as Hos. rewrite <- Heq in Hos.
  pose proof Hos as (Hsel & HL & HS & HT & _).
  assert (Hframe : ∀ r, r ∈ items A → nodes w' !! r = nodes w !! r).
  { rewrite Heq. unfold click_on, dispatch.
    apply (click_run_all_frame Number A tA); [done..|].
    apply Forall_forall. intros h (t & Ht & Hh & Hev)%handlers_for_elem.
    exists t. split; [done|]. split; [done|]. by intros ->. }
  split; [done|]. split; [by eapply page_ok_only_selection|].
  do 3 (split; [done|]). split; [done|]. split; [|split].
  - intros i x Hi. rewrite <- (Hheads i x Hi). unfold is_active, has_class.
    rewrite Hframe; [done|]. unfold items. rewrite elem_of_app. left.
    by eapply list_elem_of_lookup_2.
  - by rewrite (path_selection_only _ _ _ Hsel).
  - rewrite Heq. unfold click_on, dispatch.
    destruct P as [P1 P2]. destruct (P1 _ _ HB) as [-> WB].
    apply (click_run_all_shown Number Number_toString B 0 firstB); [by split|done..| |].
    + apply Forall_forall. intros h (t & _ & Hh & Hev)%handlers_for_elem. by exists t.
    + left. apply handlers_for_elem. exists (tabUL B).
      destruct (wk_header _ _ WB 0 firstB Hfirst) as (el & Hel & _ & _ & Hp).
      split; [|done]. eapply path_parent; [done..|].
      apply lookup_lt_is_Some_2, WB.
Qed.

(** X26. One cycle over two widgets gets stuck. When an activation of
    [autoCycleTabs] holds the headers of two widgets of the page, those of
    widget [A] followed by those of widget [B], and [A] is on its last tab,
    then every tick clicks the first header of [B]: after any number of
    ticks, one or more, [A] is untouched, still on its last tab, [B] shows
    its first tab, and the next tick clicks the first header of [B] again.
    (The list of [A] is not an ancestor of the headers of [B].) *)
Theorem cycle_over_two_widgets_gets_stuck (d : Dom) (resolve : string → option ref)
    (actions : list Action) (A B : TabElements) (tA tB : ref) (id : positive)
    (task : TimerTask) (sc : Scope) (lastA firstB : ref) (n : nat) :
  let w := run Number actions (fresh_page d resolve) in
  (tA, TabListClick A) ∈ listeners w → (tB, TabListClick B) ∈ listeners w →
  timers w !! id = Some task → scopes w !! task_scope task = Some sc →
  scope_tabs sc = tabItems A ++ tabItems B →
  last (tabItems A) = Some lastA → tabItems B !! 0 = Some firstB →
  is_active lastA (nodes w) = true →
  tabUL A ∉ path firstB (nodes w) →
  let w' := run Number (replicate (S n) (TimerFires id)) w in
  is_active lastA (nodes w') = true
  ∧ (∀ r, r ∈ items A → nodes w' !! r = nodes w !! r)
  ∧ shown_at 0 B (nodes w')
  ∧ timer_fires Number id w' = click_on Number firstB w'.
Proof.
  intros w HA HB Hid Hsc Htabs Hlast Hfirst Hact Hpath w'.
  assert (P : page_ok w) by apply page_ok_run, page_ok_fresh_page.
  assert (C : consistent w).
  { apply consistent_run; [apply page_ok_fresh_page|apply consistent_fresh_page]. }
  assert (Hl : tabItems A !! (List.length (tabItems A) - 1) = Some lastA).
  { rewrite last_lookup in Hlast. by replace (List.length (tabItems A) - 1)
      with (pred (List.length (tabItems A))) by lia. }
  assert (Hheads : heads_at (List.length (tabItems A) - 1) A w).
  { destruct (C _ _ HA) as [z (S1 & _)]. intros i x Hi. rewrite (S1 i x Hi).
    pose proof (S1 _ _ Hl) as Hz. rewrite Hact in Hz. symmetry in Hz.
    apply bool_decide_eq_true in Hz. apply bool_decide_ext. lia. }
  assert (G : ∀ m w1,
            page_ok w1 → (tA, TabListClick A) ∈ listeners w1 →
            (tB, TabListClick B) ∈ listeners w1 →
            timers w1 !! id = Some task → scopes w1 !! task_scope task = Some sc →
            heads_at (List.length (tabItems A) - 1) A w1 →
            tabUL A ∉ path firstB (nodes w1) →
            let w2 := run Number (replicate (S m) (TimerFires id)) w1 in
            heads_at (List.length (tabItems A) - 1) A w2
            ∧ (∀ r, r ∈ items A → nodes w2 !! r = nodes w1 !! r)
            ∧ shown_at 0 B (nodes w2)
            ∧ timer_fires Number id w2 = click_on Number firstB w2).
  { induction m as [|m IH]; intros w1 P1 HA1 HB1 Hid1 Hsc1 Hh1 Hp1 w2.
    - destruct (stuck_tick A B tA tB id task sc lastA firstB w1)
        as (E & P2 & L2 & T2 & S2 & F2 & H2 & Pa2 & Sh2); try done.
      unfold w2. simpl. split; [done|]. split; [done|]. split; [done|].
      destruct (stuck_tick A B tA tB id task sc lastA firstB (timer_fires Number id w1))
        as (E' & _); try done; by rewrite ?L2, ?T2, ?S2.
    - destruct (stuck_tick A B tA tB id task sc lastA firstB w1)
        as (E & P2 & L2 & T2 & S2 & F2 & H2 & Pa2 & Sh2); try done.
      unfold w2. cbn [replicate run fold_left].
      fold (run Number (replicate (S m) (TimerFires id)) (step Number (TimerFires id) w1)).
      destruct (IH (step Number (TimerFires id) w1)) as (I1 & I2 & I3 & I4);
        try done; try (simpl; by rewrite ?L2, ?T2, ?S2).
      split; [done|]. split; [|done]. intros r Hr. rewrite I2 by done. by apply F2. }
  destruct (G n w P HA HB Hid Hsc Hheads Hpath) as (G1 & G2 & G3 & G4).
  split; [|done]. unfold w'. rewrite (G1 _ _ Hl). by apply bool_decide_eq_true.
Qed.

End Stuck.

(** Witness of X26: two two-tab widgets in one container, cycled together, after the tick that brings the first to its last tab. *)
Lemma cycle_over_two_widgets_gets_stuck_witness :
  let resolve := λ sel, if String.eqb sel "#tabs" then Some 0 else None in
  let page := fresh_page [blank "div"] resolve in
  let upper := VerticalTabsConfig.mk "#tabs" None
                 [TabConfig.mk "One" "first" "/one.png" None;
                  TabConfig.mk "Two" "second" "/two.png" None] None in
  let lower := VerticalTabsConfig.mk "#tabs" None
                 [TabConfig.mk "Three" "third" "/three.png" None;
                  TabConfig.mk "Four" "fourth" "/four.png" None] None in
  let A := (createTabElements (settings_of upper) (nodes page)).1 in
  let B := (createTabElements (settings_of lower)
              (nodes (createVerticalTabs upper page))).1 in
  let w := run decimal_Number
             [CallCreateVerticalTabs upper; CallCreateVerticalTabs lower;
              CallAutoCycleTabs "#tabs" None; TimerFires 1] page in
  let w' := run decimal_Number (replicate (S 2) (TimerFires 1)) w in
  is_active 8 (nodes w') = true
  ∧ (∀ r, r ∈ items A → nodes w' !! r = nodes w !! r)
  ∧ shown_at 0 B (nodes w')
  ∧ timer_fires decimal_Number 1 w' = click_on decimal_Number 15 w'.
Proof.
  intros resolve page upper lower A B w w'.
  exact (cycle_over_two_widgets_gets_stuck decimal_Number decimal_Number_toString
           [blank "div"] resolve
           [CallCreateVerticalTabs upper; CallCreateVerticalTabs lower;
            CallAutoCycleTabs "#tabs" None; TimerFires 1]
           A B 3 13 1%positive (mkTimerTask 0 5000%Z)
           (mkScope [5; 8; 15; 18] 5000%Z (Some 1%positive)) 8 15 2
           ltac:(vm_compute; apply list_elem_of_here)
           ltac:(vm_compute; apply list_elem_of_further, list_elem_of_here)
           ltac:(vm_compute; reflexivity) ltac:(vm_compute; reflexivity)
           ltac:(vm_compute; reflexivity) ltac:(vm_compute; reflexivity)
           ltac:(vm_compute; reflexivity) ltac:(vm_compute; reflexivity)
           ltac:(apply (bool_decide_unpack (_ ∉ _)); vm_compute; exact I)).
Defined.
